(** * Order-lifecycle reconciliation of the rider and seller dashboards

    A shallow embedding of the browser-side controllers

    - [static/js/rider_available_orders.js]  (module [AvailableOrders]),
    - the [RiderWebSocket] class               (module [RiderWebSocket]),
    - the [SellerWebSocket] class              (module [SellerWebSocket]),
    - [static/js/rider_dashboard.js]           (module [RiderDashboard]),

    the properties of the order set, the action dispatcher and the
    connection manager that the specification states about them, and
    further properties of the controllers that the code itself shows.

    Conventions of the embedding.

    - The page is single threaded: every handler runs to completion.  A
      handler is a function from states to states; what the source leaves
      pending (a [setTimeout] callback, a [fetch] promise) is recorded in the
      state together with the references its closure captured, and runs when
      the corresponding event is delivered.
    - DOM elements that the scripts create are heap objects: a card lives in
      a store and is referred to by its handle, so that a closure holding a
      reference to a detached card still updates that very card.
    - Order and rider identifiers are JSON integers.  String concatenation
      with an identifier uses its decimal rendering ([pretty]).
    - Markup strings assigned to [innerHTML] are kept as constructors of
      [Markup]; the text of the toasts is kept as it is in the source.
    - [console.error] and [console.warn] calls are recorded; [console.log]
      tracing is not. *)

From stdpp Require Import base numbers list strings pretty.

Open Scope Z_scope.

(** ** Values shared by the controllers *)

(** The two values the scripts assign to [style.display]. *)
Inductive Display := block | none.

(** What the scripts assign to a button's [innerHTML]. *)
Inductive Markup :=
| Literal (html : string)       (* markup written in the page or in a template literal *)
| AcceptingSpinner              (* spinner followed by Accepting... *)
| AcceptLabel                   (* check-circle icon followed by Accept *)
| BareSpinner                   (* a spinner alone *)
| RefreshingSpinner             (* spinner followed by Refreshing... *)
| RefreshLabel.                 (* sync icon followed by Refresh *)

Record Button := { disabled : bool; innerHTML : Markup }.

Inductive Level := error | warn.

(** How a called function ends: it returns, or an exception leaves it. *)
Inductive Outcome := Returned | Threw.

Record Toast := { title : string; message : string; kind : string }.

(** [a || d] for a string-valued [a] that may be undefined: the empty string
    is falsy. *)
Definition truthy (a : option string) : bool :=
  match a with
  | Some s => negb (String.eqb s "")
  | None => false
  end.

Definition or_else (a : option string) (d : string) : string :=
  match a with
  | Some s => if String.eqb s "" then d else s
  | None => d
  end.

Definition enable (m : Markup) (b : Button) : Button :=
  {| disabled := false; innerHTML := m |}.

Definition disable (m : Markup) (b : Button) : Button :=
  {| disabled := true; innerHTML := m |}.

(** * static/js/rider_available_orders.js *)

Module AvailableOrders.

(** The order record of [GET /rider/available-orders] and of the push
    events, with the fields the reconciliation reads. *)
Record Order := {
  id : Z;
  order_number : option string;
}.

(** The [orderCardTemplate] element.  Its markup is not part of the
    sources: it is taken to hold one [.order-card] root with the text slots
    that [addOrderCard] fills unconditionally; the accept button is
    optional, as the code tests for it. *)
Record Template := { tpl_accept_btn : option Button }.

(** An order card cloned from the template. *)
Record Card := {
  card_id : string;            (* the id attribute, order- followed by the id *)
  card_order : Z;              (* data-order-id, and the id its onclick closures hold *)
  card_number : string;        (* text of .order-number *)
  fading : bool;               (* style.opacity was set to 0 *)
  accept_btn : option Button;  (* the .accept-order-btn inside the card *)
}.

(** [availableOrdersContainer]; [children] lists the attached cards, first
    child first. *)
Record Container := { c_display : Display; children : list nat }.

(** Pending [setTimeout] callbacks with what their closures captured. *)
Inductive Timeout :=
| FadeOut (card : nat)   (* removeOrderCard, 300 ms *)
| ReloadPage             (* acceptOrder on success, 1000 ms *)
| RestoreRefresh.        (* refresh button, 1000 ms *)

Inductive IntervalCallback := LoadAvailableOrders.

Record Interval := { period_ms : Z; callback : IntervalCallback }.

Inductive Request :=
| GetAvailableOrders             (* GET /rider/available-orders *)
| PostAccept (order_id : Z).     (* POST /rider/delivery/accept *)

(** A [fetch] whose promise chain has not run yet, with the variables the
    chain closes over. *)
Inductive Pending :=
| PLoad
| PAccept (orderId : Z) (btn : option nat).

(** What a [fetch] settles to: a JSON body, read field by field as the
    handlers do, or a rejection (network failure, body that is not JSON). *)
Record Json := {
  success : bool;
  msg : option string;
  orders : option (list Order);
}.

Inductive Response := Body (data : Json) | Rejected.

Inductive Emit :=
| Join (room : string)
| RiderOnline (rider_id : option Z).

Record State := {
  riderId : option Z;
  socket : bool;                 (* io() returned a socket and the handlers are bound *)
  handlers : bool;               (* setupEventHandlers ran *)
  loadingEl : option Display;    (* ordersLoading *)
  noOrdersEl : option Display;   (* noOrdersMessage *)
  container : option Container;  (* availableOrdersContainer *)
  template : option Template;    (* orderCardTemplate *)
  store : list Card;             (* every card element, by handle *)
  refreshBtn : option Button;    (* refreshOrdersBtn *)
  retryBtn : bool;               (* retryLoadBtn exists *)
  timers : list Timeout;
  intervals : list Interval;
  inflight : list Pending;
  net : list Request;            (* every request issued, oldest first *)
  toasts : list Toast;
  console : list (Level * string);
  emitted : list Emit;           (* socket.emit calls, oldest first *)
  reloads : nat;                 (* window.location.reload() calls *)
}.

(** Field updates. *)
Definition set_riderId (v : option Z) (s : State) : State :=
  {| riderId := v; socket := socket s; handlers := handlers s;
     loadingEl := loadingEl s; noOrdersEl := noOrdersEl s;
     container := container s; template := template s; store := store s;
     refreshBtn := refreshBtn s; retryBtn := retryBtn s; timers := timers s;
     intervals := intervals s; inflight := inflight s; net := net s;
     toasts := toasts s; console := console s; emitted := emitted s;
     reloads := reloads s |}.
Definition set_socket (v : bool) (s : State) : State :=
  {| riderId := riderId s; socket := v; handlers := handlers s;
     loadingEl := loadingEl s; noOrdersEl := noOrdersEl s;
     container := container s; template := template s; store := store s;
     refreshBtn := refreshBtn s; retryBtn := retryBtn s; timers := timers s;
     intervals := intervals s; inflight := inflight s; net := net s;
     toasts := toasts s; console := console s; emitted := emitted s;
     reloads := reloads s |}.
Definition set_handlers (v : bool) (s : State) : State :=
  {| riderId := riderId s; socket := socket s; handlers := v;
     loadingEl := loadingEl s; noOrdersEl := noOrdersEl s;
     container := container s; template := template s; store := store s;
     refreshBtn := refreshBtn s; retryBtn := retryBtn s; timers := timers s;
     intervals := intervals s; inflight := inflight s; net := net s;
     toasts := toasts s; console := console s; emitted := emitted s;
     reloads := reloads s |}.
Definition set_loadingEl (v : option Display) (s : State) : State :=
  {| riderId := riderId s; socket := socket s; handlers := handlers s;
     loadingEl := v; noOrdersEl := noOrdersEl s;
     container := container s; template := template s; store := store s;
     refreshBtn := refreshBtn s; retryBtn := retryBtn s; timers := timers s;
     intervals := intervals s; inflight := inflight s; net := net s;
     toasts := toasts s; console := console s; emitted := emitted s;
     reloads := reloads s |}.
Definition set_noOrdersEl (v : option Display) (s : State) : State :=
  {| riderId := riderId s; socket := socket s; handlers := handlers s;
     loadingEl := loadingEl s; noOrdersEl := v;
     container := container s; template := template s; store := store s;
     refreshBtn := refreshBtn s; retryBtn := retryBtn s; timers := timers s;
     intervals := intervals s; inflight := inflight s; net := net s;
     toasts := toasts s; console := console s; emitted := emitted s;
     reloads := reloads s |}.
Definition set_container (v : option Container) (s : State) : State :=
  {| riderId := riderId s; socket := socket s; handlers := handlers s;
     loadingEl := loadingEl s; noOrdersEl := noOrdersEl s;
     container := v; template := template s; store := store s;
     refreshBtn := refreshBtn s; retryBtn := retryBtn s; timers := timers s;
     intervals := intervals s; inflight := inflight s; net := net s;
     toasts := toasts s; console := console s; emitted := emitted s;
     reloads := reloads s |}.
Definition set_store (v : list Card) (s : State) : State :=
  {| riderId := riderId s; socket := socket s; handlers := handlers s;
     loadingEl := loadingEl s; noOrdersEl := noOrdersEl s;
     container := container s; template := template s; store := v;
     refreshBtn := refreshBtn s; retryBtn := retryBtn s; timers := timers s;
     intervals := intervals s; inflight := inflight s; net := net s;
     toasts := toasts s; console := console s; emitted := emitted s;
     reloads := reloads s |}.
Definition set_refreshBtn (v : option Button) (s : State) : State :=
  {| riderId := riderId s; socket := socket s; handlers := handlers s;
     loadingEl := loadingEl s; noOrdersEl := noOrdersEl s;
     container := container s; template := template s; store := store s;
     refreshBtn := v; retryBtn := retryBtn s; timers := timers s;
     intervals := intervals s; inflight := inflight s; net := net s;
     toasts := toasts s; console := console s; emitted := emitted s;
     reloads := reloads s |}.
Definition set_timers (v : list Timeout) (s : State) : State :=
  {| riderId := riderId s; socket := socket s; handlers := handlers s;
     loadingEl := loadingEl s; noOrdersEl := noOrdersEl s;
     container := container s; template := template s; store := store s;
     refreshBtn := refreshBtn s; retryBtn := retryBtn s; timers := v;
     intervals := intervals s; inflight := inflight s; net := net s;
     toasts := toasts s; console := console s; emitted := emitted s;
     reloads := reloads s |}.
Definition set_intervals (v : list Interval) (s : State) : State :=
  {| riderId := riderId s; socket := socket s; handlers := handlers s;
     loadingEl := loadingEl s; noOrdersEl := noOrdersEl s;
     container := container s; template := template s; store := store s;
     refreshBtn := refreshBtn s; retryBtn := retryBtn s; timers := timers s;
     intervals := v; inflight := inflight s; net := net s;
     toasts := toasts s; console := console s; emitted := emitted s;
     reloads := reloads s |}.
Definition set_inflight (v : list Pending) (s : State) : State :=
  {| riderId := riderId s; socket := socket s; handlers := handlers s;
     loadingEl := loadingEl s; noOrdersEl := noOrdersEl s;
     container := container s; template := template s; store := store s;
     refreshBtn := refreshBtn s; retryBtn := retryBtn s; timers := timers s;
     intervals := intervals s; inflight := v; net := net s;
     toasts := toasts s; console := console s; emitted := emitted s;
     reloads := reloads s |}.
Definition set_net (v : list Request) (s : State) : State :=
  {| riderId := riderId s; socket := socket s; handlers := handlers s;
     loadingEl := loadingEl s; noOrdersEl := noOrdersEl s;
     container := container s; template := template s; store := store s;
     refreshBtn := refreshBtn s; retryBtn := retryBtn s; timers := timers s;
     intervals := intervals s; inflight := inflight s; net := v;
     toasts := toasts s; console := console s; emitted := emitted s;
     reloads := reloads s |}.
Definition set_toasts (v : list Toast) (s : State) : State :=
  {| riderId := riderId s; socket := socket s; handlers := handlers s;
     loadingEl := loadingEl s; noOrdersEl := noOrdersEl s;
     container := container s; template := template s; store := store s;
     refreshBtn := refreshBtn s; retryBtn := retryBtn s; timers := timers s;
     intervals := intervals s; inflight := inflight s; net := net s;
     toasts := v; console := console s; emitted := emitted s;
     reloads := reloads s |}.
Definition set_console (v : list (Level * string)) (s : State) : State :=
  {| riderId := riderId s; socket := socket s; handlers := handlers s;
     loadingEl := loadingEl s; noOrdersEl := noOrdersEl s;
     container := container s; template := template s; store := store s;
     refreshBtn := refreshBtn s; retryBtn := retryBtn s; timers := timers s;
     intervals := intervals s; inflight := inflight s; net := net s;
     toasts := toasts s; console := v; emitted := emitted s;
     reloads := reloads s |}.
Definition set_emitted (v : list Emit) (s : State) : State :=
  {| riderId := riderId s; socket := socket s; handlers := handlers s;
     loadingEl := loadingEl s; noOrdersEl := noOrdersEl s;
     container := container s; template := template s; store := store s;
     refreshBtn := refreshBtn s; retryBtn := retryBtn s; timers := timers s;
     intervals := intervals s; inflight := inflight s; net := net s;
     toasts := toasts s; console := console s; emitted := v;
     reloads := reloads s |}.
Definition set_reloads (v : nat) (s : State) : State :=
  {| riderId := riderId s; socket := socket s; handlers := handlers s;
     loadingEl := loadingEl s; noOrdersEl := noOrdersEl s;
     container := container s; template := template s; store := store s;
     refreshBtn := refreshBtn s; retryBtn := retryBtn s; timers := timers s;
     intervals := intervals s; inflight := inflight s; net := net s;
     toasts := toasts s; console := console s; emitted := emitted s;
     reloads := v |}.

(** [if (el) el.style.display = d]. *)
Definition show_if_present (d : Display) (el : option Display) : option Display :=
  match el with
  | Some _ => Some d
  | None => None
  end.

Definition set_c_display (d : Display) (c : Container) : Container :=
  {| c_display := d; children := children c |}.

Definition set_children (l : list nat) (c : Container) : Container :=
  {| c_display := c_display c; children := l |}.

(** [console.error(text, ...)] and [console.warn(text, ...)]. *)
Definition log (lv : Level) (text : string) (s : State) : State :=
  set_console (console s ++ [(lv, text)]) s.

(** [showToast(title, message, type)]: the toast is appended to the toast
    container (or to the body). *)
Definition showToast (t m k : string) (s : State) : State :=
  set_toasts (toasts s ++ [{| title := t; message := m; kind := k |}]) s.

(** ['order-' + v], where [v] may be undefined. *)
Definition elemIdOf (v : option Z) : string :=
  "order-" +:+ match v with
               | Some z => pretty z
               | None => "undefined"
               end.

Definition elemId (orderId : Z) : string := elemIdOf (Some orderId).

Definition has_id (cards : list Card) (eid : string) (h : nat) : bool :=
  match cards !! h with
  | Some c => String.eqb (card_id c) eid
  | None => false
  end.

(** [document.getElementById(eid)] for a card id: the first attached card
    with that id, in document order.  Cards are attached under the
    container only. *)
Definition getCard (s : State) (eid : string) : option nat :=
  match container s with
  | Some c => List.find (has_id (store s) eid) (children c)
  | None => None
  end.

(** Update of the element behind a handle. *)
Definition update_card (f : Card -> Card) (h : nat) (cards : list Card) : list Card :=
  match cards !! h with
  | Some c => <[h := f c]> cards
  | None => cards
  end.

Definition set_fading (c : Card) : Card :=
  {| card_id := card_id c; card_order := card_order c;
     card_number := card_number c; fading := true;
     accept_btn := accept_btn c |}.

Definition map_btn (f : Button -> Button) (c : Card) : Card :=
  {| card_id := card_id c; card_order := card_order c;
     card_number := card_number c; fading := fading c;
     accept_btn := f <$> accept_btn c |}.

(** [addOrderCard(order)], lines 138-194. *)
Definition addOrderCard (order : Order) (s : State) : State :=
  match container s, template s with
  | Some c, Some t =>
      match getCard s (elemId (id order)) with
      | Some _ => s
      | None =>
          let card :=
            {| card_id := elemId (id order);
               card_order := id order;
               card_number := or_else (order_number order)
                                      ("ORD-" +:+ pretty (id order));
               fading := false;
               accept_btn := tpl_accept_btn t |} in
          let h := length (store s) in
          set_container (Some (set_children (h :: children c) c))
            (set_store (store s ++ [card]) s)
      end
  | _, _ => log error "Container or template not found!" s
  end.

(** [removeOrderCard(orderId)], lines 320-336: the card starts to fade and
    the removal is scheduled. *)
Definition removeOrderCard (orderId : option Z) (s : State) : State :=
  match getCard s (elemIdOf orderId) with
  | Some h =>
      set_timers (timers s ++ [FadeOut h])
        (set_store (update_card set_fading h (store s)) s)
  | None => s
  end.

(** The callback scheduled by [removeOrderCard], lines 325-334:
    [card.remove()], then the empty-container test. *)
Definition fadeOutDone (h : nat) (s : State) : State :=
  match container s with
  | Some c =>
      let rest := filter (fun k => k <> h) (children c) in
      match rest with
      | [] =>
          set_noOrdersEl (show_if_present block (noOrdersEl s))
            (set_container (Some {| c_display := none; children := rest |}) s)
      | _ :: _ => set_container (Some (set_children rest c)) s
      end
  | None => s
  end.

(** [loadAvailableOrders()], lines 95-106: up to the [fetch] call. *)
Definition loadAvailableOrders (s : State) : State :=
  let s := set_loadingEl (show_if_present block (loadingEl s)) s in
  let s := set_noOrdersEl (show_if_present none (noOrdersEl s)) s in
  let s := set_container (set_c_display none <$> container s) s in
  set_inflight (inflight s ++ [PLoad]) (set_net (net s ++ [GetAvailableOrders]) s).

(** The [then] handler of [loadAvailableOrders], lines 108-127. *)
Definition ordersLoaded (data : Json) (s : State) : State :=
  let s := set_loadingEl (show_if_present none (loadingEl s)) s in
  match success data, orders data with
  | true, Some (o :: os) =>
      let s := set_container
                 ((fun _ => {| c_display := block; children := [] |}) <$> container s) s in
      let s := set_noOrdersEl (show_if_present none (noOrdersEl s)) s in
      List.fold_left (fun acc order => addOrderCard order acc) (o :: os) s
  | _, _ =>
      let s := set_container (set_c_display none <$> container s) s in
      set_noOrdersEl (show_if_present block (noOrdersEl s)) s
  end.

(** The [catch] handler of [loadAvailableOrders], lines 128-132. *)
Definition ordersFailed (s : State) : State :=
  let s := log error "Error loading orders:" s in
  let s := set_loadingEl (show_if_present none (loadingEl s)) s in
  showToast "Error" "Failed to load orders" "danger" s.

(** [const btn = card?.querySelector('.accept-order-btn')]: the handle of
    the card whose button it is. *)
Definition acceptBtnOf (s : State) (orderId : Z) : option nat :=
  match getCard s (elemId orderId) with
  | Some h =>
      match store s !! h with
      | Some c => match accept_btn c with
                  | Some _ => Some h
                  | None => None
                  end
      | None => None
      end
  | None => None
  end.

Definition update_btn (f : Button -> Button) (btn : option nat) (s : State) : State :=
  match btn with
  | Some h => set_store (update_card (map_btn f) h (store s)) s
  | None => s
  end.

(** [window.acceptOrder(orderId)], lines 199-217: up to the [fetch] call.
    [confirmed] is the answer to the confirm dialog. *)
Definition acceptOrder (confirmed : bool) (orderId : Z) (s : State) : State :=
  if confirmed then
    let btn := acceptBtnOf s orderId in
    let s := update_btn (disable AcceptingSpinner) btn s in
    set_inflight (inflight s ++ [PAccept orderId btn])
      (set_net (net s ++ [PostAccept orderId]) s)
  else s.

(** The [then] handler of [acceptOrder], lines 219-231. *)
Definition acceptAnswered (orderId : Z) (btn : option nat) (data : Json)
    (s : State) : State :=
  if success data then
    let s := showToast "Success!" "Delivery accepted successfully" "success" s in
    let s := removeOrderCard (Some orderId) s in
    set_timers (timers s ++ [ReloadPage]) s
  else
    let s := showToast "Failed" (or_else (msg data) "Could not accept delivery")
               "danger" s in
    update_btn (enable AcceptLabel) btn s.

(** The [catch] handler of [acceptOrder], lines 232-239. *)
Definition acceptFailed (btn : option nat) (s : State) : State :=
  let s := log error "Error:" s in
  let s := showToast "Error" "Failed to accept delivery" "danger" s in
  update_btn (enable AcceptLabel) btn s.

(** The payload of the three new-order events: the order, bare or wrapped
    in an [order] field ([data.order || data]). *)
Inductive NewOrderPayload := Wrapped (o : Order) | Bare (o : Order).

Definition payloadOrder (data : NewOrderPayload) : Order :=
  match data with
  | Wrapped o => o
  | Bare o => o
  end.

(** [handleNewOrder(data)], lines 286-300.  An id of 0 is falsy. *)
Definition handleNewOrder (data : NewOrderPayload) (s : State) : State :=
  let order := payloadOrder data in
  if Z.eqb (id order) 0 then s
  else
    let s := set_container (set_c_display block <$> container s) s in
    let s := set_noOrdersEl (show_if_present none (noOrdersEl s)) s in
    let s := addOrderCard order s in
    showToast "New Order!"
      ("Order " +:+ or_else (order_number order) (pretty (id order))
                +:+ " is available") "info" s.

(** The payload of [order_taken]: [data.order_id || data.orderId]. *)
Record TakenPayload := { t_order_id : option Z; t_orderId : option Z }.

Definition takenId (data : TakenPayload) : option Z :=
  match t_order_id data with
  | Some z => if Z.eqb z 0 then t_orderId data else Some z
  | None => t_orderId data
  end.

(** [handleOrderTaken(data)], lines 305-308. *)
Definition handleOrderTaken (data : TakenPayload) (s : State) : State :=
  removeOrderCard (takenId data) s.

Record AcceptedPayload := { a_order_id : Z; a_rider_id : Z }.

(** [data.rider_id != riderId]: the page's rider id is the numeral of the
    data-rider-id attribute, and the loose comparison with a number is
    numeric.  A number differs from null. *)
Definition differs (rider_id : Z) (own : option Z) : bool :=
  match own with
  | Some r => negb (Z.eqb rider_id r)
  | None => true
  end.

(** [handleOrderAccepted(data)], lines 310-315. *)
Definition handleOrderAccepted (data : AcceptedPayload) (s : State) : State :=
  if differs (a_rider_id data) (riderId s)
  then removeOrderCard (Some (a_order_id data)) s
  else s.

(** The [connect] handler, lines 65-70. *)
Definition subscriptions (own : option Z) : list Emit :=
  [ Join ("rider_" +:+ match own with
                       | Some r => pretty r
                       | None => "null"
                       end);
    Join "available_orders";
    RiderOnline own ].

Definition onConnect (s : State) : State :=
  set_emitted (emitted s ++ subscriptions (riderId s)) s.

Inductive SocketEvent :=
| Connect
| NewDeliveryOpportunity (data : NewOrderPayload)
| NewAvailableOrder (data : NewOrderPayload)
| NewOrderConfirmed (data : NewOrderPayload)
| OrderTaken (data : TakenPayload)
| OrderAccepted (data : AcceptedPayload)
| Disconnect
| Reconnect.

(** The handlers bound in [initializeWebSocket], lines 65-85.  The
    transport raises [connect] on every successful connection, the first
    one and each reconnection; the [reconnect] handler only reloads the
    orders. *)
Definition onSocket (ev : SocketEvent) (s : State) : State :=
  match ev with
  | Connect => onConnect s
  | NewDeliveryOpportunity d | NewAvailableOrder d | NewOrderConfirmed d =>
      handleNewOrder d s
  | OrderTaken d => handleOrderTaken d s
  | OrderAccepted d => handleOrderAccepted d s
  | Disconnect => log warn "WebSocket disconnected:" s
  | Reconnect => loadAvailableOrders s
  end.

(** The click listener of the refresh button, lines 344-352. *)
Definition refreshClicked (s : State) : State :=
  let s := set_refreshBtn (disable RefreshingSpinner <$> refreshBtn s) s in
  let s := loadAvailableOrders s in
  set_timers (timers s ++ [RestoreRefresh]) s.

(** Running a [setTimeout] callback. *)
Definition runTimeout (t : Timeout) (s : State) : State :=
  match t with
  | FadeOut h => fadeOutDone h s
  | ReloadPage => set_reloads (S (reloads s)) s
  | RestoreRefresh => set_refreshBtn (enable RefreshLabel <$> refreshBtn s) s
  end.

(** Settling a [fetch]. *)
Definition settle (p : Pending) (r : Response) (s : State) : State :=
  match p, r with
  | PLoad, Body data => ordersLoaded data s
  | PLoad, Rejected => ordersFailed s
  | PAccept orderId btn, Body data => acceptAnswered orderId btn data s
  | PAccept _ btn, Rejected => acceptFailed btn s
  end.

(** What can happen on the page after it was initialised. *)
Inductive Event :=
| Socket (ev : SocketEvent)          (* a socket event is delivered *)
| Fire (k : nat)                     (* the k-th pending timeout runs *)
| Tick (k : nat)                     (* the k-th interval timer fires *)
| Settle (k : nat) (r : Response)    (* the k-th pending fetch settles *)
| ClickAccept (h : nat) (confirmed : bool) (* click on the accept button of card h *)
| ModalAccept (orderId : Z) (confirmed : bool) (* accept button of the details modal, lines 266-272 *)
| ClickRefresh
| ClickRetry.

(** A click reaches the onclick handler of a card's accept button only
    when the card is attached and the button is not disabled: the browser
    delivers no click to a disabled button. *)
Definition clickable (s : State) (h : nat) : option Z :=
  match container s, store s !! h with
  | Some c, Some cd =>
      match accept_btn cd with
      | Some b =>
          if bool_decide (h ∈ children c) && negb (disabled b)
          then Some (card_order cd) else None
      | None => None
      end
  | _, _ => None
  end.

Definition step (s : State) (e : Event) : State :=
  match e with
  | Socket ev => if socket s then onSocket ev s else s
  | Fire k =>
      match timers s !! k with
      | Some t => runTimeout t (set_timers (delete k (timers s)) s)
      | None => s
      end
  | Tick k =>
      match intervals s !! k with
      | Some {| callback := LoadAvailableOrders |} => loadAvailableOrders s
      | None => s
      end
  | Settle k r =>
      match inflight s !! k with
      | Some p => settle p r (set_inflight (delete k (inflight s)) s)
      | None => s
      end
  | ClickAccept h confirmed =>
      match clickable s h with
      | Some orderId => acceptOrder confirmed orderId s
      | None => s
      end
  | ModalAccept orderId confirmed => acceptOrder confirmed orderId s
  | ClickRefresh =>
      match handlers s, refreshBtn s with
      | true, Some b => if disabled b then s else refreshClicked s
      | _, _ => s
      end
  | ClickRetry =>
      if handlers s && retryBtn s then loadAvailableOrders s else s
  end.

Definition run (s : State) (es : list Event) : State :=
  List.fold_left step es s.

(** The page as the script finds it on [DOMContentLoaded]. *)
Record Page := {
  dashboard_rider : option (option Z); (* .rider-dashboard and its data-rider-id *)
  section_rider : option (option Z);   (* availableOrdersSection and its data-rider-id *)
  io_loaded : bool;                    (* typeof io !== 'undefined' *)
  p_loadingEl : option Display;
  p_noOrdersEl : option Display;
  p_container : option Container;
  p_template : option Template;
  p_store : list Card;
  p_refreshBtn : option Button;
  p_retryBtn : bool;
}.

Definition pageState (p : Page) : State :=
  {| riderId := None; socket := false; handlers := false;
     loadingEl := p_loadingEl p; noOrdersEl := p_noOrdersEl p;
     container := p_container p; template := p_template p;
     store := p_store p; refreshBtn := p_refreshBtn p;
     retryBtn := p_retryBtn p; timers := []; intervals := [];
     inflight := []; net := []; toasts := []; console := []; emitted := [];
     reloads := 0%nat |}.

(** Lines 20-30. *)
Definition findRiderId (p : Page) : option Z :=
  match dashboard_rider p with
  | Some r => r
  | None => match section_rider p with
            | Some r => r
            | None => None
            end
  end.

(** [initializeWebSocket()], lines 49-90. *)
Definition initializeWebSocket (io : bool) (s : State) : State :=
  if io then set_socket true s
  else log error "Socket.IO not loaded!" s.

(** The [DOMContentLoaded] listener, lines 16-44. *)
Definition domContentLoaded (p : Page) : State :=
  let s := pageState p in
  match findRiderId p with
  | None => log error "Rider ID not found!" s
  | Some r =>
      let s := set_riderId (Some r) s in
      let s := initializeWebSocket (io_loaded p) s in
      let s := loadAvailableOrders s in
      let s := set_handlers true s in
      set_intervals
        (intervals s ++ [{| period_ms := 60000; callback := LoadAvailableOrders |}]) s
  end.

(** ** Observations *)

(** The cards attached to the document, first child first. *)
Definition attached (s : State) : list nat :=
  match container s with
  | Some c => children c
  | None => []
  end.

Definition idsOf (cards : list Card) (hs : list nat) : list string :=
  omap (fun h => card_id <$> cards !! h) hs.

(** The order set: the element ids of the attached cards. *)
Definition orderSet (s : State) : list string := idsOf (store s) (attached s).

(** The order set the rider sees: nothing while the container is hidden. *)
Definition visibleSet (s : State) : list string :=
  match container s with
  | Some {| c_display := block |} => orderSet s
  | _ => []
  end.

Definition messageShown (s : State) : bool :=
  match noOrdersEl s with
  | Some block => true
  | _ => false
  end.

(** ** A page used in the examples *)

Definition demoTemplate : Template :=
  {| tpl_accept_btn := Some {| disabled := false; innerHTML := AcceptLabel |} |}.

Definition demoPage : Page :=
  {| dashboard_rider := Some (Some 7);
     section_rider := None;
     io_loaded := true;
     p_loadingEl := Some none;
     p_noOrdersEl := Some none;
     p_container := Some {| c_display := none; children := [] |};
     p_template := Some demoTemplate;
     p_store := [];
     p_refreshBtn := Some {| disabled := false; innerHTML := RefreshLabel |};
     p_retryBtn := true |}.

Definition order1 : Order := {| id := 1; order_number := None |}.
Definition order2 : Order := {| id := 2; order_number := None |}.
Definition order5 : Order := {| id := 5; order_number := Some "PF-0005" |}.

Definition snapshot (os : list Order) : Json :=
  {| success := true; msg := None; orders := Some os |}.

(** The page once the first snapshot, with orders 1 and 2, has arrived. *)
Definition demoLoaded : State :=
  run (domContentLoaded demoPage) [Settle 0 (Body (snapshot [order1; order2]))].


(** A page that shows order 5 alone. *)
Definition demoFive : State :=
  run (domContentLoaded demoPage) [Settle 0 (Body (snapshot [order5]))].

(** The ids a snapshot leaves in the emptied container: [addOrderCard] puts
    each order before the earlier ones and skips an id that is there
    already. *)
Definition shownIds (os : list Order) : list string :=
  List.fold_left
    (fun acc o => if bool_decide (elemId (id o) ∈ acc) then acc
                  else elemId (id o) :: acc)
    os [].

(** The events whose handler calls [loadAvailableOrders]. *)
Definition startsFetch (e : Event) : bool :=
  match e with
  | Socket Reconnect | Tick _ | ClickRefresh | ClickRetry => true
  | _ => false
  end.

(** The no-orders message is shown exactly when no order is visible. *)
Definition emptyShown (s : State) : Prop :=
  messageShown s = true <-> visibleSet s = [].

(** The accept button of card [h] is disabled. *)
Definition btnDisabled (s : State) (h : nat) : bool :=
  match store s !! h with
  | Some c => match accept_btn c with
              | Some b => disabled b
              | None => false
              end
  | None => false
  end.

(** The event settles an accept request whose handlers hold the button of
    card [h].  [acceptOrder] finds the button through the element id of the
    order, so such a request was sent by a click on that button or by any
    other call of [acceptOrder] for the order of card [h] while the card was
    attached: the accept button of the details modal, lines 266-272. *)
Definition releases (h : nat) (s : State) (e : Event) : bool :=
  match e with
  | Settle k _ =>
      match inflight s !! k with
      | Some (PAccept _ (Some h')) => Nat.eqb h h'
      | _ => false
      end
  | _ => false
  end.

(** No event of the run settles an accept request that holds the button of
    card [h]. *)
Fixpoint held (h : nat) (s : State) (es : list Event) : bool :=
  match es with
  | [] => true
  | e :: rest => negb (releases h s e) && held h (step s e) rest
  end.

(** A failed accept: the request was rejected or its body could not be
    read, or the answer says [success: false]. *)
Definition refused (r : Response) : Prop :=
  match r with
  | Body data => success data = false
  | Rejected => True
  end.

(** The error toast for a refused accept. *)
Definition refusalToast (r : Response) : Toast :=
  match r with
  | Body data =>
      {| title := "Failed";
         message := or_else (msg data) "Could not accept delivery";
         kind := "danger" |}
  | Rejected =>
      {| title := "Error"; message := "Failed to accept delivery";
         kind := "danger" |}
  end.

(** What is fixed once the page is initialised: the rider id, the socket,
    the listeners, the interval timers and the card template. *)
Definition unchanging (s s' : State) : Prop :=
  riderId s' = riderId s /\ socket s' = socket s /\ handlers s' = handlers s /\
  intervals s' = intervals s /\ template s' = template s.

(** ** Well-formed documents *)

(** A card is consistent when its id attribute is the one [addOrderCard]
    gives to the order of its data-order-id. *)
Definition consistent (cards : list Card) (h : nat) : Prop :=
  match cards !! h with
  | Some c => card_id c = elemId (card_order c)
  | None => False
  end.

(** The invariant of the order set: the attached handles are cards, and an
    id appears at most once. *)
Record wf (s : State) : Prop := {
  wf_cards : Forall (consistent (store s)) (attached s);
  wf_ids : NoDup (orderSet s);
}.

(** The elements the reconciliation needs are in the page. *)
Record domReady (s : State) : Prop := {
  ready_container : is_Some (container s);
  ready_template : is_Some (template s);
  ready_message : is_Some (noOrdersEl s);
}.

(** ** Requests and reloads *)

(** The events that call [acceptOrder]. *)
Definition acceptClick (e : Event) : bool :=
  match e with
  | ClickAccept _ _ | ModalAccept _ _ => true
  | _ => false
  end.

Definition isAccept (r : Request) : bool :=
  match r with
  | PostAccept _ => true
  | GetAvailableOrders => false
  end.

Definition isPendingAccept (p : Pending) : bool :=
  match p with
  | PAccept _ _ => true
  | PLoad => false
  end.

Definition isReload (t : Timeout) : bool :=
  match t with
  | ReloadPage => true
  | _ => false
  end.

Definition count {A} (f : A -> bool) (l : list A) : nat :=
  length (List.filter f l).

(** The accept requests sent so far. *)
Definition acceptsSent (s : State) : nat := count isAccept (net s).

(** The reloads that happened or are scheduled, and the accept requests
    that may still schedule one. *)
Definition reloadsDue (s : State) : nat :=
  (reloads s + count isReload (timers s) + count isPendingAccept (inflight s))%nat.

(** What the handlers that only touch the document leave alone. *)
Definition ledger (s : State) : nat * list Timeout * list Pending * list Request :=
  (reloads s, timers s, inflight s, net s).

(** ** The age of an order *)

Section FormatDate.

(** [new Date(dateString).getTime()], in milliseconds; [None] stands for an
    invalid date. *)
Variable parse : string -> option Z.

(** [toLocaleDateString()] and [toLocaleTimeString()] of a date, which
    depend on the locale of the browser. *)
Variable toLocaleDateString : option Z -> string.
Variable toLocaleTimeString : option Z -> string.

(** [formatDate(dateString)], lines 397-412, at the time [now] (in
    milliseconds).  No call in the [try] block throws: an invalid date makes
    every comparison false and is rendered by the locale functions. *)
Definition formatDate (now : Z) (dateString : option string) : string :=
  if truthy dateString then
    let date := from_option parse None dateString in
    match date with
    | Some t =>
        let diffMs := now - t in
        let diffMins := diffMs / 60000 in
        if diffMins <? 1 then "Just now"
        else if diffMins <? 60 then pretty diffMins +:+ " min ago"
        else if diffMins <? 1440 then pretty (diffMins / 60) +:+ " hours ago"
        else toLocaleDateString date +:+ " " +:+ toLocaleTimeString date
    | None => toLocaleDateString date +:+ " " +:+ toLocaleTimeString date
    end
  else "N/A".

End FormatDate.

End AvailableOrders.

(** * The RiderWebSocket class *)

Module RiderWebSocket.

(** Amounts are JSON numbers; only whether a field is a number matters to
    the code ([toFixed] raises a TypeError otherwise), so [None] stands
    for a field that is missing or not a number. *)
Record Item := { quantity : Z; name : string; price : option Z }.

Record Order := {
  id : Z;
  items : option (list Item);
  total_amount : option Z;
}.

(** An element with an accept button: the card built by
    [createOrderElement], or one written in the page. *)
Record OrderEl := {
  el_id : string;             (* the id attribute *)
  el_order : option Z;        (* data-order-id of its .accept-order-btn *)
  el_btn : Button;
}.

(** Children of [available-orders-list]. *)
Inductive Child := OrderElem (h : nat) | NoOrdersAlert.

#[global] Instance Child_eq_dec : EqDecision Child.
Proof. solve_decision. Defined.

Inductive Badge := Unset | Online | Offline.

Inductive IntervalCallback := UpdateRiderLocation.

Record Interval := { period_ms : Z; callback : IntervalCallback }.

Inductive Request :=
| PostAccept (order_id : Z)          (* POST /rider/accept-order/id *)
| GetAvailableOrders                 (* GET /rider/available-orders *)
| PostLocation (lat lng : Z).        (* POST /rider/update-location *)

Inductive Pending :=
| PAccept (button : nat) (originalText : Markup)
| PRefresh.

Record Json := {
  success : bool;
  msg : option string;
  redirect : option string;
  orders : option (list Order);
}.

(** A fetch settles to a response whose body parsed as JSON, or fails with
    an error (network failure, unparsable body) that carries a message. *)
Inductive Response :=
| Answer (ok : bool) (data : Json)
| Failed (reason : string).

Inductive Emit :=
| RiderOnline (rider_id : Z)
| JoinRidersRoom
| UpdateLocation (rider_id lat lng : Z).

Record State := {
  riderId : Z;                     (* document.body.dataset.riderId *)
  connected : bool;                (* socket.connected *)
  geolocation : bool;              (* navigator.geolocation *)
  notifying : bool;                (* Notification.permission is granted *)
  listEl : option (list Child);    (* available-orders-list *)
  store : list OrderEl;
  statusEl : option Badge;         (* connection-status *)
  intervals : list Interval;
  locating : nat;                  (* getCurrentPosition calls not yet answered *)
  inflight : list Pending;
  net : list Request;
  toasts : list Toast;
  notifications : list Z;          (* Notification objects, by order id *)
  console : list (Level * string);
  emitted : list Emit;
  redirects : list string;         (* assignments to window.location.href *)
}.

Definition set_connected (v : bool) (s : State) : State :=
  {| riderId := riderId s; connected := v; geolocation := geolocation s;
     notifying := notifying s; listEl := listEl s; store := store s;
     statusEl := statusEl s; intervals := intervals s; locating := locating s;
     inflight := inflight s; net := net s; toasts := toasts s;
     notifications := notifications s; console := console s;
     emitted := emitted s; redirects := redirects s |}.
Definition set_listEl (v : option (list Child)) (s : State) : State :=
  {| riderId := riderId s; connected := connected s; geolocation := geolocation s;
     notifying := notifying s; listEl := v; store := store s;
     statusEl := statusEl s; intervals := intervals s; locating := locating s;
     inflight := inflight s; net := net s; toasts := toasts s;
     notifications := notifications s; console := console s;
     emitted := emitted s; redirects := redirects s |}.
Definition set_store (v : list OrderEl) (s : State) : State :=
  {| riderId := riderId s; connected := connected s; geolocation := geolocation s;
     notifying := notifying s; listEl := listEl s; store := v;
     statusEl := statusEl s; intervals := intervals s; locating := locating s;
     inflight := inflight s; net := net s; toasts := toasts s;
     notifications := notifications s; console := console s;
     emitted := emitted s; redirects := redirects s |}.
Definition set_statusEl (v : option Badge) (s : State) : State :=
  {| riderId := riderId s; connected := connected s; geolocation := geolocation s;
     notifying := notifying s; listEl := listEl s; store := store s;
     statusEl := v; intervals := intervals s; locating := locating s;
     inflight := inflight s; net := net s; toasts := toasts s;
     notifications := notifications s; console := console s;
     emitted := emitted s; redirects := redirects s |}.
Definition set_intervals (v : list Interval) (s : State) : State :=
  {| riderId := riderId s; connected := connected s; geolocation := geolocation s;
     notifying := notifying s; listEl := listEl s; store := store s;
     statusEl := statusEl s; intervals := v; locating := locating s;
     inflight := inflight s; net := net s; toasts := toasts s;
     notifications := notifications s; console := console s;
     emitted := emitted s; redirects := redirects s |}.
Definition set_locating (v : nat) (s : State) : State :=
  {| riderId := riderId s; connected := connected s; geolocation := geolocation s;
     notifying := notifying s; listEl := listEl s; store := store s;
     statusEl := statusEl s; intervals := intervals s; locating := v;
     inflight := inflight s; net := net s; toasts := toasts s;
     notifications := notifications s; console := console s;
     emitted := emitted s; redirects := redirects s |}.
Definition set_inflight (v : list Pending) (s : State) : State :=
  {| riderId := riderId s; connected := connected s; geolocation := geolocation s;
     notifying := notifying s; listEl := listEl s; store := store s;
     statusEl := statusEl s; intervals := intervals s; locating := locating s;
     inflight := v; net := net s; toasts := toasts s;
     notifications := notifications s; console := console s;
     emitted := emitted s; redirects := redirects s |}.
Definition set_net (v : list Request) (s : State) : State :=
  {| riderId := riderId s; connected := connected s; geolocation := geolocation s;
     notifying := notifying s; listEl := listEl s; store := store s;
     statusEl := statusEl s; intervals := intervals s; locating := locating s;
     inflight := inflight s; net := v; toasts := toasts s;
     notifications := notifications s; console := console s;
     emitted := emitted s; redirects := redirects s |}.
Definition set_toasts (v : list Toast) (s : State) : State :=
  {| riderId := riderId s; connected := connected s; geolocation := geolocation s;
     notifying := notifying s; listEl := listEl s; store := store s;
     statusEl := statusEl s; intervals := intervals s; locating := locating s;
     inflight := inflight s; net := net s; toasts := v;
     notifications := notifications s; console := console s;
     emitted := emitted s; redirects := redirects s |}.
Definition set_notifications (v : list Z) (s : State) : State :=
  {| riderId := riderId s; connected := connected s; geolocation := geolocation s;
     notifying := notifying s; listEl := listEl s; store := store s;
     statusEl := statusEl s; intervals := intervals s; locating := locating s;
     inflight := inflight s; net := net s; toasts := toasts s;
     notifications := v; console := console s;
     emitted := emitted s; redirects := redirects s |}.
Definition set_console (v : list (Level * string)) (s : State) : State :=
  {| riderId := riderId s; connected := connected s; geolocation := geolocation s;
     notifying := notifying s; listEl := listEl s; store := store s;
     statusEl := statusEl s; intervals := intervals s; locating := locating s;
     inflight := inflight s; net := net s; toasts := toasts s;
     notifications := notifications s; console := v;
     emitted := emitted s; redirects := redirects s |}.
Definition set_emitted (v : list Emit) (s : State) : State :=
  {| riderId := riderId s; connected := connected s; geolocation := geolocation s;
     notifying := notifying s; listEl := listEl s; store := store s;
     statusEl := statusEl s; intervals := intervals s; locating := locating s;
     inflight := inflight s; net := net s; toasts := toasts s;
     notifications := notifications s; console := console s;
     emitted := v; redirects := redirects s |}.
Definition set_redirects (v : list string) (s : State) : State :=
  {| riderId := riderId s; connected := connected s; geolocation := geolocation s;
     notifying := notifying s; listEl := listEl s; store := store s;
     statusEl := statusEl s; intervals := intervals s; locating := locating s;
     inflight := inflight s; net := net s; toasts := toasts s;
     notifications := notifications s; console := console s;
     emitted := emitted s; redirects := v |}.

Definition log (lv : Level) (text : string) (s : State) : State :=
  set_console (console s ++ [(lv, text)]) s.

(** [showToast(title, message, type)], lines 231-268. *)
Definition showToast (t m k : string) (s : State) : State :=
  set_toasts (toasts s ++ [{| title := t; message := m; kind := k |}]) s.

(** [updateConnectionStatus(connected)], lines 270-276. *)
Definition updateConnectionStatus (c : bool) (s : State) : State :=
  match statusEl s with
  | Some _ => set_statusEl (Some (if c then Online else Offline)) s
  | None => s
  end.

(** What the [connect] handler emits, lines 27-30; the [reconnect] handler
    emits the same, lines 61-62. *)
Definition subscriptions (rider : Z) : list Emit :=
  [RiderOnline rider; JoinRidersRoom].

Definition onConnect (s : State) : State :=
  updateConnectionStatus true
    (set_emitted (emitted s ++ subscriptions (riderId s)) s).

Definition set_btn (b : Button) (e : OrderEl) : OrderEl :=
  {| el_id := el_id e; el_order := el_order e; el_btn := b |}.

Definition update_btn (f : Button -> Button) (h : nat) (s : State) : State :=
  match store s !! h with
  | Some e => set_store (<[h := set_btn (f (el_btn e)) e]> (store s)) s
  | None => s
  end.

(** [acceptOrder(orderId, button)], lines 97-112: up to the [fetch] call.
    The order id is the button's data-order-id; a missing one is falsy. *)
Definition acceptOrder (orderId : option Z) (button : nat) (s : State) : State :=
  match orderId, store s !! button with
  | Some o, Some e =>
      let originalText := innerHTML (el_btn e) in
      let s := update_btn (disable AcceptingSpinner) button s in
      set_inflight (inflight s ++ [PAccept button originalText])
        (set_net (net s ++ [PostAccept o]) s)
  | _, _ => s
  end.

(** The [catch] block of [acceptOrder], lines 127-132. *)
Definition acceptCaught (errorMessage : string) (button : nat)
    (originalText : Markup) (s : State) : State :=
  let s := log error "Error accepting order:" s in
  let s := showToast "Error" (or_else (Some errorMessage) "Failed to accept order")
             "error" s in
  update_btn (enable originalText) button s.

(** The rest of [acceptOrder] once the fetch settled, lines 114-132. *)
Definition acceptSettled (r : Response) (button : nat) (originalText : Markup)
    (s : State) : State :=
  match r with
  | Answer _ data =>
      if success data then
        let s := showToast "Success" "Order accepted successfully!" "success" s in
        match redirect data with
        | Some url => if String.eqb url "" then s
                      else set_redirects (redirects s ++ [url]) s
        | None => s
        end
      else
        acceptCaught (or_else (msg data) "Failed to accept order")
          button originalText s
  | Failed reason => acceptCaught reason button originalText s
  end.

(** [createOrderElement(order)], lines 173-204: a TypeError is raised when
    [order.items] is not an array, or a price or the total is not a
    number. *)
Definition createOrderElement (order : Order) : option OrderEl :=
  match items order, total_amount order with
  | Some its, Some _ =>
      if forallb (fun it => bool_decide (is_Some (price it))) its then
        Some {| el_id := "order-" +:+ pretty (id order);
                el_order := Some (id order);
                el_btn := {| disabled := false; innerHTML := Literal "Accept Order" |} |}
      else None
  | _, _ => None
  end.

Definition appendChild (e : OrderEl) (s : State) : State :=
  let h := length (store s) in
  set_listEl ((fun l => l ++ [OrderElem h]) <$> listEl s)
    (set_store (store s ++ [e]) s).

(** The [forEach] of [updateOrdersList], lines 167-170. *)
Fixpoint appendOrders (os : list Order) (s : State) : State * Outcome :=
  match os with
  | [] => (s, Returned)
  | o :: rest =>
      match createOrderElement o with
      | Some e => appendOrders rest (appendChild e s)
      | None => (s, Threw)
      end
  end.

(** [updateOrdersList(orders)], lines 152-171. *)
Definition updateOrdersList (os : list Order) (s : State) : State * Outcome :=
  match listEl s with
  | None => (s, Returned)
  | Some _ =>
      match os with
      | [] => (set_listEl (Some [NoOrdersAlert]) s, Returned)
      | _ :: _ => appendOrders os (set_listEl (Some []) s)
      end
  end.

(** [refreshAvailableOrders()], lines 135-141: up to the [fetch] call. *)
Definition refreshAvailableOrders (s : State) : State :=
  set_inflight (inflight s ++ [PRefresh])
    (set_net (net s ++ [GetAvailableOrders]) s).

(** The rest of [refreshAvailableOrders], lines 143-149.  Reading
    [orders.length] of an undefined [data.orders] raises a TypeError, which
    the [catch] block logs like any other error. *)
Definition refreshSettled (r : Response) (s : State) : State :=
  match r with
  | Answer true data =>
      match orders data with
      | Some os =>
          match updateOrdersList os s with
          | (s', Returned) => s'
          | (s', Threw) => log error "Error refreshing orders:" s'
          end
      | None =>
          match listEl s with
          | Some _ => log error "Error refreshing orders:" s
          | None => s
          end
      end
  | Answer false _ => s
  | Failed _ => log error "Error refreshing orders:" s
  end.

(** [removeOrderFromList(orderId)], lines 206-211. *)
Definition removeOrderFromList (orderId : Z) (s : State) : State :=
  let eid := "order-" +:+ pretty orderId in
  let is_it (c : Child) : bool :=
    match c with
    | OrderElem h => match store s !! h with
                     | Some e => String.eqb (el_id e) eid
                     | None => false
                     end
    | NoOrdersAlert => false
    end in
  match listEl s with
  | Some l =>
      match List.find is_it l with
      | Some c => set_listEl (Some (filter (fun c' => c' <> c) l)) s
      | None => s
      end
  | None => s
  end.

Record NewDelivery := { n_id : Z; n_total_amount : option Z }.

(** [showNewOrderNotification(order)], lines 213-229: the TypeError of
    [toFixed] on a missing total leaves the function before anything is
    shown.  The text of the toast is kept up to the order id; the amount
    that follows it is not rendered. *)
Definition showNewOrderNotification (d : NewDelivery) (s : State) : State * Outcome :=
  match n_total_amount d with
  | Some _ =>
      let s := if notifying s
               then set_notifications (notifications s ++ [n_id d]) s else s in
      (showToast "New Delivery Available"
         ("Order #" +:+ pretty (n_id d)) "info" s, Returned)
  | None => (s, Threw)
  end.

Inductive SocketEvent :=
| Connect
| NewDeliveryAvailable (data : NewDelivery)
| OrderTaken (order_id : option Z)
| Disconnect
| Reconnect
| ConnectError.

(** The handlers bound in [initializeWebSocket], lines 23-70.  [connected]
    follows the transport. *)
Definition onSocket (ev : SocketEvent) (s : State) : State :=
  match ev with
  | Connect => onConnect (set_connected true s)
  | NewDeliveryAvailable d =>
      match showNewOrderNotification d s with
      | (s', Returned) => refreshAvailableOrders s'
      | (s', Threw) => s'
      end
  | OrderTaken (Some o) =>
      if Z.eqb o 0 then s
      else showToast "Order taken" "This order was accepted by another rider."
             "info" (removeOrderFromList o s)
  | OrderTaken None => s
  | Disconnect => updateConnectionStatus false (set_connected false s)
  | Reconnect => onConnect s
  | ConnectError =>
      updateConnectionStatus false (log error "WebSocket connection error:" s)
  end.

(** [updateRiderLocation()], lines 278-316, and its two callbacks. *)
Definition updateRiderLocation (s : State) : State :=
  if geolocation s then set_locating (S (locating s)) s else s.

Definition positionFound (lat lng : Z) (s : State) : State :=
  let s := set_net (net s ++ [PostLocation lat lng]) s in
  if connected s
  then set_emitted (emitted s ++ [UpdateLocation (riderId s) lat lng]) s
  else s.

Definition positionFailed (s : State) : State :=
  log error "Error getting location:" s.

Inductive Event :=
| Socket (ev : SocketEvent)
| ClickAccept (h : nat)            (* click on the accept button of element h *)
| BecameVisible                    (* visibilitychange to visible *)
| Tick (k : nat)                   (* the k-th interval timer fires *)
| Settle (k : nat) (r : Response)  (* the k-th pending fetch settles *)
| Position (fix_ : option (Z * Z)). (* a getCurrentPosition call is answered *)

Definition attached (s : State) (h : nat) : bool :=
  match listEl s with
  | Some l => bool_decide (OrderElem h ∈ l)
  | None => false
  end.

Definition settle (p : Pending) (r : Response) (s : State) : State :=
  match p with
  | PAccept button originalText => acceptSettled r button originalText s
  | PRefresh => refreshSettled r s
  end.

(** The browser delivers no click to a disabled button; the document
    listener of lines 75-82 passes the button's data-order-id on. *)
Definition step (s : State) (e : Event) : State :=
  match e with
  | Socket ev => onSocket ev s
  | ClickAccept h =>
      match store s !! h with
      | Some el => if attached s h && negb (disabled (el_btn el))
                   then acceptOrder (el_order el) h s else s
      | None => s
      end
  | BecameVisible => refreshAvailableOrders s
  | Tick k =>
      match intervals s !! k with
      | Some {| callback := UpdateRiderLocation |} => updateRiderLocation s
      | None => s
      end
  | Settle k r =>
      match inflight s !! k with
      | Some p => settle p r (set_inflight (delete k (inflight s)) s)
      | None => s
      end
  | Position p =>
      match locating s with
      | O => s
      | S n =>
          let s := set_locating n s in
          match p with
          | Some (lat, lng) => positionFound lat lng s
          | None => positionFailed s
          end
      end
  end.

Definition run (s : State) (es : list Event) : State :=
  List.fold_left step es s.


(** The element ids of the order elements in the list, first child
    first. *)
Definition orderList (s : State) : list string :=
  match listEl s with
  | Some l =>
      omap (fun c => match c with
                     | OrderElem h => el_id <$> store s !! h
                     | NoOrdersAlert => None
                     end) l
  | None => []
  end.




(** ** Observations and examples *)

(** The accept button of element [h] is disabled. *)
Definition btnDisabled (s : State) (h : nat) : bool :=
  match store s !! h with
  | Some e => disabled (el_btn e)
  | None => false
  end.

(** The event settles an accept request that was issued from button [h]. *)
Definition releases (h : nat) (s : State) (e : Event) : bool :=
  match e with
  | Settle k _ =>
      match inflight s !! k with
      | Some (PAccept h' _) => Nat.eqb h h'
      | _ => false
      end
  | _ => false
  end.

Fixpoint held (h : nat) (s : State) (es : list Event) : bool :=
  match es with
  | [] => true
  | e :: rest => negb (releases h s e) && held h (step s e) rest
  end.

(** [createOrderElement] returns for this order. *)
Definition renderable (o : Order) : Prop := is_Some (createOrderElement o).

(** A failed accept: the request was rejected or could not be sent, or the
    answer says [success: false]. *)
Definition refused (r : Response) : Prop :=
  match r with
  | Answer _ data => success data = false
  | Failed _ => True
  end.

(** The message of the error toast for a refused accept. *)
Definition refusalText (r : Response) : string :=
  match r with
  | Answer _ data => or_else (msg data) "Failed to accept order"
  | Failed reason => or_else (Some reason) "Failed to accept order"
  end.

(** A dashboard that lists order 5, written in the page, and has lost its
    connection. *)
Definition demo : State :=
  {| riderId := 7; connected := false; geolocation := true; notifying := false;
     listEl := Some [OrderElem 0];
     store := [{| el_id := "order-5"; el_order := Some 5;
                  el_btn := {| disabled := false;
                               innerHTML := Literal "Accept Order" |} |}];
     statusEl := Some Offline;
     intervals := [{| period_ms := 30000; callback := UpdateRiderLocation |}];
     locating := 0; inflight := []; net := []; toasts := [];
     notifications := []; console := []; emitted := []; redirects := [] |}.

(** The same page without the [available-orders-list] element. *)
Definition demoNoList : State := set_listEl None demo.

Definition order5 : Order :=
  {| id := 5;
     items := Some [{| quantity := 1; name := "Kibble"; price := Some 1250 |}];
     total_amount := Some 1250 |}.


End RiderWebSocket.

(** * The SellerWebSocket class

    Modelled: the connection handlers, [order_status_updated], and the status
    buttons with [updateOrderStatus].  The order list with its pagination,
    the refresh of one card after [order_accepted] and the map are not. *)

Module SellerWebSocket.

(** A status button written by [getStatusButtons]. *)
Record StatusButton := {
  sb_order : option Z;        (* data-order-id *)
  sb_status : option string;  (* data-status *)
  sb_class : string;
  sb_action : string;
  sb_btn : Button;
}.

Record StatusBadge := { b_class : string; b_text : option string }.

(** An order card of the list. *)
Record Card := {
  sc_id : string;                (* the id attribute *)
  sc_badge : option StatusBadge; (* its .badge *)
  sc_actions : option (list nat);(* the status buttons in its .text-end *)
}.

Inductive Badge := Unset | Online | Offline.

Inductive Request := PostStatus (order_id : Z) (status : string).

Inductive Pending :=
| PStatus (orderId : Z) (status : string) (button : nat) (originalHtml : Markup).

Record Json := {
  success : bool;
  msg : option string;
  status : option string;
  status_display : option string;
}.

Inductive Response :=
| Answer (ok : bool) (data : Json)
| Failed (reason : string).

Inductive Emit := JoinSellerRoom (seller_id : Z).

Record State := {
  sellerId : Z;
  statusEl : option Badge;     (* connection-status *)
  cards : list Card;           (* the order cards of the document *)
  btns : list StatusButton;    (* every status button, by handle *)
  inflight : list Pending;
  net : list Request;
  toasts : list Toast;
  console : list (Level * string);
  emitted : list Emit;
}.

Definition set_statusEl (v : option Badge) (s : State) : State :=
  {| sellerId := sellerId s; statusEl := v; cards := cards s; btns := btns s;
     inflight := inflight s; net := net s; toasts := toasts s;
     console := console s; emitted := emitted s |}.
Definition set_cards (v : list Card) (s : State) : State :=
  {| sellerId := sellerId s; statusEl := statusEl s; cards := v; btns := btns s;
     inflight := inflight s; net := net s; toasts := toasts s;
     console := console s; emitted := emitted s |}.
Definition set_btns (v : list StatusButton) (s : State) : State :=
  {| sellerId := sellerId s; statusEl := statusEl s; cards := cards s; btns := v;
     inflight := inflight s; net := net s; toasts := toasts s;
     console := console s; emitted := emitted s |}.
Definition set_inflight (v : list Pending) (s : State) : State :=
  {| sellerId := sellerId s; statusEl := statusEl s; cards := cards s;
     btns := btns s; inflight := v; net := net s; toasts := toasts s;
     console := console s; emitted := emitted s |}.
Definition set_net (v : list Request) (s : State) : State :=
  {| sellerId := sellerId s; statusEl := statusEl s; cards := cards s;
     btns := btns s; inflight := inflight s; net := v; toasts := toasts s;
     console := console s; emitted := emitted s |}.
Definition set_toasts (v : list Toast) (s : State) : State :=
  {| sellerId := sellerId s; statusEl := statusEl s; cards := cards s;
     btns := btns s; inflight := inflight s; net := net s; toasts := v;
     console := console s; emitted := emitted s |}.
Definition set_console (v : list (Level * string)) (s : State) : State :=
  {| sellerId := sellerId s; statusEl := statusEl s; cards := cards s;
     btns := btns s; inflight := inflight s; net := net s; toasts := toasts s;
     console := v; emitted := emitted s |}.
Definition set_emitted (v : list Emit) (s : State) : State :=
  {| sellerId := sellerId s; statusEl := statusEl s; cards := cards s;
     btns := btns s; inflight := inflight s; net := net s; toasts := toasts s;
     console := console s; emitted := v |}.

Definition log (lv : Level) (text : string) (s : State) : State :=
  set_console (console s ++ [(lv, text)]) s.

(** [showToast(title, message, type)], lines 476-512. *)
Definition showToast (t m k : string) (s : State) : State :=
  set_toasts (toasts s ++ [{| title := t; message := m; kind := k |}]) s.

(** [updateConnectionStatus(connected)], lines 514-520. *)
Definition updateConnectionStatus (c : bool) (s : State) : State :=
  match statusEl s with
  | Some _ => set_statusEl (Some (if c then Online else Offline)) s
  | None => s
  end.

(** What the [connect] handler emits, line 28; the [reconnect] handler emits
    the same, line 66. *)
Definition subscriptions (seller : Z) : list Emit := [JoinSellerRoom seller].

Definition onConnect (s : State) : State :=
  updateConnectionStatus true
    (set_emitted (emitted s ++ subscriptions (sellerId s)) s).

(** [getStatusBadgeClass(status)], lines 243-253. *)
Definition getStatusBadgeClass (st : option string) : string :=
  match st with
  | Some "pending" => "bg-secondary"
  | Some "confirmed" => "bg-info"
  | Some "shipped" => "bg-primary"
  | Some "out_for_delivery" => "bg-warning"
  | Some "delivered" => "bg-success"
  | Some "cancelled" => "bg-danger"
  | _ => "bg-secondary"
  end.

(** The two tables of [getStatusButtons], lines 256-268. *)
Definition statusOptions (st : option string) : list string :=
  match st with
  | Some "pending" => ["Confirm"; "Cancel"]
  | Some "confirmed" => ["Mark as Shipped"; "Cancel"]
  | Some "shipped" => ["Mark as Delivered"]
  | Some "out_for_delivery" => ["Mark as Delivered"]
  | _ => []
  end.

Definition statusMap (action : string) : option string :=
  match action with
  | "Confirm" => Some "confirmed"
  | "Cancel" => Some "cancelled"
  | "Mark as Shipped" => Some "shipped"
  | "Mark as Delivered" => Some "delivered"
  | _ => None
  end.

(** [getStatusButtons(currentStatus, orderId)], lines 255-288. *)
Definition getStatusButtons (currentStatus : option string) (orderId : Z)
    : list StatusButton :=
  List.map
    (fun action =>
       {| sb_order := Some orderId;
          sb_status := statusMap action;
          sb_class := if String.eqb action "Cancel" then "btn-danger" else "btn-primary";
          sb_action := action;
          sb_btn := {| disabled := false; innerHTML := Literal action |} |})
    (statusOptions currentStatus).

Definition set_badge (b : option StatusBadge) (c : Card) : Card :=
  {| sc_id := sc_id c; sc_badge := b; sc_actions := sc_actions c |}.

Definition set_actions (a : option (list nat)) (c : Card) : Card :=
  {| sc_id := sc_id c; sc_badge := sc_badge c; sc_actions := a |}.

(** Update of the first card that satisfies [p]. *)
Fixpoint update_first (p : Card -> bool) (f : Card -> Card) (l : list Card)
    : list Card :=
  match l with
  | [] => []
  | c :: rest => if p c then f c :: rest else c :: update_first p f rest
  end.

(** [statusDisplay || status]. *)
Definition displayed (statusDisplay st : option string) : option string :=
  if truthy statusDisplay then statusDisplay else st.

(** [updateOrderStatusUI(orderId, status, statusDisplay)], lines 290-308:
    the badge of the card, then its buttons, which are written anew. *)
Definition updateOrderStatusUI (orderId : Z) (st statusDisplay : option string)
    (s : State) : State :=
  let eid := "order-" +:+ pretty orderId in
  let s :=
    set_cards
      (update_first
         (fun c => String.eqb (sc_id c) eid && bool_decide (is_Some (sc_badge c)))
         (set_badge (Some {| b_class := "badge " +:+ getStatusBadgeClass st;
                             b_text := displayed statusDisplay st |}))
         (cards s)) s in
  let has_actions (c : Card) :=
    String.eqb (sc_id c) eid && bool_decide (is_Some (sc_actions c)) in
  if existsb has_actions (cards s) then
    let fresh := getStatusButtons st orderId in
    let handles := seq (length (btns s)) (length fresh) in
    set_cards (update_first has_actions (set_actions (Some handles)) (cards s))
      (set_btns (btns s ++ fresh) s)
  else s.

Definition set_btn (b : Button) (e : StatusButton) : StatusButton :=
  {| sb_order := sb_order e; sb_status := sb_status e; sb_class := sb_class e;
     sb_action := sb_action e; sb_btn := b |}.

Definition update_btn (f : Button -> Button) (h : nat) (s : State) : State :=
  match btns s !! h with
  | Some e => set_btns (<[h := set_btn (f (sb_btn e)) e]> (btns s)) s
  | None => s
  end.

(** [updateOrderStatus(orderId, status, button)], lines 115-133: up to the
    [fetch] call.  A missing order id or an empty status is falsy. *)
Definition updateOrderStatus (orderId : option Z) (st : option string)
    (button : nat) (s : State) : State :=
  match orderId, st, btns s !! button with
  | Some o, Some new, Some e =>
      if String.eqb new "" then s
      else
        let originalHtml := innerHTML (sb_btn e) in
        let s := update_btn (disable BareSpinner) button s in
        set_inflight (inflight s ++ [PStatus o new button originalHtml])
          (set_net (net s ++ [PostStatus o new]) s)
  | _, _, _ => s
  end.

(** The [catch] block of [updateOrderStatus], lines 154-156. *)
Definition statusCaught (errorMessage : string) (s : State) : State :=
  let s := log error "Error updating order status:" s in
  showToast "Error" (or_else (Some errorMessage) "Failed to update order status")
    "error" s.

(** The rest of [updateOrderStatus] once the fetch settled, lines 135-162;
    the [finally] block runs last on every path. *)
Definition statusSettled (r : Response) (orderId : Z) (new : string)
    (button : nat) (originalHtml : Markup) (s : State) : State :=
  let s :=
    match r with
    | Answer true data =>
        let s := showToast "Success" (or_else (msg data) "Order status updated")
                   "success" s in
        let s := updateOrderStatusUI orderId (status data) (status_display data) s in
        if String.eqb new "shipped"
        then showToast "Order Shipped"
               "Riders have been notified about this delivery" "info" s
        else s
    | Answer false data =>
        statusCaught (or_else (msg data) "Failed to update status") s
    | Failed reason => statusCaught reason s
    end in
  update_btn (enable originalHtml) button s.

Record StatusUpdated := {
  u_order_id : Z;
  u_status : option string;
  u_status_display : option string;
}.

Inductive SocketEvent :=
| Connect
| OrderStatusUpdated (data : StatusUpdated)
| Disconnect
| Reconnect.

(** The handlers bound in [initializeWebSocket], lines 24-68. *)
Definition onSocket (ev : SocketEvent) (s : State) : State :=
  match ev with
  | Connect => onConnect s
  | OrderStatusUpdated d =>
      updateOrderStatusUI (u_order_id d) (u_status d) (u_status_display d) s
  | Disconnect => updateConnectionStatus false s
  | Reconnect => onConnect s
  end.

Inductive Event :=
| Socket (ev : SocketEvent)
| ClickStatus (h : nat)            (* click on status button h *)
| Settle (k : nat) (r : Response).

Definition attached (s : State) (h : nat) : bool :=
  existsb (fun c => match sc_actions c with
                    | Some hs => bool_decide (h ∈ hs)
                    | None => false
                    end) (cards s).

(** The document listener of lines 73-80; the browser delivers no click to
    a disabled button. *)
Definition step (s : State) (e : Event) : State :=
  match e with
  | Socket ev => onSocket ev s
  | ClickStatus h =>
      match btns s !! h with
      | Some b => if attached s h && negb (disabled (sb_btn b))
                  then updateOrderStatus (sb_order b) (sb_status b) h s else s
      | None => s
      end
  | Settle k r =>
      match inflight s !! k with
      | Some (PStatus o new button originalHtml) =>
          statusSettled r o new button originalHtml
            (set_inflight (delete k (inflight s)) s)
      | None => s
      end
  end.

Definition run (s : State) (es : list Event) : State :=
  List.fold_left step es s.

(** ** Observations and examples *)

(** The request failed: it could not be sent, or the response is not OK. *)
Definition refused (r : Response) : Prop :=
  match r with
  | Answer ok _ => ok = false
  | Failed _ => True
  end.

(** The message of the error toast for a refused status change. *)
Definition refusalText (r : Response) : string :=
  match r with
  | Answer _ data => or_else (msg data) "Failed to update status"
  | Failed reason => or_else (Some reason) "Failed to update order status"
  end.

(** A seller page that lists the pending order 5. *)
Definition demo : State :=
  {| sellerId := 3; statusEl := Some Online;
     cards := [{| sc_id := "order-5";
                  sc_badge := Some {| b_class := "badge bg-secondary";
                                      b_text := Some "Pending" |};
                  sc_actions := Some [0; 1]%nat |}];
     btns := getStatusButtons (Some "pending") 5;
     inflight := []; net := []; toasts := []; console := []; emitted := [] |}.

(** An OK response whose body says that the change was rejected. *)
Definition rejectedInBody : Response :=
  Answer true {| success := false; msg := Some "Order cannot be confirmed";
                 status := None; status_display := None |}.

(** ** Pagination *)

(** The fields of the orders response that [updatePagination] reads. *)
Record PageData := { pages : Z; has_prev : bool; has_next : bool }.

Inductive LinkKind := Previous | Numbered | Next.

(** A [.page-link] with its data-page attribute and the classes of its
    list item. *)
Record PageLink := {
  pl_kind : LinkKind;
  pl_page : Z;
  pl_disabled : bool;
  pl_active : bool;
}.

(** The page numbers of the loop of lines 443-451. *)
Definition pageWindow (data : PageData) (currentPage : Z) : list Z :=
  let startPage := Z.max 1 (currentPage - 2) in
  let endPage := Z.min (pages data) (startPage + 4) in
  seqZ startPage (endPage - startPage + 1).

(** [updatePagination(data, status, currentPage)], lines 424-461: the links
    written into the pagination element. *)
Definition updatePagination (data : PageData) (currentPage : Z) : list PageLink :=
  if negb (has_prev data) && negb (has_next data) then []
  else
    [{| pl_kind := Previous; pl_page := currentPage - 1;
        pl_disabled := negb (has_prev data); pl_active := false |}]
    ++ List.map (fun i => {| pl_kind := Numbered; pl_page := i;
                             pl_disabled := false;
                             pl_active := Z.eqb i currentPage |})
         (pageWindow data currentPage)
    ++ [{| pl_kind := Next; pl_page := currentPage + 1;
           pl_disabled := negb (has_next data); pl_active := false |}].

(** The click listener of a link, lines 464-473: the page it passes to
    [loadOrders], if any. *)
Definition pageClicked (data : PageData) (l : PageLink) : option Z :=
  if (1 <=? pl_page l) && (pl_page l <=? pages data)
  then Some (pl_page l) else None.

End SellerWebSocket.

(** * static/js/rider_dashboard.js *)

Module RiderDashboard.

Record Order := {
  order_id : Z;
  order_number : option string;
}.

(** A card of the available orders, cloned from [orderCardTemplate]; the
    template is taken to hold the [.card] root and the text slots that the
    function fills unconditionally. *)
Record Card := {
  data_order_id : Z;
  number_text : string;   (* text of .order-number *)
}.

Record State := {
  container : option (list nat);     (* availableOrdersContainer and its cards *)
  noOrdersMessage : option Display;  (* noOrdersMessage *)
  template : bool;                   (* orderCardTemplate exists *)
  store : list Card;
  notifications : list (string * string);
  console : list (Level * string);
}.

Definition log (lv : Level) (text : string) (s : State) : State :=
  {| container := container s; noOrdersMessage := noOrdersMessage s;
     template := template s; store := store s;
     notifications := notifications s;
     console := console s ++ [(lv, text)] |}.

(** [showNotification(message, type)], lines 229-335. *)
Definition showNotification (m k : string) (s : State) : State :=
  {| container := container s; noOrdersMessage := noOrdersMessage s;
     template := template s; store := store s;
     notifications := notifications s ++ [(m, k)];
     console := console s |}.

Definition hideNoOrders (s : State) : State :=
  {| container := container s;
     noOrdersMessage := match noOrdersMessage s with
                        | Some _ => Some none
                        | None => None
                        end;
     template := template s; store := store s;
     notifications := notifications s; console := console s |}.

Definition set_cards (l : list nat) (cs : list Card) (s : State) : State :=
  {| container := Some l; noOrdersMessage := noOrdersMessage s;
     template := template s; store := cs;
     notifications := notifications s; console := console s |}.

Section Helper.

(** [updateExistingOrder(existingOrder, order)] is called at line 372 and
    defined nowhere in the sources: it is a parameter, taken to rewrite the
    card it is given. *)
Variable updateExistingOrder : Card -> Order -> Card.

(** [addOrderToAvailableOrders(order)], lines 353-456.  The selector finds
    the first card that carries the data-order-id.  Lines 446-455 read
    [modal], [content] and [deliveryId], which nothing in the function or
    the file binds: once the card is inserted and the notification shown,
    the evaluation of [modal] raises a ReferenceError. *)
Definition addOrderToAvailableOrders (order : Order) (s : State) : State * Outcome :=
  match container s with
  | None => (log error "Available orders container not found" s, Returned)
  | Some l =>
      let s := hideNoOrders s in
      let found :=
        List.find (fun h => match store s !! h with
                            | Some c => Z.eqb (data_order_id c) (order_id order)
                            | None => false
                            end) l in
      match found with
      | Some h =>
          match store s !! h with
          | Some c =>
              (set_cards l (<[h := updateExistingOrder c order]> (store s)) s,
               Returned)
          | None => (s, Returned)
          end
      | None =>
          if template s then
            let card :=
              {| data_order_id := order_id order;
                 number_text := or_else (order_number order)
                                        (pretty (order_id order)) |} in
            let h := length (store s) in
            let s := set_cards (h :: l) (store s ++ [card]) s in
            let s := showNotification
                       ("New order #" +:+
                        or_else (order_number order) (pretty (order_id order))
                        +:+ " is available for delivery!") "success" s in
            (s, Threw)
          else (log error "Order card template not found" s, Returned)
      end
  end.

End Helper.

(** The data-order-id of the attached cards, first child first. *)
Definition orderSet (s : State) : list Z :=
  match container s with
  | Some l => omap (fun h => data_order_id <$> store s !! h) l
  | None => []
  end.

(** A dashboard that shows order 5, and the same page without its card
    template. *)
Definition demo : State :=
  {| container := Some [0%nat]; noOrdersMessage := Some none; template := true;
     store := [{| data_order_id := 5; number_text := "PF-0005" |}];
     notifications := []; console := [] |}.

Definition demoNoTemplate : State :=
  {| container := Some []; noOrdersMessage := Some block; template := false;
     store := []; notifications := []; console := [] |}.

Definition order5 : Order := {| order_id := 5; order_number := Some "PF-0005" |}.

End RiderDashboard.

(** * Pending callbacks *)

(** The callback registered last is at the end of the list. *)
Lemma lookup_last {A} (l : list A) (x : A) : (l ++ [x]) !! length l = Some x.
Proof. by rewrite lookup_app_r, Nat.sub_diag by lia. Qed.

Lemma delete_last {A} (l : list A) (x : A) : delete (length l) (l ++ [x]) = l.
Proof.
  induction l as [|a l IH]; [done|]. simpl. by rewrite IH.
Qed.

(** * Facts about rider_available_orders.js *)

Module AvailableOrdersFacts.
Import AvailableOrders.

(** ** Lookup of cards *)

Lemma has_id_true cards eid h :
  has_id cards eid h = true <-> exists c, cards !! h = Some c /\ card_id c = eid.
Proof.
  unfold has_id. destruct (cards !! h) as [c|]; split.
  - intros H%String.eqb_eq. eauto.
  - intros (c' & [= <-] & <-). apply String.eqb_refl.
  - discriminate.
  - intros (c' & [=] & _).
Qed.

Lemma elem_of_idsOf cards hs eid :
  eid ∈ idsOf cards hs <->
  exists h c, h ∈ hs /\ cards !! h = Some c /\ card_id c = eid.
Proof.
  unfold idsOf. rewrite list_elem_of_omap. split.
  - intros (h & Hin & Hl). destruct (cards !! h) as [c|] eqn:E; simplify_eq/=.
    eauto 10.
  - intros (h & c & Hin & Hl & <-). exists h. rewrite Hl. auto.
Qed.

Lemma find_has_id_Some cards eid hs h :
  List.find (has_id cards eid) hs = Some h ->
  h ∈ hs /\ exists c, cards !! h = Some c /\ card_id c = eid.
Proof.
  intros [Hin Hp]%find_some. split.
  - by apply list_elem_of_In.
  - by apply has_id_true.
Qed.

Lemma find_has_id_None cards eid hs :
  List.find (has_id cards eid) hs = None <-> eid ∉ idsOf cards hs.
Proof.
  rewrite elem_of_idsOf. split.
  - intros Hnone (h & c & Hin & Hl & Hid).
    apply list_elem_of_In in Hin.
    pose proof (find_none _ _ Hnone _ Hin) as Hf.
    assert (has_id cards eid h = true) by (apply has_id_true; eauto).
    congruence.
  - intros Hno. destruct (List.find _ hs) as [h|] eqn:E; [|done].
    apply find_has_id_Some in E as (Hin & c & Hl & Hid).
    exfalso. apply Hno. eauto 10.
Qed.

Lemma getCard_Some s eid h :
  getCard s eid = Some h ->
  h ∈ attached s /\ exists c, store s !! h = Some c /\ card_id c = eid.
Proof.
  unfold getCard, attached. destruct (container s); [|done].
  apply find_has_id_Some.
Qed.

Lemma getCard_None s eid : getCard s eid = None <-> eid ∉ orderSet s.
Proof.
  unfold getCard, orderSet, attached. destruct (container s) as [c|].
  - apply find_has_id_None.
  - split; [intros _; apply not_elem_of_nil | done].
Qed.

Lemma getCard_present s eid : eid ∈ orderSet s -> is_Some (getCard s eid).
Proof.
  intros Hin. destruct (getCard s eid) eqn:E; [eauto|].
  by apply getCard_None in E.
Qed.

(** ** The store under growth and update *)

Lemma consistent_lt cards h : consistent cards h -> (h < length cards)%nat.
Proof.
  unfold consistent. destruct (cards !! h) eqn:E; [|done].
  intros _. by eapply lookup_lt_Some.
Qed.

Lemma idsOf_app cards c hs :
  Forall (consistent cards) hs -> idsOf (cards ++ [c]) hs = idsOf cards hs.
Proof.
  induction 1 as [|h hs Hh _ IH]; [done|].
  unfold idsOf in *. cbn [omap list_omap]. rewrite IH.
  by rewrite lookup_app_l by by apply consistent_lt.
Qed.

Lemma consistent_app cards c h : consistent cards h -> consistent (cards ++ [c]) h.
Proof.
  intros H. unfold consistent in *.
  by rewrite lookup_app_l by by apply consistent_lt.
Qed.

Lemma lookup_update_card f h cards k :
  update_card f h cards !! k =
  if decide (h = k) then f <$> cards !! k else cards !! k.
Proof.
  unfold update_card. destruct (cards !! h) as [c|] eqn:E.
  - case_decide as Hk.
    + subst. rewrite list_lookup_insert_eq by by eapply lookup_lt_Some.
      by rewrite E.
    + by rewrite list_lookup_insert_ne.
  - case_decide; [subst; by rewrite E|done].
Qed.

Lemma idsOf_update_card f h cards hs :
  (forall c, card_id (f c) = card_id c) ->
  idsOf (update_card f h cards) hs = idsOf cards hs.
Proof.
  intros Hf. induction hs as [|k hs IH]; [done|].
  unfold idsOf in *. cbn [omap list_omap]. rewrite IH, lookup_update_card.
  case_decide; [|done].
  destruct (cards !! k); simpl; [by rewrite Hf|done].
Qed.

Lemma consistent_update_card f h cards k :
  (forall c, card_id (f c) = card_id c) ->
  (forall c, card_order (f c) = card_order c) ->
  consistent cards k -> consistent (update_card f h cards) k.
Proof.
  intros Hid Hord. unfold consistent. rewrite lookup_update_card.
  case_decide; [|done]. destruct (cards !! k); simpl; [|done].
  by rewrite Hid, Hord.
Qed.

(** ** The invariant is kept *)

Lemma wf_ext s s' :
  store s' = store s -> attached s' = attached s -> wf s -> wf s'.
Proof.
  intros Hs Ha [H1 H2]. split; unfold orderSet in *; by rewrite Hs, Ha.
Qed.

Lemma wf_update_card f h s :
  (forall c, card_id (f c) = card_id c) ->
  (forall c, card_order (f c) = card_order c) ->
  wf s -> wf (set_store (update_card f h (store s)) s).
Proof.
  intros Hid Hord [H1 H2]. split.
  - eapply Forall_impl; [exact H1|]. intros k. simpl.
    by apply consistent_update_card.
  - unfold orderSet in *. simpl. by rewrite idsOf_update_card.
Qed.

Lemma wf_no_cards s : attached s = [] -> wf s.
Proof.
  intros H. split; unfold orderSet; rewrite H; [constructor|apply NoDup_nil_2].
Qed.

Lemma elem_of_idsOf_filter cards (P : nat -> Prop) `{forall k, Decision (P k)} hs eid :
  eid ∈ idsOf cards (filter P hs) -> eid ∈ idsOf cards hs.
Proof.
  rewrite !elem_of_idsOf. intros (h & c & Hin & Hl).
  apply list_elem_of_filter in Hin as [_ Hin]. eauto.
Qed.

Lemma NoDup_idsOf_filter cards (P : nat -> Prop) `{forall k, Decision (P k)} hs :
  NoDup (idsOf cards hs) -> NoDup (idsOf cards (filter P hs)).
Proof.
  induction hs as [|k hs IH]; [done|].
  rewrite filter_cons. unfold idsOf in *. cbn [omap list_omap].
  destruct (decide (P k)).
  - cbn [omap list_omap]. destruct (cards !! k) as [c|]; simpl; [|exact IH].
    rewrite !NoDup_cons. intros [Hn Hd]. split; [|by apply IH].
    intros Hin. apply Hn. by eapply elem_of_idsOf_filter.
  - destruct (cards !! k) as [c|]; simpl; [|exact IH].
    rewrite NoDup_cons. intros [_ Hd]. by apply IH.
Qed.

Lemma addOrderCard_present o s :
  elemId (id o) ∈ orderSet s ->
  store (addOrderCard o s) = store s /\
  container (addOrderCard o s) = container s.
Proof.
  intros [h Hh]%getCard_present. unfold addOrderCard.
  destruct (container s) eqn:Hc, (template s) eqn:Ht; rewrite ?Hh; simpl;
    rewrite ?Hc; done.
Qed.

Lemma addOrderCard_fresh o s c t :
  container s = Some c -> template s = Some t ->
  elemId (id o) ∉ orderSet s ->
  addOrderCard o s =
  set_container (Some (set_children (length (store s) :: children c) c))
    (set_store
       (store s ++ [{| card_id := elemId (id o); card_order := id o;
                       card_number := or_else (order_number o)
                                        ("ORD-" +:+ pretty (id o));
                       fading := false; accept_btn := tpl_accept_btn t |}]) s).
Proof.
  intros Hc Ht Hno%getCard_None. unfold addOrderCard. by rewrite Hc, Ht, Hno.
Qed.

Lemma idsOf_new cards c hs :
  Forall (consistent cards) hs ->
  idsOf (cards ++ [c]) (length cards :: hs) = card_id c :: idsOf cards hs.
Proof.
  intros H. unfold idsOf. cbn [omap list_omap].
  rewrite lookup_app_r, Nat.sub_diag by lia. simpl.
  f_equal. by apply idsOf_app.
Qed.

Lemma orderSet_addOrderCard_fresh o s :
  is_Some (container s) -> is_Some (template s) ->
  Forall (consistent (store s)) (attached s) ->
  elemId (id o) ∉ orderSet s ->
  orderSet (addOrderCard o s) = elemId (id o) :: orderSet s.
Proof.
  intros [c Hc] [t Ht] Hwf Hno.
  rewrite (addOrderCard_fresh o s c t) by done.
  unfold orderSet, attached in *. rewrite Hc in *.
  cbn [store container set_container set_store children set_children].
  by rewrite idsOf_new.
Qed.

Lemma addOrderCard_missing o s :
  container s = None \/ template s = None ->
  addOrderCard o s = log error "Container or template not found!" s.
Proof.
  unfold addOrderCard. intros [H|H]; rewrite H; [done|].
  by destruct (container s).
Qed.

Lemma addOrderCard_wf o s : wf s -> wf (addOrderCard o s).
Proof.
  intros Hwf.
  destruct (decide (elemId (id o) ∈ orderSet s)) as [Hin|Hno].
  { destruct (addOrderCard_present o s Hin) as [Hs Hc].
    eapply wf_ext; [exact Hs| |exact Hwf]. unfold attached. by rewrite Hc. }
  destruct (container s) as [c|] eqn:Hc, (template s) as [t|] eqn:Ht;
    try (rewrite addOrderCard_missing by auto;
         by eapply wf_ext; [| |exact Hwf]).
  destruct Hwf as [H1 H2]. split.
  - rewrite (addOrderCard_fresh o s c t) by done.
    unfold attached in *. rewrite Hc in H1. simpl. constructor.
    + unfold consistent. by rewrite lookup_app_r, Nat.sub_diag by lia.
    + eapply Forall_impl; [exact H1|]. intros k. apply consistent_app.
  - rewrite orderSet_addOrderCard_fresh; eauto. by apply NoDup_cons.
Qed.

Lemma fold_addOrderCard_wf os s :
  wf s -> wf (List.fold_left (fun acc order => addOrderCard order acc) os s).
Proof.
  revert s. induction os as [|o os IH]; intros s Hwf; [done|].
  simpl. by apply IH, addOrderCard_wf.
Qed.

Lemma removeOrderCard_wf v s : wf s -> wf (removeOrderCard v s).
Proof.
  intros Hwf. unfold removeOrderCard. destruct (getCard s _); [|done].
  eapply wf_ext; [| |apply (wf_update_card set_fading n s); done]; done.
Qed.

Lemma fadeOutDone_wf h s : wf s -> wf (fadeOutDone h s).
Proof.
  intros [H1 H2]. unfold fadeOutDone.
  destruct (container s) as [c|] eqn:Hc; [|by split].
  unfold orderSet, attached in *. rewrite Hc in *.
  assert (wf (set_container
                (Some (set_children (filter (fun k => k <> h) (children c)) c)) s))
    as Hrest.
  { split; unfold orderSet, attached;
      cbn [store container set_container children set_children].
    - rewrite Forall_forall in H1 |- *.
      intros k [_ Hk]%list_elem_of_filter. by apply H1.
    - by apply NoDup_idsOf_filter. }
  destruct (filter _ (children c)) as [|k rest] eqn:Hf.
  - by apply wf_no_cards.
  - exact Hrest.
Qed.

Lemma loadAvailableOrders_wf s : wf s -> wf (loadAvailableOrders s).
Proof.
  apply wf_ext; [done|]. unfold attached, loadAvailableOrders. simpl.
  by destruct (container s).
Qed.

Lemma ordersLoaded_wf data s : wf s -> wf (ordersLoaded data s).
Proof.
  intros Hwf. unfold ordersLoaded.
  destruct (success data), (orders data) as [[|o os]|];
    try (eapply wf_ext; [| |exact Hwf]; [done|];
         unfold attached; simpl; by destruct (container s)).
  apply fold_addOrderCard_wf. apply wf_no_cards.
  unfold attached. simpl. by destruct (container s).
Qed.

Lemma update_btn_wf f btn s : wf s -> wf (update_btn f btn s).
Proof.
  intros Hwf. destruct btn as [h|]; [|done]. simpl.
  by apply wf_update_card.
Qed.

Lemma acceptOrder_wf confirmed o s : wf s -> wf (acceptOrder confirmed o s).
Proof.
  intros Hwf. unfold acceptOrder. destruct confirmed; [|done].
  eapply wf_ext; [| |apply (update_btn_wf (disable AcceptingSpinner)
                              (acceptBtnOf s o) s Hwf)]; done.
Qed.

Lemma handleNewOrder_wf d s : wf s -> wf (handleNewOrder d s).
Proof.
  intros Hwf. unfold handleNewOrder. destruct (Z.eqb _ 0); [done|].
  eapply wf_ext; [| |apply addOrderCard_wf]; [done|done|].
  eapply wf_ext; [| |exact Hwf]; [done|].
  unfold attached. simpl. by destruct (container s).
Qed.

Lemma settle_wf p r s : wf s -> wf (settle p r s).
Proof.
  intros Hwf. destruct p as [|o btn], r as [data|]; simpl.
  - by apply ordersLoaded_wf.
  - by eapply wf_ext; [| |exact Hwf].
  - unfold acceptAnswered. destruct (success data).
    + eapply wf_ext; [| |apply (removeOrderCard_wf (Some o))]; [done|done|].
      by eapply wf_ext; [| |exact Hwf].
    + apply update_btn_wf. by eapply wf_ext; [| |exact Hwf].
  - unfold acceptFailed. apply update_btn_wf. by eapply wf_ext; [| |exact Hwf].
Qed.

Lemma onSocket_wf ev s : wf s -> wf (onSocket ev s).
Proof.
  intros Hwf. destruct ev; simpl; try by apply handleNewOrder_wf.
  - by eapply wf_ext; [| |exact Hwf].
  - by apply removeOrderCard_wf.
  - unfold handleOrderAccepted. destruct (differs _ _); [|done].
    by apply removeOrderCard_wf.
  - by eapply wf_ext; [| |exact Hwf].
  - by apply loadAvailableOrders_wf.
Qed.

Lemma step_wf s e : wf s -> wf (step s e).
Proof.
  intros Hwf. destruct e as [ev|k|k|k r|h c|o c| |]; simpl.
  - destruct (socket s); [by apply onSocket_wf|done].
  - destruct (timers s !! k) as [[h| |]|]; simpl; try done.
    + apply fadeOutDone_wf. by eapply wf_ext; [| |exact Hwf].
    + by eapply wf_ext; [| |exact Hwf].
    + by eapply wf_ext; [| |exact Hwf].
  - destruct (intervals s !! k) as [[? []]|]; [|done].
    by apply loadAvailableOrders_wf.
  - destruct (inflight s !! k); [|done].
    apply settle_wf. by eapply wf_ext; [| |exact Hwf].
  - destruct (clickable s h); [|done]. by apply acceptOrder_wf.
  - by apply acceptOrder_wf.
  - destruct (handlers s), (refreshBtn s) as [b|]; try done.
    destruct (disabled b); [done|]. unfold refreshClicked.
    eapply wf_ext; [| |apply loadAvailableOrders_wf]; [done|done|].
    by eapply wf_ext; [| |exact Hwf].
  - destruct (handlers s && retryBtn s); [|done].
    by apply loadAvailableOrders_wf.
Qed.

Lemma run_wf es s : wf s -> wf (run s es).
Proof.
  revert s. induction es as [|e es IH]; intros s Hwf; [done|].
  simpl. by apply IH, step_wf.
Qed.

(** ** The order set under the reconciler's operations *)

Lemma orderSet_ext s s' :
  store s' = store s -> attached s' = attached s -> orderSet s' = orderSet s.
Proof. unfold orderSet. by intros -> ->. Qed.

Lemma attached_display s d :
  attached (set_container (set_c_display d <$> container s) s) = attached s.
Proof. unfold attached. simpl. by destruct (container s). Qed.

Lemma addOrderCard_twice o s :
  addOrderCard o (addOrderCard o s) = addOrderCard o s \/
  addOrderCard o (addOrderCard o s) =
  log error "Container or template not found!" (addOrderCard o s).
Proof.
  destruct (container s) as [c|] eqn:Hc; cycle 1.
  { right. rewrite (addOrderCard_missing o s) by auto.
    by rewrite addOrderCard_missing by (by left). }
  destruct (template s) as [t|] eqn:Ht; cycle 1.
  { right. rewrite (addOrderCard_missing o s) by auto.
    by rewrite addOrderCard_missing by (by right). }
  left. unfold addOrderCard at 2. rewrite Hc, Ht.
  destruct (getCard s (elemId (id o))) as [h|] eqn:Hg.
  - unfold addOrderCard. by rewrite Hc, Ht, Hg.
  - unfold addOrderCard. cbn [container template set_container set_store].
    unfold getCard. cbn [container store set_container set_store children
                         set_children List.find].
    unfold has_id at 1. rewrite lookup_app_r, Nat.sub_diag by lia.
    rewrite Ht. simpl (_ !! _). cbn [card_id]. rewrite String.eqb_refl.
    unfold getCard in Hg. rewrite Hc in Hg |- *. by rewrite Hg.
Qed.

Lemma orderSet_addOrderCard_twice o s :
  orderSet (addOrderCard o (addOrderCard o s)) = orderSet (addOrderCard o s).
Proof. by destruct (addOrderCard_twice o s) as [-> | ->]. Qed.

Lemma orderSet_addOrderCard_present o s :
  elemId (id o) ∈ orderSet s -> orderSet (addOrderCard o s) = orderSet s.
Proof.
  intros [Hs Hc]%addOrderCard_present. apply orderSet_ext; [done|].
  unfold attached. by rewrite Hc.
Qed.

Lemma elem_of_orderSet_addOrderCard o s eid :
  eid ∈ orderSet s -> eid ∈ orderSet (addOrderCard o s).
Proof.
  intros Hin.
  destruct (decide (elemId (id o) ∈ orderSet s)) as [Hp|Hno].
  { by rewrite orderSet_addOrderCard_present. }
  destruct (container s) as [c|] eqn:Hc; cycle 1.
  { by rewrite addOrderCard_missing by auto. }
  destruct (template s) as [t|] eqn:Ht; cycle 1.
  { by rewrite addOrderCard_missing by auto. }
  rewrite (addOrderCard_fresh o s c t) by done.
  unfold orderSet, attached in *. rewrite Hc in Hin.
  cbn [store container set_container set_store children set_children].
  apply elem_of_idsOf in Hin as (h & cd & Hh & Hl & Hid).
  apply elem_of_idsOf. exists h, cd. split_and!; [by right| |done].
  by apply lookup_app_l_Some.
Qed.

Lemma elem_of_orderSet_added o s :
  is_Some (container s) -> is_Some (template s) ->
  elemId (id o) ∈ orderSet (addOrderCard o s).
Proof.
  intros [c Hc] [t Ht].
  destruct (decide (elemId (id o) ∈ orderSet s)) as [Hp|Hno].
  { by rewrite orderSet_addOrderCard_present. }
  rewrite (addOrderCard_fresh o s c t) by done.
  unfold orderSet, attached.
  cbn [store container set_container set_store children set_children].
  apply elem_of_idsOf. exists (length (store s)). eexists. split_and!.
  - by left.
  - by rewrite lookup_app_r, Nat.sub_diag by lia.
  - done.
Qed.

Lemma addOrderCard_keeps_elements o s :
  (is_Some (container s) -> is_Some (container (addOrderCard o s))) /\
  template (addOrderCard o s) = template s /\
  noOrdersEl (addOrderCard o s) = noOrdersEl s.
Proof.
  unfold addOrderCard.
  destruct (container s) as [c|] eqn:Hc, (template s) as [t|] eqn:Ht;
    simpl; rewrite ?Hc, ?Ht; try by (split_and!; eauto).
  destruct (getCard s _); simpl; rewrite ?Hc, ?Ht; split_and!; eauto.
Qed.

Lemma fold_addOrderCard_keeps os s eid :
  eid ∈ orderSet s ->
  eid ∈ orderSet (List.fold_left (fun acc order => addOrderCard order acc) os s).
Proof.
  revert s. induction os as [|o os IH]; intros s Hin; [done|].
  simpl. by apply IH, elem_of_orderSet_addOrderCard.
Qed.

Lemma fold_addOrderCard_adds os s o :
  is_Some (container s) -> is_Some (template s) -> o ∈ os ->
  elemId (id o) ∈
    orderSet (List.fold_left (fun acc order => addOrderCard order acc) os s).
Proof.
  revert s. induction os as [|o' os IH]; intros s Hc Ht Hin.
  { by apply elem_of_nil in Hin. }
  simpl. destruct (addOrderCard_keeps_elements o' s) as (H1 & H2 & _).
  apply elem_of_cons in Hin as [->|Hin].
  - by apply fold_addOrderCard_keeps, elem_of_orderSet_added.
  - apply IH; [by apply H1|by rewrite H2|done].
Qed.

Lemma orderSet_handleNewOrder d s :
  orderSet (handleNewOrder d s) =
  if Z.eqb (id (payloadOrder d)) 0 then orderSet s
  else orderSet
         (addOrderCard (payloadOrder d)
            (set_noOrdersEl (show_if_present none (noOrdersEl s))
               (set_container (set_c_display block <$> container s) s))).
Proof. unfold handleNewOrder. by destruct (Z.eqb _ 0). Qed.

Lemma orderSet_shown s :
  orderSet (set_noOrdersEl (show_if_present none (noOrdersEl s))
              (set_container (set_c_display block <$> container s) s)) =
  orderSet s.
Proof. apply orderSet_ext; [done|]. apply attached_display. Qed.

Lemma orderSet_handleNewOrder_present d s :
  elemId (id (payloadOrder d)) ∈ orderSet s ->
  orderSet (handleNewOrder d s) = orderSet s /\
  store (handleNewOrder d s) = store s.
Proof.
  intros Hin. rewrite orderSet_handleNewOrder. unfold handleNewOrder.
  destruct (Z.eqb _ 0); [done|].
  rewrite <- orderSet_shown in Hin.
  split.
  - by rewrite orderSet_addOrderCard_present, orderSet_shown.
  - destruct (addOrderCard_present _ _ Hin) as [Hs _].
    etransitivity; [|exact Hs]. done.
Qed.


Lemma addOrderCard_container_inv o s :
  is_Some (container (addOrderCard o s)) -> is_Some (container s).
Proof.
  unfold addOrderCard. destruct (container s) as [c|] eqn:Hc; [eauto|].
  simpl. rewrite Hc. by intros [? ?].
Qed.

Lemma orderSet_handleNewOrder_twice d s :
  orderSet (handleNewOrder d (handleNewOrder d s)) =
  orderSet (handleNewOrder d s).
Proof.
  rewrite (orderSet_handleNewOrder d (handleNewOrder d s)).
  destruct (Z.eqb (id (payloadOrder d)) 0) eqn:Hz; [done|].
  set (s1 := handleNewOrder d s).
  set (s1' := set_noOrdersEl _ _).
  assert (orderSet s1' = orderSet s1) as Hsame by apply orderSet_shown.
  destruct (container s1') as [c|] eqn:Hc; cycle 1.
  { by rewrite addOrderCard_missing by auto. }
  destruct (template s1') as [t|] eqn:Ht; cycle 1.
  { by rewrite addOrderCard_missing by auto. }
  rewrite orderSet_addOrderCard_present; [done|].
  rewrite Hsame. subst s1 s1'. rewrite orderSet_handleNewOrder, Hz.
  unfold handleNewOrder in Hc, Ht. rewrite Hz in Hc, Ht.
  set (s' := set_noOrdersEl _ (set_container _ s)) in *.
  apply elem_of_orderSet_added.
  - apply (addOrderCard_container_inv (payloadOrder d)).
    simpl in Hc. destruct (container (addOrderCard _ s')); [eauto|done].
  - destruct (addOrderCard_keeps_elements (payloadOrder d) s') as (_ & <- & _).
    simpl in Ht. rewrite Ht. eauto.
Qed.

(** ** Removal *)

Lemma NoDup_idsOf_inj cards hs h k c c' :
  NoDup (idsOf cards hs) -> h ∈ hs -> k ∈ hs ->
  cards !! h = Some c -> cards !! k = Some c' -> card_id c = card_id c' ->
  h = k.
Proof.
  intros Hnd Hh Hk Hc Hc' Hid. induction hs as [|a l IH].
  { by apply elem_of_nil in Hh. }
  assert (forall x cx, x ∈ l -> cards !! x = Some cx -> card_id cx ∈ idsOf cards l)
    as Hmem by (intros; apply elem_of_idsOf; eauto).
  unfold idsOf in Hnd. cbn [omap list_omap] in Hnd. fold (idsOf cards l) in Hnd.
  apply elem_of_cons in Hh as [->|Hh], Hk as [->|Hk]; [done| | |].
  - rewrite Hc in Hnd. simpl in Hnd. apply NoDup_cons in Hnd as [Hn _].
    exfalso. apply Hn. rewrite Hid. eauto.
  - rewrite Hc' in Hnd. simpl in Hnd. apply NoDup_cons in Hnd as [Hn _].
    exfalso. apply Hn. rewrite <- Hid. eauto.
  - apply IH; [|done|done]. destruct (cards !! a); simpl in Hnd; [|done].
    by apply NoDup_cons in Hnd as [_ ?].
Qed.

Lemma getCard_unique s h c :
  wf s -> h ∈ attached s -> store s !! h = Some c ->
  getCard s (card_id c) = Some h.
Proof.
  intros [_ Hnd] Hin Hl.
  assert (card_id c ∈ orderSet s) as Hp by (apply elem_of_idsOf; eauto).
  destruct (getCard_present _ _ Hp) as [h' Hg]. rewrite Hg. f_equal.
  apply getCard_Some in Hg as (Hin' & c' & Hl' & Hid).
  by eapply (NoDup_idsOf_inj (store s) (attached s)).
Qed.

Lemma orderSet_removeOrderCard v s :
  orderSet (removeOrderCard v s) = orderSet s /\
  container (removeOrderCard v s) = container s.
Proof.
  unfold removeOrderCard. destruct (getCard s _) as [h|]; [|done].
  split; [|done]. unfold orderSet, attached. simpl.
  by rewrite idsOf_update_card.
Qed.

Lemma orderSet_fadeOutDone h s :
  orderSet (fadeOutDone h s) =
  idsOf (store s) (filter (fun k => k <> h) (attached s)).
Proof.
  unfold fadeOutDone, orderSet, attached.
  destruct (container s) as [c|] eqn:Hc; [|by rewrite Hc].
  destruct (filter _ (children c)) eqn:Hf; simpl; by rewrite <- ?Hf.
Qed.

Lemma fadeOutDone_removes s h eid :
  NoDup (orderSet s) -> getCard s eid = Some h ->
  eid ∉ orderSet (fadeOutDone h s).
Proof.
  intros Hnd (Hin & c & Hl & Hid)%getCard_Some.
  rewrite orderSet_fadeOutDone.
  intros (k & c' & Hk & Hl' & Hid')%elem_of_idsOf.
  apply list_elem_of_filter in Hk as [Hne Hk]. apply Hne.
  eapply (NoDup_idsOf_inj (store s) (attached s)); eauto. congruence.
Qed.

Lemma fadeOutDone_keeps_elements h s :
  (is_Some (container s) -> is_Some (container (fadeOutDone h s))) /\
  template (fadeOutDone h s) = template s /\
  store (fadeOutDone h s) = store s /\
  (is_Some (noOrdersEl s) -> is_Some (noOrdersEl (fadeOutDone h s))).
Proof.
  unfold fadeOutDone. destruct (container s) as [c|] eqn:Hc; [|by rewrite Hc].
  destruct (filter _ (children c)); simpl; split_and!; eauto.
  by destruct (noOrdersEl s).
Qed.

(** ** Snapshots *)

Lemma fold_addOrderCard_orderSet os s :
  is_Some (container s) -> is_Some (template s) -> wf s ->
  orderSet (List.fold_left (fun acc order => addOrderCard order acc) os s) =
  List.fold_left
    (fun acc o => if bool_decide (elemId (id o) ∈ acc) then acc
                  else elemId (id o) :: acc)
    os (orderSet s).
Proof.
  revert s. induction os as [|o os IH]; intros s Hc Ht Hwf; [done|].
  cbn [List.fold_left].
  destruct (addOrderCard_keeps_elements o s) as (H1 & H2 & _).
  rewrite IH; [|by apply H1|by rewrite H2|by apply addOrderCard_wf].
  f_equal. case_bool_decide as Hin.
  - by apply orderSet_addOrderCard_present.
  - apply orderSet_addOrderCard_fresh; [done|done|apply Hwf|done].
Qed.

Lemma elem_of_fold_ids os acc eid :
  eid ∈ List.fold_left
          (fun acc o => if bool_decide (elemId (id o) ∈ acc) then acc
                        else elemId (id o) :: acc) os acc <->
  eid ∈ acc \/ exists o, o ∈ os /\ elemId (id o) = eid.
Proof.
  revert acc. induction os as [|o os IH]; intros acc; cbn [List.fold_left].
  { split; [auto|]. intros [?|(o & Ho & _)]; [done|]. by apply elem_of_nil in Ho. }
  rewrite IH. split.
  - intros [Hin|(o' & Ho' & Hid)].
    + case_bool_decide; [by left|]. apply elem_of_cons in Hin as [->|Hin].
      * right. exists o. split; [by left|done].
      * by left.
    + right. exists o'. split; [by right|done].
  - intros [Hin|(o' & Ho' & Hid)].
    + left. case_bool_decide; [done|by right].
    + apply elem_of_cons in Ho' as [->|Ho'].
      * left. rewrite <- Hid. case_bool_decide; [done|by left].
      * right. eauto.
Qed.


Lemma elemId_inj i j : elemId i = elemId j -> i = j.
Proof.
  unfold elemId, elemIdOf. intros H%String.app_inj. by apply pretty_Z_inj in H.
Qed.

Lemma elem_of_shownIds os o :
  elemId (id o) ∈ shownIds os <-> exists o', o' ∈ os /\ id o' = id o.
Proof.
  unfold shownIds. rewrite elem_of_fold_ids. split.
  - intros [Hin|(o' & Ho' & Hid%elemId_inj)]; [by apply elem_of_nil in Hin|eauto].
  - intros (o' & Ho' & Hid). right. exists o'. by rewrite Hid.
Qed.

Lemma ordersLoaded_success data os s :
  success data = true -> orders data = Some os ->
  ordersLoaded data s =
  match os with
  | [] =>
      set_noOrdersEl (show_if_present block (noOrdersEl s))
        (set_container (set_c_display none <$> container s)
           (set_loadingEl (show_if_present none (loadingEl s)) s))
  | _ :: _ =>
      List.fold_left (fun acc order => addOrderCard order acc) os
        (set_noOrdersEl (show_if_present none (noOrdersEl s))
           (set_container
              ((fun _ => {| c_display := block; children := [] |}) <$> container s)
              (set_loadingEl (show_if_present none (loadingEl s)) s)))
  end.
Proof. unfold ordersLoaded. intros -> ->. by destruct os. Qed.

Lemma fold_addOrderCard_display os s c :
  container s = Some c ->
  exists c', container
               (List.fold_left (fun acc order => addOrderCard order acc) os s)
             = Some c' /\ c_display c' = c_display c.
Proof.
  revert s c. induction os as [|o os IH]; intros s c Hc; [eauto|].
  cbn [List.fold_left].
  assert (exists c1, container (addOrderCard o s) = Some c1 /\
                     c_display c1 = c_display c) as (c1 & Hc1 & Hd).
  { unfold addOrderCard. rewrite Hc.
    destruct (template s); [|simpl; eauto].
    destruct (getCard s _); simpl; eauto. }
  destruct (IH _ _ Hc1) as (c' & ? & ?). exists c'. split; [done|congruence].
Qed.

Lemma visibleSet_ordersLoaded data os s :
  success data = true -> orders data = Some os ->
  is_Some (container s) -> is_Some (template s) ->
  visibleSet (ordersLoaded data s) = shownIds os.
Proof.
  intros Hs Ho [c Hc] Ht. rewrite (ordersLoaded_success data os) by done.
  destruct os as [|o os].
  { unfold visibleSet. simpl. by rewrite Hc. }
  set (s0 := set_noOrdersEl _ _).
  assert (container s0 = Some {| c_display := block; children := [] |}) as Hc0.
  { subst s0. simpl. by rewrite Hc. }
  destruct (fold_addOrderCard_display (o :: os) s0 _ Hc0) as (c' & Hc' & Hd).
  unfold visibleSet. rewrite Hc'. destruct c' as [d l]. simpl in Hd. subst d.
  rewrite fold_addOrderCard_orderSet.
  - unfold shownIds. f_equal. unfold orderSet, attached. by rewrite Hc0.
  - rewrite Hc0. eauto.
  - done.
  - apply wf_no_cards. unfold attached. by rewrite Hc0.
Qed.

Lemma ordersLoaded_keeps_elements data s :
  (is_Some (container s) -> is_Some (container (ordersLoaded data s))) /\
  (is_Some (template s) -> is_Some (template (ordersLoaded data s))) /\
  (is_Some (noOrdersEl s) -> is_Some (noOrdersEl (ordersLoaded data s))).
Proof.
  unfold ordersLoaded.
  assert (forall os s, (is_Some (container s) ->
             is_Some (container (List.fold_left
               (fun acc order => addOrderCard order acc) os s))) /\
          (is_Some (template s) ->
             is_Some (template (List.fold_left
               (fun acc order => addOrderCard order acc) os s))) /\
          (is_Some (noOrdersEl s) ->
             is_Some (noOrdersEl (List.fold_left
               (fun acc order => addOrderCard order acc) os s)))) as Hfold.
  { intros os. induction os as [|o os IH]; intros s'; [done|].
    cbn [List.fold_left].
    destruct (addOrderCard_keeps_elements o s') as (H1 & H2 & H3).
    destruct (IH (addOrderCard o s')) as (I1 & I2 & I3).
    rewrite H2, H3 in *. split_and!; eauto. }
  destruct (success data), (orders data) as [[|o os]|];
    try (simpl; split_and!; [by destruct (container s)|done|
                             by destruct (noOrdersEl s)]).
  destruct (Hfold (o :: os)
              (set_noOrdersEl (show_if_present none (noOrdersEl s))
                 (set_container
                    ((fun _ => {| c_display := block; children := [] |})
                       <$> container s)
                    (set_loadingEl (show_if_present none (loadingEl s)) s))))
    as (I1 & I2 & I3).
  split_and!; intros H.
  - apply I1. simpl. by destruct (container s).
  - by apply I2.
  - apply I3. simpl. by destruct (noOrdersEl s).
Qed.

(** ** The elements of the page stay *)

Lemma loadAvailableOrders_keeps_elements s :
  (is_Some (container s) -> is_Some (container (loadAvailableOrders s))) /\
  template (loadAvailableOrders s) = template s /\
  (is_Some (noOrdersEl s) -> is_Some (noOrdersEl (loadAvailableOrders s))).
Proof.
  unfold loadAvailableOrders. simpl. split_and!; [|done|].
  - by destruct (container s).
  - by destruct (noOrdersEl s).
Qed.

Lemma domReady_ext s s' :
  container s' = container s -> template s' = template s ->
  noOrdersEl s' = noOrdersEl s -> domReady s -> domReady s'.
Proof. intros Hc Ht Hn [? ? ?]. split; by rewrite ?Hc, ?Ht, ?Hn. Qed.

Lemma removeOrderCard_same_elements v s :
  container (removeOrderCard v s) = container s /\
  template (removeOrderCard v s) = template s /\
  noOrdersEl (removeOrderCard v s) = noOrdersEl s.
Proof. unfold removeOrderCard. by destruct (getCard s _). Qed.

Lemma update_btn_same_elements f btn s :
  container (update_btn f btn s) = container s /\
  template (update_btn f btn s) = template s /\
  noOrdersEl (update_btn f btn s) = noOrdersEl s.
Proof. by destruct btn. Qed.

Lemma addOrderCard_ready o s : domReady s -> domReady (addOrderCard o s).
Proof.
  intros [? ? ?]. destruct (addOrderCard_keeps_elements o s) as (H1 & H2 & H3).
  split; rewrite ?H2, ?H3; auto.
Qed.

Lemma handleNewOrder_ready d s : domReady s -> domReady (handleNewOrder d s).
Proof.
  intros Hr. unfold handleNewOrder. destruct (Z.eqb _ 0); [done|].
  eapply domReady_ext; [| | |apply addOrderCard_ready]; [done|done|done|].
  destruct Hr as [Hc Ht Hn]. split; simpl; [|done|].
  - by destruct (container s).
  - by destruct (noOrdersEl s).
Qed.

Lemma settle_ready p r s : domReady s -> domReady (settle p r s).
Proof.
  intros Hr. destruct p as [|o btn], r as [data|]; simpl.
  - destruct Hr as [? ? ?].
    destruct (ordersLoaded_keeps_elements data s) as (H1 & H2 & H3).
    split; auto.
  - by eapply domReady_ext; [| | |exact Hr].
  - unfold acceptAnswered. destruct (success data).
    + destruct (removeOrderCard_same_elements (Some o)
                  (showToast "Success!" "Delivery accepted successfully" "success" s))
        as (H1 & H2 & H3).
      by eapply domReady_ext; [| | |exact Hr].
    + destruct (update_btn_same_elements (enable AcceptLabel) btn
                  (showToast "Failed" (or_else (msg data) "Could not accept delivery")
                     "danger" s)) as (H1 & H2 & H3).
      by eapply domReady_ext; [| | |exact Hr].
  - unfold acceptFailed.
    destruct (update_btn_same_elements (enable AcceptLabel) btn
                (showToast "Error" "Failed to accept delivery" "danger"
                   (log error "Error:" s))) as (H1 & H2 & H3).
    by eapply domReady_ext; [| | |exact Hr].
Qed.

Lemma loadAvailableOrders_ready s : domReady s -> domReady (loadAvailableOrders s).
Proof.
  intros [? ? ?].
  destruct (loadAvailableOrders_keeps_elements s) as (H1 & H2 & H3).
  split; rewrite ?H2; auto.
Qed.

Lemma acceptOrder_ready confirmed o s :
  domReady s -> domReady (acceptOrder confirmed o s).
Proof.
  intros Hr. unfold acceptOrder. destruct confirmed; [|done].
  destruct (update_btn_same_elements (disable AcceptingSpinner)
              (acceptBtnOf s o) s) as (H1 & H2 & H3).
  by eapply domReady_ext; [| | |exact Hr].
Qed.

Lemma step_ready s e : domReady s -> domReady (step s e).
Proof.
  intros Hr. destruct e as [ev|k|k|k r|h c|o c| |]; simpl.
  - destruct (socket s); [|done]. destruct ev; simpl;
      try (by apply handleNewOrder_ready);
      try (by eapply domReady_ext; [| | |exact Hr]).
    + destruct (removeOrderCard_same_elements (takenId data) s) as (?&?&?).
      by eapply domReady_ext; [| | |exact Hr].
    + unfold handleOrderAccepted. destruct (differs _ _); [|done].
      destruct (removeOrderCard_same_elements (Some (a_order_id data)) s)
        as (?&?&?).
      by eapply domReady_ext; [| | |exact Hr].
    + by apply loadAvailableOrders_ready.
  - destruct (timers s !! k) as [[h| |]|]; simpl; try done;
      try (by eapply domReady_ext; [| | |exact Hr]).
    destruct Hr as [? ? ?].
    destruct (fadeOutDone_keeps_elements h (set_timers (delete k (timers s)) s))
      as (H1 & H2 & _ & H4).
    split; rewrite ?H2; auto.
  - destruct (intervals s !! k) as [[? []]|]; [|done].
    by apply loadAvailableOrders_ready.
  - destruct (inflight s !! k); [|done]. apply settle_ready.
    by eapply domReady_ext; [| | |exact Hr].
  - destruct (clickable s h); [|done]. by apply acceptOrder_ready.
  - by apply acceptOrder_ready.
  - destruct (handlers s), (refreshBtn s) as [b|]; try done.
    destruct (disabled b); [done|]. unfold refreshClicked.
    eapply domReady_ext; [| | |apply loadAvailableOrders_ready]; [done..|].
    by eapply domReady_ext; [| | |exact Hr].
  - destruct (handlers s && retryBtn s); [|done].
    by apply loadAvailableOrders_ready.
Qed.

Lemma run_ready es s : domReady s -> domReady (run s es).
Proof.
  revert s. induction es as [|e es IH]; intros s Hr; [done|].
  simpl. by apply IH, step_ready.
Qed.

(** ** The no-orders message *)

Lemma visibleSet_ext s s' :
  container s' = container s -> orderSet s' = orderSet s ->
  visibleSet s' = visibleSet s.
Proof. unfold visibleSet. by intros -> ->. Qed.

Lemma emptyShown_ext s s' :
  container s' = container s -> orderSet s' = orderSet s ->
  noOrdersEl s' = noOrdersEl s -> emptyShown s -> emptyShown s'.
Proof.
  intros Hc Ho Hn. unfold emptyShown, messageShown.
  by rewrite Hn, (visibleSet_ext s s').
Qed.

Lemma emptyShown_removeOrderCard v s :
  emptyShown s -> emptyShown (removeOrderCard v s).
Proof.
  destruct (orderSet_removeOrderCard v s) as [Ho Hc].
  destruct (removeOrderCard_same_elements v s) as (_ & _ & Hn).
  by apply emptyShown_ext.
Qed.

Lemma orderSet_update_btn f btn s :
  orderSet (update_btn f btn s) = orderSet s.
Proof.
  destruct btn as [h|]; [|done]. unfold orderSet, attached. simpl.
  by rewrite idsOf_update_card.
Qed.

Lemma emptyShown_update_btn f btn s :
  emptyShown s -> emptyShown (update_btn f btn s).
Proof.
  destruct (update_btn_same_elements f btn s) as (Hc & _ & Hn).
  apply emptyShown_ext; [done|apply orderSet_update_btn|done].
Qed.

Lemma emptyShown_handleNewOrder d s :
  domReady s -> (id (payloadOrder d) = 0 -> emptyShown s) ->
  emptyShown (handleNewOrder d s).
Proof.
  intros [[c Hc] Ht [m Hm]] Hz. unfold handleNewOrder.
  destruct (Z.eqb_spec (id (payloadOrder d)) 0) as [H0|Hne]; [auto|].
  set (s' := set_noOrdersEl _ _).
  assert (container s' = Some (set_c_display block c)) as Hc'.
  { subst s'. simpl. by rewrite Hc. }
  destruct (fold_addOrderCard_display [payloadOrder d] s' _ Hc')
    as (c1 & Hc1 & Hd). cbn [List.fold_left] in Hc1.
  assert (elemId (id (payloadOrder d)) ∈ orderSet (addOrderCard (payloadOrder d) s'))
    as Hin.
  { apply elem_of_orderSet_added; [by rewrite Hc'|done]. }
  destruct (addOrderCard_keeps_elements (payloadOrder d) s') as (_ & _ & Hn).
  eapply (emptyShown_ext (addOrderCard (payloadOrder d) s')); [done..|].
  unfold emptyShown, messageShown, visibleSet.
  rewrite Hn, Hc1. destruct c1 as [dsp l]. simpl in Hd. subst dsp.
  replace (noOrdersEl s') with (Some none) by (subst s'; simpl; by rewrite Hm).
  split; [done|]. intros Hnil.
  rewrite Hnil in Hin. by apply elem_of_nil in Hin.
Qed.

Lemma emptyShown_ordersLoaded data s :
  domReady s -> emptyShown (ordersLoaded data s).
Proof.
  intros [[c Hc] Ht [m Hm]].
  assert (forall s', noOrdersEl s' = Some block ->
            (exists c', container s' = Some c' /\ c_display c' = none) ->
            emptyShown s') as Hhidden.
  { intros s' Hn (c' & Hc' & Hd). unfold emptyShown, messageShown, visibleSet.
    rewrite Hn, Hc'. destruct c' as [dsp l]. simpl in Hd. by subst dsp. }
  destruct (success data) eqn:Hs, (orders data) as [[|o os]|] eqn:Ho;
    try (apply Hhidden; unfold ordersLoaded; rewrite Hs, ?Ho; simpl;
         rewrite ?Hm, ?Hc; simpl; by eauto).
  pose proof (visibleSet_ordersLoaded data (o :: os) s Hs Ho
                (ex_intro _ c Hc) Ht) as Hv.
  assert (elemId (id o) ∈ shownIds (o :: os)) as Hin.
  { apply elem_of_shownIds. exists o. split; [by left|done]. }
  unfold emptyShown. rewrite Hv. split.
  - unfold messageShown. rewrite (ordersLoaded_success data (o :: os)) by done.
    set (s0 := set_noOrdersEl _ _).
    assert (forall os' s', noOrdersEl
              (List.fold_left (fun acc order => addOrderCard order acc) os' s')
            = noOrdersEl s') as Hfold.
    { intros os'. induction os' as [|o' os' IH]; intros s'; [done|].
      cbn [List.fold_left]. rewrite IH.
      by destruct (addOrderCard_keeps_elements o' s') as (_ & _ & ->). }
    rewrite Hfold. subst s0. simpl. by rewrite Hm.
  - intros Hnil. rewrite Hnil in Hin. by apply elem_of_nil in Hin.
Qed.

Lemma emptyShown_fadeOutDone h s :
  wf s -> domReady s -> emptyShown s -> emptyShown (fadeOutDone h s).
Proof.
  intros [Hcons Hnd] [[c Hc] _ [m Hm]] Hinv.
  unfold fadeOutDone. rewrite Hc.
  destruct (filter _ (children c)) as [|k rest] eqn:Hf.
  - unfold emptyShown, messageShown, visibleSet. simpl. by rewrite Hm.
  - assert (k ∈ children c) as Hk.
    { assert (k ∈ filter (fun k => k <> h) (children c)) as Hk'
        by (rewrite Hf; by left).
      by apply list_elem_of_filter in Hk' as [_ ?]. }
    unfold attached in Hcons. rewrite Hc in Hcons.
    assert (consistent (store s) k) as Hck
      by (rewrite Forall_forall in Hcons; by apply Hcons).
    unfold consistent in Hck. destruct (store s !! k) as [ck|] eqn:Hlk; [|done].
    revert Hinv. unfold emptyShown, messageShown, visibleSet, orderSet, attached.
    simpl. rewrite Hc. destruct c as [dsp l]. simpl in *.
    destruct dsp; [|done].
    intros Hinv. split.
    + intros Hshown. apply Hinv in Hshown.
      assert (card_id ck ∈ idsOf (store s) l) as Hin
        by (apply elem_of_idsOf; eauto).
      rewrite Hshown in Hin. by apply elem_of_nil in Hin.
    + unfold idsOf. cbn [omap list_omap]. by rewrite Hlk.
Qed.

Lemma emptyShown_step s e :
  wf s -> domReady s -> startsFetch e = false ->
  emptyShown s -> emptyShown (step s e).
Proof.
  intros Hwf Hr Hf Hinv. destruct e as [ev|k|k|k r|h c|o c| |]; simpl;
    try discriminate.
  - destruct (socket s); [|done]. destruct ev; simpl; try discriminate;
      try (by apply emptyShown_handleNewOrder).
    + by eapply emptyShown_ext; [| | |exact Hinv].
    + by apply emptyShown_removeOrderCard.
    + unfold handleOrderAccepted. destruct (differs _ _); [|done].
      by apply emptyShown_removeOrderCard.
    + by eapply emptyShown_ext; [| | |exact Hinv].
  - destruct (timers s !! k) as [[h| |]|]; simpl; try done.
    apply emptyShown_fadeOutDone.
    + by eapply wf_ext; [| |exact Hwf].
    + by eapply domReady_ext; [| | |exact Hr].
    + by eapply emptyShown_ext; [| | |exact Hinv].
  - destruct (inflight s !! k) as [[|o btn]|]; [| |done]; destruct r as [data|];
      simpl.
    + apply emptyShown_ordersLoaded. by eapply domReady_ext; [| | |exact Hr].
    + by eapply emptyShown_ext; [| | |exact Hinv].
    + unfold acceptAnswered. destruct (success data).
      * eapply emptyShown_ext;
          [| | |apply (emptyShown_removeOrderCard (Some o))]; [done..|].
        by eapply emptyShown_ext; [| | |exact Hinv].
      * apply emptyShown_update_btn.
        by eapply emptyShown_ext; [| | |exact Hinv].
    + unfold acceptFailed. apply emptyShown_update_btn.
      by eapply emptyShown_ext; [| | |exact Hinv].
  - destruct (clickable s h); [|done]. unfold acceptOrder.
    destruct c; [|done].
    eapply emptyShown_ext; [| | |apply (emptyShown_update_btn
      (disable AcceptingSpinner) (acceptBtnOf s z) s Hinv)]; done.
  - unfold acceptOrder. destruct c; [|done].
    eapply emptyShown_ext; [| | |apply (emptyShown_update_btn
      (disable AcceptingSpinner) (acceptBtnOf s o) s Hinv)]; done.
Qed.

(** ** The accept button while its request is pending *)

Lemma btnDisabled_store s s' h :
  (forall c, store s !! h = Some c ->
             exists c', store s' !! h = Some c' /\ accept_btn c' = accept_btn c) ->
  btnDisabled s h = true -> btnDisabled s' h = true.
Proof.
  unfold btnDisabled. intros Hst. destruct (store s !! h) as [c|]; [|done].
  destruct (Hst c eq_refl) as (c' & -> & ->). done.
Qed.

Lemma btnDisabled_ext s s' h :
  store s' = store s -> btnDisabled s h = true -> btnDisabled s' h = true.
Proof. unfold btnDisabled. by intros ->. Qed.

Lemma btnDisabled_addOrderCard o s h :
  btnDisabled s h = true -> btnDisabled (addOrderCard o s) h = true.
Proof.
  apply btnDisabled_store. intros c Hc. exists c. split; [|done].
  unfold addOrderCard. destruct (container s), (template s); try done.
  destruct (getCard s _); [done|]. simpl. by apply lookup_app_l_Some.
Qed.

Lemma btnDisabled_fold os s h :
  btnDisabled s h = true ->
  btnDisabled (List.fold_left (fun acc order => addOrderCard order acc) os s) h
  = true.
Proof.
  revert s. induction os as [|o os IH]; intros s H; [done|].
  simpl. by apply IH, btnDisabled_addOrderCard.
Qed.

Lemma btnDisabled_removeOrderCard v s h :
  btnDisabled s h = true -> btnDisabled (removeOrderCard v s) h = true.
Proof.
  apply btnDisabled_store. intros c Hc. unfold removeOrderCard.
  destruct (getCard s _) as [k|]; [|eauto]. simpl.
  rewrite lookup_update_card. case_decide; rewrite Hc; simpl; eauto.
Qed.

Lemma btnDisabled_disable m btn s h :
  btnDisabled s h = true -> btnDisabled (update_btn (disable m) btn s) h = true.
Proof.
  destruct btn as [k|]; [|done]. unfold btnDisabled. simpl.
  rewrite lookup_update_card. case_decide; [|done].
  destruct (store s !! h) as [c|]; [|done]. simpl.
  by destruct (accept_btn c).
Qed.

Lemma btnDisabled_other f btn s h :
  btn <> Some h ->
  btnDisabled s h = true -> btnDisabled (update_btn f btn s) h = true.
Proof.
  intros Hne. destruct btn as [k|]; [|done]. unfold btnDisabled. simpl.
  rewrite lookup_update_card. case_decide; [congruence|done].
Qed.

Lemma btnDisabled_ordersLoaded data s h :
  btnDisabled s h = true -> btnDisabled (ordersLoaded data s) h = true.
Proof.
  intros H. unfold ordersLoaded.
  destruct (success data), (orders data) as [[|o os]|];
    try by (eapply btnDisabled_ext; [|exact H]).
  apply btnDisabled_fold. by eapply btnDisabled_ext; [|exact H].
Qed.

Lemma btnDisabled_handleNewOrder d s h :
  btnDisabled s h = true -> btnDisabled (handleNewOrder d s) h = true.
Proof.
  intros H. unfold handleNewOrder. destruct (Z.eqb _ 0); [done|].
  eapply btnDisabled_ext; [|apply btnDisabled_addOrderCard]; [done|].
  by eapply btnDisabled_ext; [|exact H].
Qed.

Lemma btnDisabled_acceptOrder confirmed o s h :
  btnDisabled s h = true -> btnDisabled (acceptOrder confirmed o s) h = true.
Proof.
  intros H. unfold acceptOrder. destruct confirmed; [|done].
  eapply btnDisabled_ext; [|by apply (btnDisabled_disable AcceptingSpinner
                                         (acceptBtnOf s o))]; done.
Qed.

Lemma btnDisabled_step s e h :
  btnDisabled s h = true -> releases h s e = false ->
  btnDisabled (step s e) h = true.
Proof.
  intros H Hrel. destruct e as [ev|k|k|k r|h' cf|o cf| |]; simpl.
  - destruct (socket s); [|done]. destruct ev; simpl;
      try (by apply btnDisabled_handleNewOrder);
      try (by eapply btnDisabled_ext; [|exact H]).
    + by apply btnDisabled_removeOrderCard.
    + unfold handleOrderAccepted. destruct (differs _ _); [|done].
      by apply btnDisabled_removeOrderCard.
  - destruct (timers s !! k) as [[k'| |]|]; simpl; try done.
    destruct (fadeOutDone_keeps_elements k' (set_timers (delete k (timers s)) s))
      as (_ & _ & Hst & _).
    by eapply btnDisabled_ext; [|exact H].
  - by destruct (intervals s !! k) as [[? []]|].
  - simpl in Hrel. destruct (inflight s !! k) as [[|o btn]|]; [| |done];
      destruct r as [data|]; simpl.
    + apply btnDisabled_ordersLoaded. by eapply btnDisabled_ext; [|exact H].
    + by eapply btnDisabled_ext; [|exact H].
    + unfold acceptAnswered. destruct (success data).
      * eapply btnDisabled_ext;
          [|apply (btnDisabled_removeOrderCard (Some o))]; [done|].
        by eapply btnDisabled_ext; [|exact H].
      * apply btnDisabled_other; [|by eapply btnDisabled_ext; [|exact H]].
        intros ->. by rewrite Nat.eqb_refl in Hrel.
    + unfold acceptFailed.
      apply btnDisabled_other; [|by eapply btnDisabled_ext; [|exact H]].
      intros ->. by rewrite Nat.eqb_refl in Hrel.
  - destruct (clickable s h'); [|done]. by apply btnDisabled_acceptOrder.
  - by apply btnDisabled_acceptOrder.
  - destruct (handlers s), (refreshBtn s) as [b|]; try done.
    by destruct (disabled b).
  - by destruct (handlers s && retryBtn s).
Qed.

Lemma btnDisabled_run es s h :
  btnDisabled s h = true -> held h s es = true ->
  btnDisabled (run s es) h = true.
Proof.
  revert s. induction es as [|e es IH]; intros s H Hheld; [done|].
  simpl in *. apply andb_prop in Hheld as [Hrel Hheld].
  apply negb_true_iff in Hrel. apply IH; [|done]. by apply btnDisabled_step.
Qed.

Lemma clickable_disabled s h : btnDisabled s h = true -> clickable s h = None.
Proof.
  unfold btnDisabled, clickable. destruct (container s) as [cn|].
  - destruct (store s !! h) as [c|]; [|done].
    destruct (accept_btn c) as [b|]; [|done].
    intros ->. by rewrite andb_false_r.
  - by destruct (store s !! h).
Qed.

Lemma clickable_Some s h o :
  clickable s h = Some o ->
  h ∈ attached s /\
  exists c b, store s !! h = Some c /\ card_order c = o /\
              accept_btn c = Some b /\ disabled b = false.
Proof.
  unfold clickable, attached. destruct (container s) as [cn|]; [|done].
  destruct (store s !! h) as [c|]; [|done].
  destruct (accept_btn c) as [b|] eqn:Hb; [|done].
  destruct (bool_decide (h ∈ children cn)) eqn:Hin; [|done].
  destruct (disabled b) eqn:Hd; [done|]. intros [= <-].
  apply bool_decide_eq_true in Hin. eauto 10.
Qed.

Lemma acceptBtnOf_clickable s h o :
  wf s -> clickable s h = Some o -> acceptBtnOf s o = Some h.
Proof.
  intros Hwf (Hin & c & b & Hc & Ho & Hb & _)%clickable_Some.
  unfold acceptBtnOf.
  assert (card_id c = elemId o) as Hid.
  { destruct Hwf as [Hcons _]. rewrite Forall_forall in Hcons.
    specialize (Hcons h Hin). unfold consistent in Hcons.
    rewrite Hc in Hcons. by rewrite Hcons, Ho. }
  rewrite <- Hid, (getCard_unique s h c) by done. by rewrite Hc, Hb.
Qed.

Lemma acceptOrder_first_click s h o :
  wf s -> clickable s h = Some o ->
  let s1 := step s (ClickAccept h true) in
  btnDisabled s1 h = true /\
  net s1 = net s ++ [PostAccept o] /\
  inflight s1 = inflight s ++ [PAccept o (Some h)] /\
  orderSet s1 = orderSet s /\ container s1 = container s /\
  timers s1 = timers s /\ toasts s1 = toasts s.
Proof.
  intros Hwf Hclick. simpl. rewrite Hclick. unfold acceptOrder.
  rewrite (acceptBtnOf_clickable s h o) by done.
  apply clickable_Some in Hclick as (_ & c & b & Hc & _ & Hb & _).
  split_and!; try done.
  - unfold btnDisabled. simpl. rewrite lookup_update_card.
    rewrite decide_True by done. by rewrite Hc; simpl; rewrite Hb.
  - apply (orderSet_update_btn (disable AcceptingSpinner) (Some h) s).
Qed.

(** ** What no event changes *)

Lemma unchanging_refl s : unchanging s s.
Proof. by repeat split. Qed.

Lemma unchanging_trans s1 s2 s3 :
  unchanging s1 s2 -> unchanging s2 s3 -> unchanging s1 s3.
Proof.
  intros (?&?&?&?&?) (?&?&?&?&?). repeat split; congruence.
Qed.

Lemma unchanging_addOrderCard o s : unchanging s (addOrderCard o s).
Proof.
  unfold addOrderCard. destruct (container s), (template s) eqn:Ht;
    try by repeat split.
  destruct (getCard s _); by repeat split.
Qed.

Lemma unchanging_fold os s :
  unchanging s (List.fold_left (fun acc order => addOrderCard order acc) os s).
Proof.
  revert s. induction os as [|o os IH]; intros s; [apply unchanging_refl|].
  simpl. eapply unchanging_trans; [apply unchanging_addOrderCard|apply IH].
Qed.

Lemma unchanging_removeOrderCard v s : unchanging s (removeOrderCard v s).
Proof. unfold removeOrderCard. destruct (getCard s _); by repeat split. Qed.

Lemma unchanging_fadeOutDone h s : unchanging s (fadeOutDone h s).
Proof.
  unfold fadeOutDone. destruct (container s) as [c|]; [|by repeat split].
  destruct (filter _ _); by repeat split.
Qed.

Lemma unchanging_ordersLoaded data s : unchanging s (ordersLoaded data s).
Proof.
  unfold ordersLoaded.
  destruct (success data), (orders data) as [[|o os]|]; try by repeat split.
  eapply unchanging_trans; [|apply unchanging_fold]. by repeat split.
Qed.

Lemma unchanging_update_btn f btn s : unchanging s (update_btn f btn s).
Proof. destruct btn; by repeat split. Qed.

Lemma unchanging_acceptOrder confirmed o s :
  unchanging s (acceptOrder confirmed o s).
Proof.
  unfold acceptOrder. destruct confirmed; [|apply unchanging_refl].
  eapply unchanging_trans; [apply (unchanging_update_btn
    (disable AcceptingSpinner) (acceptBtnOf s o))|]. by repeat split.
Qed.

Lemma unchanging_handleNewOrder d s : unchanging s (handleNewOrder d s).
Proof.
  unfold handleNewOrder. destruct (Z.eqb _ 0); [apply unchanging_refl|].
  set (s' := set_noOrdersEl _ _).
  apply (unchanging_trans _ s'); [by repeat split|].
  apply (unchanging_trans _ (addOrderCard (payloadOrder d) s'));
    [apply unchanging_addOrderCard|by repeat split].
Qed.

Lemma unchanging_settle p r s : unchanging s (settle p r s).
Proof.
  destruct p as [|o btn], r as [data|]; simpl.
  - apply unchanging_ordersLoaded.
  - by repeat split.
  - unfold acceptAnswered. destruct (success data).
    + set (s' := showToast _ _ _ s).
      apply (unchanging_trans _ (removeOrderCard (Some o) s')); [|by repeat split].
      apply (unchanging_trans _ s'); [by repeat split|].
      apply unchanging_removeOrderCard.
    + eapply unchanging_trans; [|apply unchanging_update_btn]. by repeat split.
  - unfold acceptFailed.
    eapply unchanging_trans; [|apply unchanging_update_btn]. by repeat split.
Qed.

Lemma unchanging_step s e : unchanging s (step s e).
Proof.
  destruct e as [ev|k|k|k r|h c|o c| |]; simpl.
  - destruct (socket s); [|apply unchanging_refl]. destruct ev; simpl;
      try apply unchanging_handleNewOrder; try by repeat split.
    + apply unchanging_removeOrderCard.
    + unfold handleOrderAccepted. destruct (differs _ _);
        [apply unchanging_removeOrderCard|apply unchanging_refl].
  - destruct (timers s !! k) as [[h| |]|]; simpl; try by repeat split.
    eapply unchanging_trans; [|apply unchanging_fadeOutDone]. by repeat split.
  - destruct (intervals s !! k) as [[? []]|]; by repeat split.
  - destruct (inflight s !! k); [|apply unchanging_refl].
    eapply unchanging_trans; [|apply unchanging_settle]. by repeat split.
  - destruct (clickable s h); [apply unchanging_acceptOrder|apply unchanging_refl].
  - apply unchanging_acceptOrder.
  - destruct (handlers s) eqn:Hh, (refreshBtn s) as [b|]; try by repeat split.
    destruct (disabled b); by repeat split.
  - destruct (handlers s && retryBtn s); by repeat split.
Qed.

Lemma unchanging_run es s : unchanging s (run s es).
Proof.
  revert s. induction es as [|e es IH]; intros s; [apply unchanging_refl|].
  simpl. eapply unchanging_trans; [apply unchanging_step|apply IH].
Qed.



Lemma getCard_update_card f h s eid :
  (forall c, card_id (f c) = card_id c) ->
  getCard (set_store (update_card f h (store s)) s) eid = getCard s eid.
Proof.
  intros Hf. unfold getCard. simpl. destruct (container s) as [c|]; [|done].
  induction (children c) as [|k l IH]; [done|]. simpl.
  rewrite IH. unfold has_id. rewrite lookup_update_card.
  case_decide; [|done]. destruct (store s !! k); simpl; [|done].
  by rewrite Hf.
Qed.

(** ** Snapshots and the order set *)







(** ** The button an accept request holds *)

Lemma getCard_ext s s' eid :
  container s' = container s -> store s' = store s ->
  getCard s' eid = getCard s eid.
Proof. unfold getCard. by intros -> ->. Qed.

Lemma acceptBtnOf_attached s h c b :
  wf s -> h ∈ attached s -> store s !! h = Some c -> accept_btn c = Some b ->
  acceptBtnOf s (card_order c) = Some h.
Proof.
  intros Hwf Hin Hc Hb. unfold acceptBtnOf.
  assert (card_id c = elemId (card_order c)) as Hid.
  { destruct Hwf as [Hcons _]. rewrite Forall_forall in Hcons.
    specialize (Hcons h Hin). unfold consistent in Hcons.
    by rewrite Hc in Hcons. }
  rewrite <- Hid, (getCard_unique s h c) by done. by rewrite Hc, Hb.
Qed.

(** After the click on the button of card [h], any other call of
    [acceptOrder] for the order of that card finds the same button. *)
Lemma acceptBtnOf_after_click s h o :
  wf s -> clickable s h = Some o ->
  acceptBtnOf (step s (ClickAccept h true)) o = Some h.
Proof.
  intros Hwf Hclick.
  pose proof (step_wf s (ClickAccept h true) Hwf) as Hwf1.
  destruct (acceptOrder_first_click s h o Hwf Hclick)
    as (_ & _ & _ & _ & Hcont & _).
  pose proof (clickable_Some _ _ _ Hclick) as (Hin & c & b & Hc & Ho & Hb & _).
  assert (store (step s (ClickAccept h true)) !! h =
          Some (map_btn (disable AcceptingSpinner) c)) as Hc1.
  { simpl. rewrite Hclick. unfold acceptOrder.
    rewrite (acceptBtnOf_clickable s h o) by done. simpl.
    rewrite lookup_update_card, decide_True by done. by rewrite Hc. }
  rewrite <- Ho.
  change (card_order c) with (card_order (map_btn (disable AcceptingSpinner) c)).
  eapply acceptBtnOf_attached; [done| |exact Hc1|].
  - unfold attached. cbv zeta in Hcont. by rewrite Hcont.
  - simpl. by rewrite Hb.
Qed.

End AvailableOrdersFacts.

(** * Facts about the RiderWebSocket class *)

Module RiderWebSocketFacts.
Import RiderWebSocket.

Lemma lookup_update_btn f h s k :
  store (update_btn f h s) !! k =
  if decide (h = k) then (fun e => set_btn (f (el_btn e)) e) <$> store s !! k
  else store s !! k.
Proof.
  unfold update_btn. destruct (store s !! h) as [e|] eqn:E; simpl.
  - case_decide as Hk.
    + subst. rewrite list_lookup_insert_eq by by eapply lookup_lt_Some.
      by rewrite E.
    + by rewrite list_lookup_insert_ne.
  - case_decide; [subst; by rewrite E|done].
Qed.

Lemma riderws_btnDisabled_store_app s h e :
  btnDisabled s h = true -> btnDisabled (appendChild e s) h = true.
Proof.
  unfold btnDisabled. simpl. destruct (store s !! h) as [x|] eqn:E; [|done].
  by rewrite (lookup_app_l_Some _ _ _ _ E).
Qed.

Lemma riderws_btnDisabled_appendOrders os s h :
  btnDisabled s h = true -> btnDisabled (appendOrders os s).1 h = true.
Proof.
  revert s. induction os as [|o os IH]; intros s H; [done|].
  simpl. destruct (createOrderElement o); [|done].
  by apply IH, riderws_btnDisabled_store_app.
Qed.

Lemma riderws_btnDisabled_ext s s' h :
  store s' = store s -> btnDisabled s h = true -> btnDisabled s' h = true.
Proof. unfold btnDisabled. by intros ->. Qed.

Lemma riderws_btnDisabled_updateOrdersList os s h :
  btnDisabled s h = true -> btnDisabled (updateOrdersList os s).1 h = true.
Proof.
  intros H. unfold updateOrdersList. destruct (listEl s); [|done].
  destruct os; [done|]. apply riderws_btnDisabled_appendOrders.
  by eapply riderws_btnDisabled_ext; [|exact H].
Qed.

Lemma riderws_btnDisabled_disable m k s h :
  btnDisabled s h = true -> btnDisabled (update_btn (disable m) k s) h = true.
Proof.
  unfold btnDisabled. rewrite lookup_update_btn. case_decide; [|done].
  by destruct (store s !! h).
Qed.

Lemma riderws_btnDisabled_other f k s h :
  k <> h -> btnDisabled s h = true -> btnDisabled (update_btn f k s) h = true.
Proof.
  intros Hne. unfold btnDisabled. rewrite lookup_update_btn.
  by rewrite decide_False.
Qed.

Lemma store_statusEl c s : store (updateConnectionStatus c s) = store s.
Proof. unfold updateConnectionStatus. by destruct (statusEl s). Qed.

Lemma store_removeOrderFromList o s : store (removeOrderFromList o s) = store s.
Proof.
  unfold removeOrderFromList. destruct (listEl s); [|done].
  by destruct (List.find _ _).
Qed.

Lemma riderws_btnDisabled_step s e h :
  btnDisabled s h = true -> releases h s e = false ->
  btnDisabled (step s e) h = true.
Proof.
  intros H Hrel. destruct e as [ev|k| |k|k r|p]; simpl.
  - destruct ev as [|d|[o|]| | |]; simpl;
      try (eapply riderws_btnDisabled_ext; [|exact H]; unfold onConnect;
           by rewrite store_statusEl).
    + unfold showNewOrderNotification. destruct (n_total_amount d); [|done].
      eapply riderws_btnDisabled_ext; [|exact H]. simpl. by destruct (notifying s).
    + destruct (Z.eqb o 0); [done|].
      eapply riderws_btnDisabled_ext; [|exact H]. simpl.
      apply store_removeOrderFromList.
    + done.
  - destruct (store s !! k) as [el|] eqn:Hk; [|done].
    destruct (attached s k && negb (disabled (el_btn el))); [|done].
    unfold acceptOrder. rewrite Hk. destruct (el_order el); [|done].
    eapply riderws_btnDisabled_ext; [|by apply (riderws_btnDisabled_disable AcceptingSpinner k)].
    done.
  - done.
  - destruct (intervals s !! k) as [[? []]|]; [|done].
    unfold updateRiderLocation. by destruct (geolocation s).
  - simpl in Hrel. destruct (inflight s !! k) as [[b txt|]|]; [| |done]; simpl.
    + apply Nat.eqb_neq in Hrel.
      assert (forall m s', btnDisabled s' h = true ->
                btnDisabled (acceptCaught m b txt s') h = true) as Hcaught.
      { intros m s' H'. unfold acceptCaught.
        apply riderws_btnDisabled_other; [done|]. by eapply riderws_btnDisabled_ext; [|exact H']. }
      destruct r as [ok data|reason]; simpl.
      * destruct (success data).
        -- destruct (redirect data) as [url|]; [destruct (String.eqb url "")|];
             by eapply riderws_btnDisabled_ext; [|exact H].
        -- apply Hcaught. by eapply riderws_btnDisabled_ext; [|exact H].
      * apply Hcaught. by eapply riderws_btnDisabled_ext; [|exact H].
    + unfold refreshSettled. destruct r as [[] data|reason]; try done.
      * destruct (orders data) as [os|].
        -- pose proof (riderws_btnDisabled_updateOrdersList os
                         (set_inflight (delete k (inflight s)) s) h H) as H'.
           destruct (updateOrdersList os _) as [s' []]; [done|].
           by eapply riderws_btnDisabled_ext; [|exact H'].
        -- simpl. by destruct (listEl s).
  - destruct (locating s); [done|]. destruct p as [[lat lng]|]; simpl; [|done].
    unfold positionFound. simpl. by destruct (connected s).
Qed.

Lemma riderws_btnDisabled_run es s h :
  btnDisabled s h = true -> held h s es = true ->
  btnDisabled (run s es) h = true.
Proof.
  revert s. induction es as [|e es IH]; intros s H Hheld; [done|].
  simpl in *. apply andb_prop in Hheld as [Hrel Hheld].
  apply negb_true_iff in Hrel. apply IH; [|done]. by apply riderws_btnDisabled_step.
Qed.

Lemma click_disabled s h : btnDisabled s h = true -> step s (ClickAccept h) = s.
Proof.
  unfold btnDisabled. simpl. destruct (store s !! h) as [el|]; [|done].
  intros ->. by rewrite andb_false_r.
Qed.

(** ** The connection handlers *)

Lemma riderId_step s e : riderId (step s e) = riderId s.
Proof.
  destruct e as [ev|k| |k|k r|p]; simpl.
  - destruct ev as [|d|[o|]| | |]; simpl; unfold onConnect, updateConnectionStatus;
      simpl; try (by destruct (statusEl s)).
    + unfold showNewOrderNotification. destruct (n_total_amount d); [|done].
      simpl. by destruct (notifying s).
    + destruct (Z.eqb o 0); [done|]. simpl. unfold removeOrderFromList.
      destruct (listEl s); [|done]. by destruct (List.find _ _).
  - destruct (store s !! k) as [el|] eqn:Hk; [|done].
    destruct (attached s k && negb (disabled (el_btn el))); [|done].
    unfold acceptOrder. rewrite Hk. destruct (el_order el); [|done].
    simpl. unfold update_btn. by rewrite Hk.
  - done.
  - destruct (intervals s !! k) as [[? []]|]; [|done].
    unfold updateRiderLocation. by destruct (geolocation s).
  - destruct (inflight s !! k) as [[b txt|]|]; [| |done]; simpl.
    + assert (forall m s', riderId (acceptCaught m b txt s') = riderId s')
        as Hcaught.
      { intros m s'. unfold acceptCaught, update_btn. simpl.
        by destruct (store s' !! b). }
      destruct r as [ok data|reason]; simpl; rewrite ?Hcaught; [|done].
      destruct (success data); rewrite ?Hcaught; [|done].
      destruct (redirect data) as [url|]; [by destruct (String.eqb url "")|done].
    + unfold refreshSettled. destruct r as [[] data|reason]; try done.
      destruct (orders data) as [os|]; [|simpl; by destruct (listEl s)].
      assert (forall os' s', riderId (appendOrders os' s').1 = riderId s')
        as Happ.
      { intros os'. induction os' as [|o' os' IH]; intros s'; [done|].
        simpl. destruct (createOrderElement o'); [|done]. by rewrite IH. }
      assert (riderId (updateOrdersList os
                         (set_inflight (delete k (inflight s)) s)).1 = riderId s)
        as Hupd.
      { unfold updateOrdersList. simpl. destruct (listEl s); [|done].
        destruct os; [done|]. by rewrite Happ. }
      by destruct (updateOrdersList os _) as [s' []].
  - destruct (locating s); [done|]. destruct p as [[lat lng]|]; simpl; [|done].
    unfold positionFound. simpl. by destruct (connected s).
Qed.

Lemma riderId_run es s : riderId (run s es) = riderId s.
Proof.
  revert s. induction es as [|e es IH]; intros s; [done|].
  simpl. by rewrite IH, riderId_step.
Qed.

Lemma riderws_emitted_connect s :
  emitted (step s (Socket Connect)) = emitted s ++ subscriptions (riderId s).
Proof. simpl. unfold onConnect, updateConnectionStatus. simpl. by destruct (statusEl s). Qed.

(** ** The timer *)


(** ** Rendering the list *)

Lemma orderList_appendOrders os s l :
  listEl s = Some l ->
  Forall (fun c => match c with
                   | OrderElem h => (h < length (store s))%nat
                   | NoOrdersAlert => True
                   end) l ->
  Forall renderable os ->
  (appendOrders os s).2 = Returned /\
  orderList (appendOrders os s).1 =
  orderList s ++ List.map (fun o => "order-" +:+ pretty (id o)) os.
Proof.
  revert s l. induction os as [|o os IH]; intros s l Hl Hvalid Hren.
  { simpl. by rewrite app_nil_r. }
  apply Forall_cons in Hren as [[e He] Hren]. simpl. rewrite He.
  assert (el_id e = "order-" +:+ pretty (id o)) as Hid.
  { unfold createOrderElement in He.
    destruct (items o), (total_amount o); try done.
    destruct (forallb _ _); [|done]. by injection He as <-. }
  destruct (IH (appendChild e s) (l ++ [OrderElem (length (store s))]))
    as [Hret Hlist].
  - simpl. by rewrite Hl.
  - simpl. rewrite length_app. simpl. apply Forall_app. split.
    + eapply Forall_impl; [exact Hvalid|]. intros [h|]; [lia|done].
    + constructor; [lia|constructor].
  - done.
  - split; [done|]. rewrite Hlist. cbn [List.map].
    rewrite cons_middle, (assoc_L (++)). f_equal.
    unfold orderList. simpl. rewrite Hl. simpl. rewrite omap_app. f_equal.
    + clear -Hvalid. induction Hvalid as [|c l' Hc _ IH']; [done|].
      cbn [omap list_omap]. rewrite IH'. destruct c as [h|]; [|done].
      by rewrite lookup_app_l.
    + cbn [omap list_omap]. rewrite lookup_app_r, Nat.sub_diag by lia.
      simpl. by rewrite Hid.
Qed.

Lemma orderList_updateOrdersList os s :
  is_Some (listEl s) -> Forall renderable os ->
  (updateOrdersList os s).2 = Returned /\
  orderList (updateOrdersList os s).1 =
  List.map (fun o => "order-" +:+ pretty (id o)) os.
Proof.
  intros [l Hl] Hren. unfold updateOrdersList. rewrite Hl.
  destruct os as [|o os]; [by unfold orderList|].
  by apply (orderList_appendOrders (o :: os) (set_listEl (Some []) s) []).
Qed.



(** ** Orders that cannot be rendered *)

Lemma appendOrders_app good rest s :
  Forall renderable good ->
  appendOrders (good ++ rest) s = appendOrders rest (appendOrders good s).1.
Proof.
  revert s. induction good as [|o good IH]; intros s Hgood; [done|].
  apply Forall_cons in Hgood as [[e He] Hgood]. simpl. rewrite He. by apply IH.
Qed.

Lemma appendOrders_quiet os s :
  console (appendOrders os s).1 = console s /\
  toasts (appendOrders os s).1 = toasts s /\
  net (appendOrders os s).1 = net s.
Proof.
  revert s. induction os as [|o os IH]; intros s; [done|].
  simpl. destruct (createOrderElement o) as [e|]; [|done].
  destruct (IH (appendChild e s)) as (-> & -> & ->). done.
Qed.





(** ** The location timer sends no snapshot request *)



End RiderWebSocketFacts.

(** * Facts about the SellerWebSocket class *)

Module SellerWebSocketFacts.
Import SellerWebSocket.

Lemma sellerId_updateOrderStatusUI o st d s :
  sellerId (updateOrderStatusUI o st d s) = sellerId s /\
  emitted (updateOrderStatusUI o st d s) = emitted s.
Proof. unfold updateOrderStatusUI. by destruct (existsb _ _). Qed.

Lemma sellerId_update_btn f h s :
  sellerId (update_btn f h s) = sellerId s /\
  emitted (update_btn f h s) = emitted s.
Proof. unfold update_btn. by destruct (btns s !! h). Qed.

Lemma sellerId_step s e : sellerId (step s e) = sellerId s.
Proof.
  destruct e as [ev|h|k r]; simpl.
  - destruct ev as [|d| |]; simpl; unfold onConnect, updateConnectionStatus;
      simpl; try (by destruct (statusEl s)).
    apply sellerId_updateOrderStatusUI.
  - destruct (btns s !! h) as [b|] eqn:Hb; [|done].
    destruct (attached s h && negb (disabled (sb_btn b))); [|done].
    unfold updateOrderStatus. rewrite Hb.
    destruct (sb_order b), (sb_status b) as [new|]; try done.
    destruct (String.eqb new ""); [done|]. simpl.
    apply sellerId_update_btn.
  - destruct (inflight s !! k) as [[o new b html]|]; [|done].
    unfold statusSettled. etransitivity; [apply sellerId_update_btn|].
    destruct r as [[] data|reason]; try done.
    destruct (String.eqb new "shipped"); simpl;
      by rewrite (proj1 (sellerId_updateOrderStatusUI _ _ _ _)).
Qed.

Lemma sellerId_run es s : sellerId (run s es) = sellerId s.
Proof.
  revert s. induction es as [|e es IH]; intros s; [done|].
  simpl. by rewrite IH, sellerId_step.
Qed.

Lemma seller_emitted_connect s :
  emitted (step s (Socket Connect)) = emitted s ++ subscriptions (sellerId s).
Proof.
  simpl. unfold onConnect, updateConnectionStatus. simpl. by destruct (statusEl s).
Qed.

(** A refused status change leaves the cards and the buttons as they were
    before the click. *)
Lemma refused_round_trip s h b o new r :
  btns s !! h = Some b -> attached s h = true -> disabled (sb_btn b) = false ->
  sb_order b = Some o -> sb_status b = Some new -> new <> "" ->
  refused r ->
  let s1 := step s (ClickStatus h) in
  let s2 := step s1 (Settle (length (inflight s)) r) in
  net s1 = net s ++ [PostStatus o new] /\
  cards s1 = cards s /\
  cards s2 = cards s /\ btns s2 = btns s /\
  net s2 = net s1 /\ inflight s2 = inflight s /\
  toasts s2 = toasts s ++ [{| title := "Error"; message := refusalText r;
                              kind := "error" |}].
Proof.
  intros Hb Hatt Hd Ho Hst Hnew Hr. simpl.
  rewrite Hb, Hatt, Hd. simpl. unfold updateOrderStatus.
  rewrite Hb, Ho, Hst. apply String.eqb_neq in Hnew. rewrite Hnew.
  cbn [inflight set_inflight net set_net cards].
  assert (cards (update_btn (disable BareSpinner) h s) = cards s) as Hc
    by (unfold update_btn; by rewrite Hb).
  assert (inflight (update_btn (disable BareSpinner) h s) = inflight s) as Hi
    by (unfold update_btn; by rewrite Hb).
  assert (net (update_btn (disable BareSpinner) h s) = net s) as Hn
    by (unfold update_btn; by rewrite Hb).
  assert (toasts (update_btn (disable BareSpinner) h s) = toasts s) as Ht
    by (unfold update_btn; by rewrite Hb).
  rewrite Hi, Hn, Hc. rewrite lookup_app_r, Nat.sub_diag by lia.
  cbn [lookup list_lookup]. unfold statusSettled.
  assert (delete (length (inflight s)) (inflight s ++ [PStatus o new h (innerHTML (sb_btn b))])
          = inflight s) as Hdel.
  { apply delete_last. }
  assert (forall m s',
            cards s' = cards s -> inflight s' = inflight s ->
            toasts s' = toasts s ->
            btns s' = <[h := set_btn (disable BareSpinner (sb_btn b)) b]> (btns s) ->
            let s2 := update_btn (enable (innerHTML (sb_btn b))) h
                        (statusCaught m s') in
            cards s2 = cards s /\ btns s2 = btns s /\ net s2 = net s' /\
            inflight s2 = inflight s /\
            toasts s2 = toasts s ++ [{| title := "Error";
                                        message := or_else (Some m)
                                          "Failed to update order status";
                                        kind := "error" |}]) as Hcaught.
  { intros m s' Hc' Hi' Ht' Hb'. unfold update_btn, statusCaught. simpl.
    rewrite Hb'. rewrite list_lookup_insert_eq by by eapply lookup_lt_Some.
    simpl. rewrite list_insert_insert_eq, Hc', Hi', Ht'.
    split_and!; try done. apply list_insert_id. rewrite Hb. f_equal.
    destruct b as [? ? ? ? [d mk]]. simpl in *. by subst. }
  split; [done|]. split; [done|].
  assert (btns (set_inflight
                  (delete (length (inflight s))
                     (inflight s ++ [PStatus o new h (innerHTML (sb_btn b))]))
                  (set_inflight
                     (inflight s ++ [PStatus o new h (innerHTML (sb_btn b))])
                     (set_net (net s ++ [PostStatus o new])
                        (update_btn (disable BareSpinner) h s))))
          = <[h := set_btn (disable BareSpinner (sb_btn b)) b]> (btns s)) as Hbt.
  { simpl. unfold update_btn. by rewrite Hb. }
  destruct r as [ok data|reason]; simpl in Hr.
  - subst ok. unfold refusalText.
    assert (or_else (Some (or_else (msg data) "Failed to update status"))
              "Failed to update order status"
            = or_else (msg data) "Failed to update status") as Hmsg.
    { unfold or_else. destruct (msg data) as [m|]; [|done].
      destruct (String.eqb m "") eqn:E; [done|]. by rewrite E. }
    lazymatch goal with
    | |- context [statusCaught ?m ?s'] =>
        destruct (Hcaught m s') as (H1 & H2 & H3 & H4 & H5);
          [simpl; rewrite ?Hdel; done..|]
    end.
    rewrite Hmsg in H5. done.
  - unfold refusalText. apply Hcaught; simpl; rewrite ?Hdel; done.
Qed.

End SellerWebSocketFacts.

(** * Facts about rider_dashboard.js *)

Module RiderDashboardFacts.
Import RiderDashboard.

Lemma add_without_container upd o s :
  container s = None ->
  addOrderToAvailableOrders upd o s =
  (log error "Available orders container not found" s, Returned).
Proof. unfold addOrderToAvailableOrders. by intros ->. Qed.

Lemma add_existing upd o s :
  order_id o ∈ orderSet s ->
  let r := addOrderToAvailableOrders upd o s in
  r.2 = Returned /\ container r.1 = container s /\
  length (store r.1) = length (store s).
Proof.
  unfold orderSet, addOrderToAvailableOrders.
  destruct (container s) as [l|] eqn:Hc; [|by intros ?%elem_of_nil].
  intros (h & Hh & Hl)%list_elem_of_omap.
  destruct (store s !! h) as [c|] eqn:Hs; [|done].
  simpl in Hl. injection Hl as Hid. cbn [container hideNoOrders store].
  destruct (List.find _ l) as [k|] eqn:Hf.
  - apply find_some in Hf as [_ Hk].
    destruct (store s !! k) as [ck|] eqn:Hsk; [|done]. simpl.
    by rewrite length_insert.
  - exfalso. apply list_elem_of_In in Hh.
    pose proof (find_none _ _ Hf _ Hh) as Hn. simpl in Hn.
    rewrite Hs, Hid, Z.eqb_refl in Hn. done.
Qed.

Lemma add_without_template upd o s :
  is_Some (container s) -> template s = false -> order_id o ∉ orderSet s ->
  let r := addOrderToAvailableOrders upd o s in
  r.2 = Returned /\ container r.1 = container s /\ store r.1 = store s /\
  console r.1 = console s ++ [(error, "Order card template not found")].
Proof.
  intros [l Hc] Ht Hno. unfold addOrderToAvailableOrders. rewrite Hc.
  destruct (List.find _ l) as [k|] eqn:Hf.
  - exfalso. apply find_some in Hf as [Hk Hp]. simpl in Hp.
    destruct (store s !! k) as [ck|] eqn:Hsk; [|done].
    apply Z.eqb_eq in Hp. apply Hno. unfold orderSet. rewrite Hc.
    apply list_elem_of_omap. exists k. rewrite Hsk. simpl.
    split; [by apply list_elem_of_In|by rewrite Hp].
  - simpl. by rewrite Ht.
Qed.

End RiderDashboardFacts.

(** * The properties of the specification *)

Module AO := AvailableOrders.
Module AOF := AvailableOrdersFacts.
Module RW := RiderWebSocket.
Module RWF := RiderWebSocketFacts.
Module SW := SellerWebSocket.
Module SWF := SellerWebSocketFacts.
Module RD := RiderDashboard.
Module RDF := RiderDashboardFacts.

(** ** Remove and late add *)




(** ** Deduplicating add *)

(** C3: adding an order whose id is already in the order set changes neither
    the order set nor the cards, whichever way the first copy arrived (any
    state in which the id is present, in particular the state after a push
    add or after a snapshot that contains the order); a second add after a
    first one is therefore absorbed, and the ids stay distinct.  On the
    dashboard an add for a present id rewrites the existing card and creates
    no card. *)
Theorem C3_add_is_idempotent
    (s : AO.State) (o : AO.Order) (d : AO.NewOrderPayload) :
  AO.payloadOrder d = o ->
  (AO.elemId (AO.id o) ∈ AO.orderSet s ->
     AO.store (AO.addOrderCard o s) = AO.store s /\
     AO.container (AO.addOrderCard o s) = AO.container s /\
     AO.orderSet (AO.handleNewOrder d s) = AO.orderSet s /\
     AO.store (AO.handleNewOrder d s) = AO.store s) /\
  AO.orderSet (AO.addOrderCard o (AO.addOrderCard o s)) =
    AO.orderSet (AO.addOrderCard o s) /\
  AO.orderSet (AO.handleNewOrder d (AO.handleNewOrder d s)) =
    AO.orderSet (AO.handleNewOrder d s) /\
  (forall data os,
     AO.success data = true -> AO.orders data = Some os -> o ∈ os ->
     is_Some (AO.container s) -> is_Some (AO.template s) ->
     AO.orderSet (AO.handleNewOrder d (AO.ordersLoaded data s)) =
       AO.orderSet (AO.ordersLoaded data s)) /\
  (AO.wf s -> NoDup (AO.orderSet (AO.addOrderCard o s)) /\
              NoDup (AO.orderSet (AO.handleNewOrder d s))) /\
  (forall upd (ds : RD.State) (o' : RD.Order),
     RD.order_id o' ∈ RD.orderSet ds ->
     RD.container (RD.addOrderToAvailableOrders upd o' ds).1 = RD.container ds /\
     length (RD.store (RD.addOrderToAvailableOrders upd o' ds).1) =
       length (RD.store ds)).
Proof.
  intros Hd. split_and!.
  - intros Hin. destruct (AOF.addOrderCard_present o s Hin) as [Hs Hc].
    rewrite <- Hd in Hin.
    destruct (AOF.orderSet_handleNewOrder_present d s Hin) as [Ho Hs'].
    done.
  - apply AOF.orderSet_addOrderCard_twice.
  - apply AOF.orderSet_handleNewOrder_twice.
  - intros data os Hsucc Hos Hin Hc Ht.
    apply AOF.orderSet_handleNewOrder_present. rewrite Hd.
    rewrite (AOF.ordersLoaded_success data os) by done.
    destruct os as [|o1 os]; [by apply elem_of_nil in Hin|].
    apply AOF.fold_addOrderCard_adds; [|done|done].
    simpl. destruct Hc as [c ->]. simpl. eauto.
  - intros Hwf. split.
    + by apply AOF.addOrderCard_wf.
    + by apply AOF.handleNewOrder_wf.
  - intros upd ds o' Hin.
    by destruct (RDF.add_existing upd o' ds Hin) as (_ & ? & ?).
Qed.

(** C3 on the page that shows orders 1 and 2: order 2 arrives once more. *)
Lemma C3_add_is_idempotent_witness :
  AO.orderSet (AO.handleNewOrder (AO.Wrapped AO.order2) AO.demoLoaded) =
    AO.orderSet AO.demoLoaded /\
  AO.store (AO.addOrderCard AO.order2 AO.demoLoaded) = AO.store AO.demoLoaded /\
  NoDup (AO.orderSet (AO.addOrderCard AO.order2 AO.demoLoaded)) /\
  RD.container (RD.addOrderToAvailableOrders (fun c _ => c) RD.order5 RD.demo).1
    = RD.container RD.demo.
Proof.
  destruct (C3_add_is_idempotent AO.demoLoaded AO.order2 (AO.Wrapped AO.order2)
              eq_refl) as (Hpresent & _ & _ & _ & Hnodup & Hdash).
  destruct Hpresent as (Hs & _ & Ho & _).
  { vm_compute. apply list_elem_of_In. simpl. auto. }
  destruct Hnodup as [Hn _].
  { apply AOF.run_wf, AOF.wf_no_cards. reflexivity. }
  destruct (Hdash (fun c _ => c) RD.demo RD.order5) as [Hc _].
  { vm_compute. apply list_elem_of_In. simpl. auto. }
  done.
Defined.

(** ** A rider's own acceptance *)

(** C9: [order_accepted] for this page's own rider leaves the state as it
    is; for any other rider it is [removeOrderCard] of the order, which
    schedules the removal of the attached card, and the id is gone from the
    order set once the timeout ran. *)
Theorem C9_own_acceptance_keeps_the_card
    (s : AO.State) (own : Z) (data : AO.AcceptedPayload) :
  AO.riderId s = Some own ->
  (AO.a_rider_id data = own -> AO.handleOrderAccepted data s = s) /\
  (AO.a_rider_id data <> own ->
     AO.handleOrderAccepted data s =
       AO.removeOrderCard (Some (AO.a_order_id data)) s /\
     forall h,
       NoDup (AO.orderSet s) ->
       AO.getCard s (AO.elemId (AO.a_order_id data)) = Some h ->
       AO.timers (AO.handleOrderAccepted data s) = AO.timers s ++ [AO.FadeOut h] /\
       AO.elemId (AO.a_order_id data) ∉
         AO.orderSet (AO.runTimeout (AO.FadeOut h) (AO.handleOrderAccepted data s))).
Proof.
  intros Hown. unfold AO.handleOrderAccepted, AO.differs. rewrite Hown. split.
  - intros ->. by rewrite Z.eqb_refl.
  - intros Hne. apply Z.eqb_neq in Hne. rewrite Hne. simpl. split; [done|].
    intros h Hnd Hg. unfold AO.removeOrderCard.
    change (AO.elemIdOf (Some (AO.a_order_id data)))
      with (AO.elemId (AO.a_order_id data)).
    rewrite Hg. split; [done|]. simpl. apply AOF.fadeOutDone_removes.
    + unfold AO.orderSet, AO.attached in *. simpl.
      by rewrite AOF.idsOf_update_card.
    + rewrite <- Hg.
      by apply (AOF.getCard_update_card AO.set_fading h
                  (AO.set_timers (AO.timers s ++ [AO.FadeOut h]) s)).
Qed.

(** C9 on the page of rider 7: the rider's own acceptance of order 2, and
    the acceptance of order 2 by rider 8. *)
Lemma C9_own_acceptance_keeps_the_card_witness :
  AO.handleOrderAccepted {| AO.a_order_id := 2; AO.a_rider_id := 7 |} AO.demoLoaded
    = AO.demoLoaded /\
  AO.handleOrderAccepted {| AO.a_order_id := 2; AO.a_rider_id := 8 |} AO.demoLoaded
    = AO.removeOrderCard (Some 2) AO.demoLoaded.
Proof.
  split.
  - apply (C9_own_acceptance_keeps_the_card AO.demoLoaded 7
             {| AO.a_order_id := 2; AO.a_rider_id := 7 |}); reflexivity.
  - apply (C9_own_acceptance_keeps_the_card AO.demoLoaded 7
             {| AO.a_order_id := 2; AO.a_rider_id := 8 |}); [reflexivity|].
    simpl. lia.
Defined.

(** ** Snapshots *)




(** ** The no-orders message *)

(** C10, as the specification states it, fails on the code: starting a
    snapshot fetch hides the container and the message together.  On the
    page that shows orders 1 and 2 the periodic refresh leaves no order
    visible and no message shown, and a failed fetch keeps it so. *)
Lemma C10_fetch_start_hides_orders_and_message :
  let loading := AO.step AO.demoLoaded (AO.Tick 0) in
  let failed := AO.step loading (AO.Settle 0 AO.Rejected) in
  AO.emptyShown AO.demoLoaded /\
  ~ AO.emptyShown loading /\
  AO.visibleSet failed = [] /\ AO.messageShown failed = false /\
  ~ AO.emptyShown failed.
Proof.
  unfold AO.emptyShown. vm_compute. split_and!; try done.
  - intros [_ H]. by specialize (H eq_refl).
  - intros [_ H]. by specialize (H eq_refl).
Qed.

(** C10, amended: every event whose handler does not start a snapshot fetch
    keeps the no-orders message shown exactly when no order is visible.  The
    answer to a fetch establishes that, whatever the state was; a push add
    shows the container and hides the message; a removal that empties the
    container hides it and shows the message. *)
Theorem C10_message_follows_the_visible_set (s : AO.State) :
  AO.wf s -> AO.domReady s ->
  (forall e, AO.startsFetch e = false ->
             AO.emptyShown s -> AO.emptyShown (AO.step s e)) /\
  (forall data, AO.emptyShown (AO.ordersLoaded data s)) /\
  (forall d, AO.id (AO.payloadOrder d) <> 0 ->
             AO.visibleSet (AO.handleNewOrder d s) <> [] /\
             AO.messageShown (AO.handleNewOrder d s) = false) /\
  (forall h, filter (fun k => k <> h) (AO.attached s) = [] ->
             AO.visibleSet (AO.fadeOutDone h s) = [] /\
             AO.messageShown (AO.fadeOutDone h s) = true).
Proof.
  intros Hwf Hr. split_and!.
  - intros e He Hinv. by apply AOF.emptyShown_step.
  - intros data. by apply AOF.emptyShown_ordersLoaded.
  - intros d Hd.
    assert (AO.emptyShown (AO.handleNewOrder d s)) as Hinv
      by (apply AOF.emptyShown_handleNewOrder; [done|congruence]).
    assert (AO.messageShown (AO.handleNewOrder d s) = false) as Hm.
    { unfold AO.handleNewOrder. apply Z.eqb_neq in Hd. rewrite Hd.
      unfold AO.messageShown. simpl.
      destruct (AOF.addOrderCard_keeps_elements (AO.payloadOrder d)
                  (AO.set_noOrdersEl (AO.show_if_present none (AO.noOrdersEl s))
                     (AO.set_container
                        (AO.set_c_display block <$> AO.container s) s)))
        as (_ & _ & ->).
      simpl. by destruct (AO.noOrdersEl s). }
    split; [|done]. intros Hnil. apply Hinv in Hnil. congruence.
  - intros h Hempty. destruct Hr as [[c Hc] _ [m Hm]].
    unfold AO.attached in Hempty. rewrite Hc in Hempty.
    unfold AO.fadeOutDone, AO.visibleSet, AO.messageShown.
    rewrite Hc, Hempty. simpl. by rewrite Hm.
Qed.

(** The amended C10 on the page that shows order 5 alone: the card fades
    out after [order_taken]. *)
Lemma C10_message_follows_the_visible_set_witness :
  AO.visibleSet (AO.fadeOutDone 0 AO.demoFive) = [] /\
  AO.messageShown (AO.fadeOutDone 0 AO.demoFive) = true /\
  AO.emptyShown (AO.step AO.demoFive (AO.Socket AO.Disconnect)).
Proof.
  destruct (C10_message_follows_the_visible_set AO.demoFive)
    as (Hstep & _ & _ & Hfade).
  - apply AOF.run_wf, AOF.wf_no_cards. reflexivity.
  - split; vm_compute; eauto.
  - split_and!; [by apply Hfade..|].
    apply Hstep; [reflexivity|].
    unfold AO.emptyShown. vm_compute. split; discriminate.
Defined.

(** ** The accept control while a request is pending *)

(** C2, as the specification states it, fails on the code: [acceptOrder]
    keeps no record of pending requests.  Order 5 is accepted from its card;
    while that request is pending the list is refreshed, and the snapshot
    renders a new card for order 5 whose button is enabled; a click on it
    sends a second request for order 5. *)
Lemma C2_second_request_while_first_is_pending :
  let s := AO.run AO.demoFive
             [AO.ClickAccept 0 true; AO.ClickRefresh;
              AO.Settle 1 (AO.Body (AO.snapshot [AO.order5]));
              AO.ClickAccept 1 true] in
  AO.inflight s = [AO.PAccept 5 (Some 0%nat); AO.PAccept 5 (Some 1%nat)] /\
  AO.net s = [AO.GetAvailableOrders; AO.PostAccept 5; AO.GetAvailableOrders;
              AO.PostAccept 5].
Proof. by vm_compute. Qed.

Lemma riderws_first_click (s : RW.State) (h : nat) (e : RW.OrderEl) (o : Z) :
  RW.store s !! h = Some e -> RW.attached s h = true ->
  disabled (RW.el_btn e) = false -> RW.el_order e = Some o ->
  let s1 := RW.step s (RW.ClickAccept h) in
  RW.btnDisabled s1 h = true /\
  RW.net s1 = RW.net s ++ [RW.PostAccept o] /\
  RW.inflight s1 = RW.inflight s ++ [RW.PAccept h (innerHTML (RW.el_btn e))] /\
  RW.listEl s1 = RW.listEl s /\ RW.toasts s1 = RW.toasts s /\
  RW.redirects s1 = RW.redirects s /\
  RW.store s1 = <[h := RW.set_btn (disable AcceptingSpinner (RW.el_btn e)) e]>
                  (RW.store s).
Proof.
  intros He Hatt Hd Ho. simpl. rewrite He, Hatt, Hd. simpl.
  unfold RW.acceptOrder. rewrite Ho, He. unfold RW.update_btn. rewrite He.
  simpl. split_and!; try done.
  unfold RW.btnDisabled. simpl.
  by rewrite list_lookup_insert_eq by by eapply lookup_lt_Some.
Qed.

(** The button of card [h] is enabled again by a refused answer to any
    request that holds it. *)
Lemma refusal_enables_the_held_button
    (s : AO.State) (h k : nat) (o : Z) (c : AO.Card) (b : Button) (r : AO.Response) :
  AO.inflight s !! k = Some (AO.PAccept o (Some h)) ->
  AO.store s !! h = Some c -> AO.accept_btn c = Some b -> AO.refused r ->
  AO.btnDisabled (AO.step s (AO.Settle k r)) h = false /\
  AO.releases h s (AO.Settle k r) = true.
Proof.
  intros Hk Hc Hb Hr. split; [|by simpl; rewrite Hk, Nat.eqb_refl].
  simpl. rewrite Hk. unfold AO.btnDisabled.
  destruct r as [data|]; simpl in Hr; simpl.
  - unfold AO.acceptAnswered. rewrite Hr. simpl.
    rewrite AOF.lookup_update_card, decide_True by done.
    rewrite Hc. simpl. by rewrite Hb.
  - rewrite AOF.lookup_update_card, decide_True by done.
    rewrite Hc. simpl. by rewrite Hb.
Qed.

(** C2, amended: the guard is the disabled control.  A click on the enabled
    accept button of an attached card sends one request and disables that
    button.  [acceptOrder] keeps no record of the request and finds the
    button through the element id of the order, so the accept button of the
    details modal for the same order sends a second request, which holds the
    same button.  The button stays disabled through every event that does
    not settle a request holding it, and a click on it in that time changes
    nothing: no request is sent and none is recorded; a refused answer to a
    request that holds the button enables it again, whichever call sent
    that request.  On the RiderWebSocket dashboard a request holds the
    button that was clicked, and the same guard applies. *)
Theorem C2_disabled_control_sends_no_second_request :
  (forall (s : AO.State) (h : nat) (o : Z) (es : list AO.Event) (confirmed : bool),
     AO.wf s -> AO.clickable s h = Some o ->
     let s1 := AO.step s (AO.ClickAccept h true) in
     let modal := AO.step s1 (AO.ModalAccept o true) in
     AO.net s1 = AO.net s ++ [AO.PostAccept o] /\
     AO.inflight s1 = AO.inflight s ++ [AO.PAccept o (Some h)] /\
     AO.btnDisabled s1 h = true /\
     AO.net modal = AO.net s1 ++ [AO.PostAccept o] /\
     AO.inflight modal = AO.inflight s1 ++ [AO.PAccept o (Some h)] /\
     (AO.held h s1 es = true ->
      AO.btnDisabled (AO.run s1 es) h = true /\
      AO.step (AO.run s1 es) (AO.ClickAccept h confirmed) = AO.run s1 es) /\
     (forall (s' : AO.State) (k : nat) (o' : Z) (c : AO.Card) (b : Button)
             (r : AO.Response),
        AO.inflight s' !! k = Some (AO.PAccept o' (Some h)) ->
        AO.store s' !! h = Some c -> AO.accept_btn c = Some b -> AO.refused r ->
        AO.releases h s' (AO.Settle k r) = true /\
        AO.btnDisabled (AO.step s' (AO.Settle k r)) h = false)) /\
  (forall (s : RW.State) (h : nat) (e : RW.OrderEl) (o : Z) (es : list RW.Event),
     RW.store s !! h = Some e -> RW.attached s h = true ->
     disabled (RW.el_btn e) = false -> RW.el_order e = Some o ->
     let s1 := RW.step s (RW.ClickAccept h) in
     RW.held h s1 es = true ->
     RW.net s1 = RW.net s ++ [RW.PostAccept o] /\
     RW.inflight s1 = RW.inflight s ++ [RW.PAccept h (innerHTML (RW.el_btn e))] /\
     RW.btnDisabled (RW.run s1 es) h = true /\
     RW.step (RW.run s1 es) (RW.ClickAccept h) = RW.run s1 es).
Proof.
  split.
  - intros s h o es confirmed Hwf Hclick s1 modal.
    destruct (AOF.acceptOrder_first_click s h o Hwf Hclick)
      as (Hdis & Hnet & Hfl & _).
    fold s1 in Hdis, Hnet, Hfl.
    pose proof (AOF.acceptBtnOf_after_click s h o Hwf Hclick) as Hbtn.
    fold s1 in Hbtn.
    split_and!; try done.
    + subst modal. simpl. unfold AO.acceptOrder. rewrite Hbtn. done.
    + subst modal. simpl. unfold AO.acceptOrder. rewrite Hbtn. done.
    + intros Hheld.
      pose proof (AOF.btnDisabled_run es s1 h Hdis Hheld) as Hrun.
      split; [done|]. simpl. by rewrite (AOF.clickable_disabled _ _ Hrun).
    + intros s' k o' c b r Hk Hc Hb Hr.
      by destruct (refusal_enables_the_held_button s' h k o' c b r).
  - intros s h e o es He Hatt Hd Ho s1 Hheld.
    destruct (riderws_first_click s h e o He Hatt Hd Ho) as (Hdis & Hnet & Hfl & _).
    fold s1 in Hdis, Hnet, Hfl.
    pose proof (RWF.riderws_btnDisabled_run es s1 h Hdis Hheld) as Hrun.
    split_and!; try done. by apply RWF.click_disabled.
Qed.

(** The amended C2 for order 5: after the click the connection drops and
    the periodic timer fires, and the rider clicks the button again; the
    accept button of the details modal sends a second request, and its
    refusal enables the button of the card while the first request is
    pending. *)
Lemma C2_disabled_control_sends_no_second_request_witness :
  (let s1 := AO.step AO.demoFive (AO.ClickAccept 0 true) in
   let es := [AO.Socket AO.Disconnect; AO.Tick 0] in
   let modal := AO.step s1 (AO.ModalAccept 5 true) in
   AO.net s1 = AO.net AO.demoFive ++ [AO.PostAccept 5] /\
   AO.step (AO.run s1 es) (AO.ClickAccept 0 true) = AO.run s1 es /\
   AO.inflight modal = [AO.PAccept 5 (Some 0%nat); AO.PAccept 5 (Some 0%nat)] /\
   AO.btnDisabled (AO.step modal (AO.Settle 1 AO.Rejected)) 0 = false) /\
  (let s1 := RW.step RW.demo (RW.ClickAccept 0) in
   let es := [RW.Socket RW.Disconnect; RW.Tick 0] in
   RW.net s1 = RW.net RW.demo ++ [RW.PostAccept 5] /\
   RW.step (RW.run s1 es) (RW.ClickAccept 0) = RW.run s1 es).
Proof.
  destruct C2_disabled_control_sends_no_second_request as [Hao Hrw]. split.
  - destruct (Hao AO.demoFive 0%nat 5 [AO.Socket AO.Disconnect; AO.Tick 0] true)
      as (Hnet & _ & _ & _ & Hmodal & Hheld & Hrel).
    + apply AOF.run_wf, AOF.wf_no_cards. reflexivity.
    + reflexivity.
    + destruct Hheld as [_ Hclick]; [reflexivity|].
      split_and!; [exact Hnet|exact Hclick|exact Hmodal|].
      eapply (Hrel _ 1%nat 5); [reflexivity|reflexivity|reflexivity|exact I].
  - destruct (Hrw RW.demo 0%nat
                {| RW.el_id := "order-5"; RW.el_order := Some 5;
                   RW.el_btn := {| disabled := false;
                                   innerHTML := Literal "Accept Order" |} |}
                5 [RW.Socket RW.Disconnect; RW.Tick 0])
      as (Hnet & _ & _ & Hclick); try reflexivity.
    by split.
Defined.

(** The run of the details modal in full: order 5 is accepted from its
    card and again from the modal; the refusal of the second request
    enables the button of the card while the first request is pending, and
    the next click on it sends a third request. *)
Lemma modal_refusal_enables_the_card_button :
  let s := AO.run AO.demoFive
             [AO.ClickAccept 0 true; AO.ModalAccept 5 true;
              AO.Settle 1 AO.Rejected] in
  AO.inflight s = [AO.PAccept 5 (Some 0%nat)] /\
  AO.btnDisabled s 0 = false /\
  AO.net (AO.step s (AO.ClickAccept 0 true)) =
    [AO.GetAvailableOrders; AO.PostAccept 5; AO.PostAccept 5; AO.PostAccept 5].
Proof. by vm_compute. Qed.

(** ** A refused action *)

(** C5, as the specification states it, fails on the code for the seller's
    status change: [updateOrderStatus] tells failure by the HTTP status
    alone.  An OK response whose body says [success: false] is handled as a
    success: the toast is a success toast and [updateOrderStatusUI] rewrites
    the badge and the buttons of the card. *)
Lemma C5_seller_reads_rejection_in_ok_body_as_success :
  let s := SW.run SW.demo [SW.ClickStatus 0; SW.Settle 0 SW.rejectedInBody] in
  SW.toasts s = [{| title := "Success"; message := "Order cannot be confirmed";
                    kind := "success" |}] /\
  SW.cards s = [{| SW.sc_id := "order-5";
                   SW.sc_badge := Some {| SW.b_class := "badge bg-secondary";
                                          SW.b_text := None |};
                   SW.sc_actions := Some [] |}] /\
  SW.cards s <> SW.cards SW.demo.
Proof. vm_compute. split_and!; [done|done|discriminate]. Qed.

Lemma available_orders_refused_round_trip
    (s : AO.State) (h : nat) (o : Z) (c : AO.Card) (r : AO.Response) :
  AO.wf s -> AO.clickable s h = Some o -> AO.store s !! h = Some c ->
  AO.refused r ->
  let s1 := AO.step s (AO.ClickAccept h true) in
  let s2 := AO.step s1 (AO.Settle (length (AO.inflight s)) r) in
  AO.container s2 = AO.container s /\ AO.orderSet s2 = AO.orderSet s /\
  AO.timers s2 = AO.timers s /\
  AO.net s2 = AO.net s1 /\ AO.inflight s2 = AO.inflight s /\
  AO.toasts s2 = AO.toasts s ++ [AO.refusalToast r] /\
  AO.store s2 = <[h := AO.map_btn (enable AcceptLabel) c]> (AO.store s).
Proof.
  intros Hwf Hclick Hc Hr s1 s2.
  assert (s1 = AO.set_inflight (AO.inflight s ++ [AO.PAccept o (Some h)])
                 (AO.set_net (AO.net s ++ [AO.PostAccept o])
                    (AO.set_store
                       (AO.update_card (AO.map_btn (disable AcceptingSpinner)) h
                          (AO.store s)) s))) as Hs1.
  { subst s1. simpl. rewrite Hclick. unfold AO.acceptOrder.
    by rewrite (AOF.acceptBtnOf_clickable s h o). }
  assert (AO.update_card (AO.map_btn (enable AcceptLabel)) h
            (AO.update_card (AO.map_btn (disable AcceptingSpinner)) h (AO.store s))
          = <[h := AO.map_btn (enable AcceptLabel) c]> (AO.store s)) as Hstore.
  { unfold AO.update_card at 2. rewrite Hc. unfold AO.update_card.
    rewrite list_lookup_insert_eq by by eapply lookup_lt_Some.
    rewrite list_insert_insert_eq. f_equal.
    destruct c as [? ? ? ? [b|]]; done. }
  assert (AO.orderSet (AO.set_store
            (<[h := AO.map_btn (enable AcceptLabel) c]> (AO.store s)) s)
          = AO.orderSet s) as Hset.
  { rewrite <- (AOF.orderSet_update_btn (enable AcceptLabel) (Some h) s).
    simpl. unfold AO.update_card. by rewrite Hc. }
  subst s2. rewrite Hs1. simpl. rewrite lookup_last, delete_last.
  destruct r as [data|]; simpl in Hr; simpl.
  - unfold AO.acceptAnswered. rewrite Hr. simpl. rewrite Hstore.
    split_and!; done.
  - rewrite Hstore. split_and!; done.
Qed.

Lemma riderws_refused_round_trip
    (s : RW.State) (h : nat) (e : RW.OrderEl) (o : Z) (r : RW.Response) :
  RW.store s !! h = Some e -> RW.attached s h = true ->
  disabled (RW.el_btn e) = false -> RW.el_order e = Some o ->
  RW.refused r ->
  let s1 := RW.step s (RW.ClickAccept h) in
  let s2 := RW.step s1 (RW.Settle (length (RW.inflight s)) r) in
  RW.listEl s2 = RW.listEl s /\ RW.store s2 = RW.store s /\
  RW.net s2 = RW.net s1 /\ RW.inflight s2 = RW.inflight s /\
  RW.redirects s2 = RW.redirects s /\
  RW.toasts s2 = RW.toasts s ++ [{| title := "Error";
                                    message := RW.refusalText r;
                                    kind := "error" |}].
Proof.
  intros He Hatt Hd Ho Hr s1 s2.
  destruct (riderws_first_click s h e o He Hatt Hd Ho)
    as (_ & Hnet & Hfl & Hl & Ht & Hred & Hst).
  fold s1 in Hnet, Hfl, Hl, Ht, Hred, Hst.
  assert (forall m s',
            RW.store s' = RW.store s1 -> RW.listEl s' = RW.listEl s1 ->
            RW.toasts s' = RW.toasts s1 -> RW.redirects s' = RW.redirects s1 ->
            let s3 := RW.acceptCaught m h (innerHTML (RW.el_btn e)) s' in
            RW.listEl s3 = RW.listEl s /\ RW.store s3 = RW.store s /\
            RW.net s3 = RW.net s' /\ RW.inflight s3 = RW.inflight s' /\
            RW.redirects s3 = RW.redirects s /\
            RW.toasts s3 = RW.toasts s ++
              [{| title := "Error";
                  message := or_else (Some m) "Failed to accept order";
                  kind := "error" |}]) as Hcaught.
  { intros m s' Hs' Hl' Ht' Hr'. unfold RW.acceptCaught, RW.update_btn. simpl.
    rewrite Hs', Hst.
    rewrite list_lookup_insert_eq by by eapply lookup_lt_Some.
    simpl. rewrite list_insert_insert_eq, Hl', Hl, Ht', Ht, Hr', Hred.
    split_and!; try done. apply list_insert_id. rewrite He. f_equal.
    destruct e as [? ? [d mk]]. simpl in *. by subst. }
  assert (forall data, or_else (Some (or_else (RW.msg data) "Failed to accept order"))
                         "Failed to accept order"
                       = or_else (RW.msg data) "Failed to accept order") as Hmsg.
  { intros data. unfold or_else. destruct (RW.msg data) as [m|]; [|done].
    destruct (String.eqb m "") eqn:E; [done|]. by rewrite E. }
  subst s2. simpl. rewrite Hfl, lookup_last, delete_last. simpl.
  destruct r as [ok data|reason]; simpl in Hr; simpl.
  - rewrite Hr.
    destruct (Hcaught (or_else (RW.msg data) "Failed to accept order")
                (RW.set_inflight (RW.inflight s) s1))
      as (H1 & H2 & H3 & H4 & H5 & H6); try done.
    rewrite Hmsg in H6. done.
  - by apply (Hcaught reason (RW.set_inflight (RW.inflight s) s1)).
Qed.

(** C5, amended: a refused accept (the request failed, or the answer says
    [success: false]) and a refused status change (the request failed, or
    the response is not OK) leave the order set as it was before the click:
    nothing is removed or rewritten while the request is pending or when it
    is refused.  The control is enabled again, with the accept label on the
    available-orders page and with the markup it had before the click on
    the two dashboards; the error toast carries the server's message when
    there is one and a fixed text otherwise; and the only request sent is
    the one of the click. *)
Theorem C5_refused_action_is_rolled_back :
  (forall (s : AO.State) (h : nat) (o : Z) (c : AO.Card) (r : AO.Response),
     AO.wf s -> AO.clickable s h = Some o -> AO.store s !! h = Some c ->
     AO.refused r ->
     let s1 := AO.step s (AO.ClickAccept h true) in
     let s2 := AO.step s1 (AO.Settle (length (AO.inflight s)) r) in
     (AO.orderSet s1 = AO.orderSet s /\ AO.container s1 = AO.container s /\
      AO.timers s1 = AO.timers s) /\
     (AO.orderSet s2 = AO.orderSet s /\ AO.container s2 = AO.container s /\
      AO.timers s2 = AO.timers s) /\
     AO.btnDisabled s2 h = false /\
     (AO.accept_btn c = Some {| disabled := false; innerHTML := AcceptLabel |} ->
      AO.store s2 = AO.store s) /\
     AO.toasts s2 = AO.toasts s ++ [AO.refusalToast r] /\
     AO.net s2 = AO.net s ++ [AO.PostAccept o] /\
     AO.inflight s2 = AO.inflight s) /\
  (forall (s : RW.State) (h : nat) (e : RW.OrderEl) (o : Z) (r : RW.Response),
     RW.store s !! h = Some e -> RW.attached s h = true ->
     disabled (RW.el_btn e) = false -> RW.el_order e = Some o ->
     RW.refused r ->
     let s1 := RW.step s (RW.ClickAccept h) in
     let s2 := RW.step s1 (RW.Settle (length (RW.inflight s)) r) in
     RW.listEl s1 = RW.listEl s /\
     RW.listEl s2 = RW.listEl s /\ RW.store s2 = RW.store s /\
     RW.toasts s2 = RW.toasts s ++ [{| title := "Error";
                                       message := RW.refusalText r;
                                       kind := "error" |}] /\
     RW.net s2 = RW.net s ++ [RW.PostAccept o] /\
     RW.inflight s2 = RW.inflight s /\ RW.redirects s2 = RW.redirects s) /\
  (forall (s : SW.State) (h : nat) (b : SW.StatusButton) (o : Z) (new : string)
          (r : SW.Response),
     SW.btns s !! h = Some b -> SW.attached s h = true ->
     disabled (SW.sb_btn b) = false ->
     SW.sb_order b = Some o -> SW.sb_status b = Some new -> new <> "" ->
     SW.refused r ->
     let s1 := SW.step s (SW.ClickStatus h) in
     let s2 := SW.step s1 (SW.Settle (length (SW.inflight s)) r) in
     SW.cards s1 = SW.cards s /\
     SW.cards s2 = SW.cards s /\ SW.btns s2 = SW.btns s /\
     SW.toasts s2 = SW.toasts s ++ [{| title := "Error";
                                       message := SW.refusalText r;
                                       kind := "error" |}] /\
     SW.net s2 = SW.net s ++ [SW.PostStatus o new] /\
     SW.inflight s2 = SW.inflight s).
Proof.
  split_and!.
  - intros s h o c r Hwf Hclick Hc Hr s1 s2.
    destruct (AOF.acceptOrder_first_click s h o Hwf Hclick)
      as (_ & Hnet & _ & Hset & Hcont & Htim & _).
    destruct (available_orders_refused_round_trip s h o c r Hwf Hclick Hc Hr)
      as (Hc2 & Hset2 & Htim2 & Hnet2 & Hfl2 & Htoast & Hstore).
    fold s1 in Hnet, Hset, Hcont, Htim, Hnet2. fold s1 s2 in Hc2, Hset2, Htim2, Hfl2, Htoast, Hstore.
    split_and!; try done.
    + unfold AO.btnDisabled. rewrite Hstore.
      rewrite list_lookup_insert_eq by by eapply lookup_lt_Some.
      simpl. by destruct (AO.accept_btn c).
    + intros Hb. rewrite Hstore. apply list_insert_id. rewrite Hc. f_equal.
      destruct c as [? ? ? ? b]. simpl in *. by subst.
    + transitivity (AO.net s1); [exact Hnet2|exact Hnet].
  - intros s h e o r He Hatt Hd Ho Hr s1 s2.
    destruct (riderws_first_click s h e o He Hatt Hd Ho)
      as (_ & Hnet & _ & Hl & _).
    destruct (riderws_refused_round_trip s h e o r He Hatt Hd Ho Hr)
      as (Hl2 & Hst2 & Hnet2 & Hfl2 & Hred2 & Htoast).
    fold s1 in Hnet, Hl, Hnet2. fold s1 s2 in Hl2, Hst2, Hfl2, Hred2, Htoast.
    split_and!; try done. transitivity (RW.net s1); [exact Hnet2|exact Hnet].
  - intros s h b o new r Hb Hatt Hd Ho Hst Hnew Hr s1 s2.
    destruct (SWF.refused_round_trip s h b o new r Hb Hatt Hd Ho Hst Hnew Hr)
      as (Hnet & Hc1 & Hc2 & Hb2 & Hnet2 & Hfl2 & Htoast).
    fold s1 in Hnet, Hc1, Hnet2. fold s1 s2 in Hc2, Hb2, Hfl2, Htoast.
    split_and!; try done. transitivity (SW.net s1); [exact Hnet2|exact Hnet].
Qed.

(** The amended C5 for order 5: the server answers that the order is
    already taken, the rider's dashboard loses the network, and the
    seller's request gets a response that is not OK. *)
Lemma C5_refused_action_is_rolled_back_witness :
  (let r := AO.Body {| AO.success := false; AO.msg := Some "Already taken";
                       AO.orders := None |} in
   let s2 := AO.run AO.demoFive [AO.ClickAccept 0 true; AO.Settle 0 r] in
   AO.store s2 = AO.store AO.demoFive /\
   AO.toasts s2 = [{| title := "Failed"; message := "Already taken";
                      kind := "danger" |}]) /\
  (let s2 := RW.run RW.demo [RW.ClickAccept 0; RW.Settle 0 (RW.Failed "Failed to fetch")] in
   RW.store s2 = RW.store RW.demo) /\
  (let r := SW.Answer false {| SW.success := false; SW.msg := None;
                               SW.status := None; SW.status_display := None |} in
   let s2 := SW.run SW.demo [SW.ClickStatus 0; SW.Settle 0 r] in
   SW.cards s2 = SW.cards SW.demo /\ SW.btns s2 = SW.btns SW.demo).
Proof.
  destruct C5_refused_action_is_rolled_back as (Hao & Hrw & Hsw). split_and!.
  - destruct (Hao AO.demoFive 0%nat 5
                {| AO.card_id := "order-5"; AO.card_order := 5;
                   AO.card_number := "PF-0005"; AO.fading := false;
                   AO.accept_btn := Some {| disabled := false;
                                            innerHTML := AcceptLabel |} |}
                (AO.Body {| AO.success := false; AO.msg := Some "Already taken";
                            AO.orders := None |}))
      as (_ & _ & _ & Hstore & Htoast & _).
    + apply AOF.run_wf, AOF.wf_no_cards. reflexivity.
    + reflexivity.
    + reflexivity.
    + reflexivity.
    + split; [by apply Hstore|exact Htoast].
  - destruct (Hrw RW.demo 0%nat
                {| RW.el_id := "order-5"; RW.el_order := Some 5;
                   RW.el_btn := {| disabled := false;
                                   innerHTML := Literal "Accept Order" |} |}
                5 (RW.Failed "Failed to fetch"))
      as (_ & _ & Hstore & _);
      [reflexivity|reflexivity|reflexivity|reflexivity|exact I|exact Hstore].
  - destruct (Hsw SW.demo 0%nat
                {| SW.sb_order := Some 5; SW.sb_status := Some "confirmed";
                   SW.sb_class := "btn-primary"; SW.sb_action := "Confirm";
                   SW.sb_btn := {| disabled := false;
                                   innerHTML := Literal "Confirm" |} |}
                5 "confirmed"
                (SW.Answer false {| SW.success := false; SW.msg := None;
                                    SW.status := None;
                                    SW.status_display := None |}))
      as (_ & Hcards & Hbtns & _);
      [reflexivity|reflexivity|reflexivity|reflexivity|reflexivity|discriminate|
       reflexivity|].
    by split.
Defined.

(** ** Subscriptions on connect *)

(** C6: whatever happened before (disconnects, reconnects, pushes, clicks),
    a [connect] event makes the client emit the same subscriptions, which
    depend on the actor's id alone: on the available-orders page the joins
    of the rider's room and of the shared room and the presence
    announcement; on the rider dashboard the presence announcement and the
    join of the riders' room; on the seller dashboard, which has no
    presence event, the join of the seller's room. *)
Theorem C6_every_connect_resubscribes :
  (forall (s : AO.State) (r : Z) (es : list AO.Event),
     AO.socket s = true -> AO.riderId s = Some r ->
     let s' := AO.run s es in
     AO.emitted (AO.step s' (AO.Socket AO.Connect)) =
       AO.emitted s' ++ [AO.Join ("rider_" +:+ pretty r);
                         AO.Join "available_orders";
                         AO.RiderOnline (Some r)]) /\
  (forall (s : RW.State) (es : list RW.Event),
     let s' := RW.run s es in
     RW.emitted (RW.step s' (RW.Socket RW.Connect)) =
       RW.emitted s' ++ [RW.RiderOnline (RW.riderId s); RW.JoinRidersRoom]) /\
  (forall (s : SW.State) (es : list SW.Event),
     let s' := SW.run s es in
     SW.emitted (SW.step s' (SW.Socket SW.Connect)) =
       SW.emitted s' ++ [SW.JoinSellerRoom (SW.sellerId s)]).
Proof.
  split_and!.
  - intros s r es Hsock Hid s'.
    destruct (AOF.unchanging_run es s) as (Hr & Hs & _). fold s' in Hr, Hs.
    simpl. rewrite Hs, Hsock. simpl. unfold AO.onConnect. simpl.
    by rewrite Hr, Hid.
  - intros s es s'. rewrite RWF.riderws_emitted_connect. subst s'.
    by rewrite RWF.riderId_run.
  - intros s es s'. rewrite SWF.seller_emitted_connect. subst s'.
    by rewrite SWF.sellerId_run.
Qed.

(** C6 on the page of rider 7, at the first connect and at the connect
    that follows a disconnect. *)
Lemma C6_every_connect_resubscribes_witness :
  AO.emitted (AO.run AO.demoFive [AO.Socket AO.Connect]) =
    [AO.Join "rider_7"; AO.Join "available_orders"; AO.RiderOnline (Some 7)] /\
  AO.emitted (AO.run AO.demoFive
                [AO.Socket AO.Connect; AO.Socket AO.Disconnect;
                 AO.Socket AO.Connect]) =
    [AO.Join "rider_7"; AO.Join "available_orders"; AO.RiderOnline (Some 7);
     AO.Join "rider_7"; AO.Join "available_orders"; AO.RiderOnline (Some 7)].
Proof.
  destruct C6_every_connect_resubscribes as (Hao & _ & _).
  assert (AO.socket AO.demoFive = true) as Hs by (by vm_compute).
  assert (AO.riderId AO.demoFive = Some 7) as Hr by (by vm_compute).
  pose proof (Hao AO.demoFive 7 [] Hs Hr) as H1.
  pose proof (Hao AO.demoFive 7 [AO.Socket AO.Connect; AO.Socket AO.Disconnect]
                Hs Hr) as H2.
  vm_compute in H1, H2. vm_compute. by split.
Defined.

(** ** The periodic snapshot fetch *)




(** ** Missing elements *)

(** C8, as the specification states it, fails on the code for
    [updateOrdersList]: without the list element it returns at once and
    writes nothing to the console. *)
Lemma C8_updateOrdersList_returns_silently :
  RW.listEl RW.demoNoList = None /\
  RW.updateOrdersList [RW.order5] RW.demoNoList = (RW.demoNoList, Returned) /\
  RW.console (RW.updateOrdersList [RW.order5] RW.demoNoList).1 = [].
Proof. by vm_compute. Qed.

(** C8, amended: an operation whose container or template element is absent
    returns normally and adds, removes or rewrites no card.  [addOrderCard]
    and [addOrderToAvailableOrders] write the condition to the console, and
    [addOrderCard] changes nothing else; [updateOrdersList] returns the
    state as it is, without a console entry. *)
Theorem C8_missing_element_is_skipped :
  (forall (s : AO.State) (o : AO.Order),
     AO.container s = None \/ AO.template s = None ->
     AO.addOrderCard o s =
       AO.set_console
         (AO.console s ++ [(error, "Container or template not found!")]) s) /\
  (forall upd (s : RD.State) (o : RD.Order),
     (RD.container s = None ->
      RD.addOrderToAvailableOrders upd o s =
        (RD.log error "Available orders container not found" s, Returned)) /\
     (is_Some (RD.container s) -> RD.template s = false ->
      RD.order_id o ∉ RD.orderSet s ->
      let r := RD.addOrderToAvailableOrders upd o s in
      r.2 = Returned /\ RD.container r.1 = RD.container s /\
      RD.store r.1 = RD.store s /\
      RD.console r.1 =
        RD.console s ++ [(error, "Order card template not found")])) /\
  (forall (s : RW.State) (os : list RW.Order),
     RW.listEl s = None -> RW.updateOrdersList os s = (s, Returned)).
Proof.
  split_and!.
  - intros s o Hmiss. by apply AOF.addOrderCard_missing.
  - intros upd s o. split.
    + apply RDF.add_without_container.
    + apply RDF.add_without_template.
  - intros s os Hl. unfold RW.updateOrdersList. by rewrite Hl.
Qed.

(** The amended C8 on pages that lack the card template, and on the rider
    dashboard without its list. *)
Lemma C8_missing_element_is_skipped_witness :
  (let s := AO.set_container (Some {| AO.c_display := block; AO.children := [] |})
              (AO.pageState {| AO.dashboard_rider := None; AO.section_rider := None;
                               AO.io_loaded := true;
                               AO.p_loadingEl := None; AO.p_noOrdersEl := None;
                               AO.p_container := None; AO.p_template := None;
                               AO.p_store := []; AO.p_refreshBtn := None;
                               AO.p_retryBtn := false |}) in
   AO.orderSet (AO.addOrderCard AO.order5 s) = [] /\
   AO.console (AO.addOrderCard AO.order5 s) =
     [(error, "Container or template not found!")]) /\
  RD.store (RD.addOrderToAvailableOrders (fun c _ => c) RD.order5
              RD.demoNoTemplate).1 = [] /\
  RW.updateOrdersList [RW.order5] RW.demoNoList = (RW.demoNoList, Returned).
Proof.
  destruct C8_missing_element_is_skipped as (Hao & Hrd & Hrw). split_and!.
  - intros s. rewrite (Hao s AO.order5) by (by right). by split.
  - destruct (Hrd (fun c _ => c) RD.demoNoTemplate RD.order5) as [_ Htpl].
    destruct Htpl as (_ & _ & Hstore & _);
      [vm_compute; eauto|reflexivity|vm_compute; apply not_elem_of_nil|].
    exact Hstore.
  - by apply Hrw.
Defined.

(** * Further properties of the controllers *)

(** ** static/js/rider_available_orders.js *)

Module AvailableOrdersProps.
Import AvailableOrders AvailableOrdersFacts.

(** The data-order-id attributes of the attached cards, first child
    first. *)
Lemma idsOf_card_orders cards hs :
  Forall (consistent cards) hs ->
  idsOf cards hs = elemId <$> omap (fun h => card_order <$> cards !! h) hs.
Proof.
  unfold idsOf. induction 1 as [|h hs Hh _ IH]; [done|].
  unfold consistent in Hh. cbn [omap list_omap].
  destruct (cards !! h) as [c|]; [|done]. cbn. by rewrite Hh, IH.
Qed.

Lemma orderSet_card_orders s :
  Forall (consistent (store s)) (attached s) ->
  orderSet s = elemId <$> omap (fun h => card_order <$> store s !! h) (attached s).
Proof. apply idsOf_card_orders. Qed.

Lemma domContentLoaded_wf p : wf (pageState p) -> wf (domContentLoaded p).
Proof.
  intros Hwf. unfold domContentLoaded. destruct (findRiderId p) as [r|].
  - eapply wf_ext; [| |apply loadAvailableOrders_wf]; [reflexivity|reflexivity|].
    eapply wf_ext; [| |exact Hwf]; by destruct (io_loaded p).
  - by eapply wf_ext; [| |exact Hwf].
Qed.

(** X1.  No order is shown twice.  If the cards the server rendered into
    the page carry distinct orders (each with the id attribute order-N of its
    data-order-id N), then after the page initialisation and any sequence of
    socket events, timers, answers and clicks the attached cards still carry
    pairwise distinct orders, and each still has the id attribute of its
    order. *)
Theorem no_order_is_shown_twice (p : Page) (es : list Event) :
  wf (pageState p) ->
  let s := run (domContentLoaded p) es in
  NoDup (omap (fun h => card_order <$> store s !! h) (attached s)) /\
  NoDup (orderSet s) /\
  Forall (fun h => exists c, store s !! h = Some c /\
                             card_id c = "order-" +:+ pretty (card_order c))
         (attached s).
Proof.
  intros Hwf s.
  assert (wf s) as [Hcons Hids] by by apply run_wf, domContentLoaded_wf.
  split_and!; [|done|].
  - rewrite (orderSet_card_orders s Hcons) in Hids.
    by apply NoDup_fmap_1 in Hids.
  - eapply Forall_impl; [exact Hcons|]. intros h Hh. unfold consistent in Hh.
    destruct (store s !! h) as [c|]; [|done]. by exists c.
Qed.

Lemma no_order_is_shown_twice_witness :
  let s := run (domContentLoaded demoPage)
             [Settle 0 (Body (snapshot [order1; order2; order1]));
              Socket (NewAvailableOrder (Bare order2));
              Socket (NewOrderConfirmed (Wrapped order5))] in
  NoDup (omap (fun h => card_order <$> store s !! h) (attached s)) /\
  NoDup (orderSet s) /\
  Forall (fun h => exists c, store s !! h = Some c /\
                             card_id c = "order-" +:+ pretty (card_order c))
         (attached s).
Proof.
  apply (no_order_is_shown_twice demoPage). apply wf_no_cards. reflexivity.
Defined.

(** ** A successful accept *)

Lemma fadeOutDone_fields h s :
  timers (fadeOutDone h s) = timers s /\ net (fadeOutDone h s) = net s /\
  toasts (fadeOutDone h s) = toasts s /\ inflight (fadeOutDone h s) = inflight s /\
  reloads (fadeOutDone h s) = reloads s /\ store (fadeOutDone h s) = store s.
Proof.
  unfold fadeOutDone. destruct (container s) as [c|]; [|done].
  by destruct (filter _ _).
Qed.

(** X2.  A successful accept, from the click to the reload.  The click on
    the enabled accept button of an attached card sends one request; when the
    answer says success, a success toast is shown, the card starts to fade
    (it is still in the order set) and two timers are pending; the first
    removes the card from the order set, the second reloads the page, once.
    No further request is sent, and the button is never enabled again. *)
Theorem accepted_order_leaves_and_page_reloads
    (s : State) (h : nat) (o : Z) (data : Json) :
  wf s -> clickable s h = Some o -> success data = true ->
  let k := length (timers s) in
  let s1 := step s (ClickAccept h true) in
  let s2 := step s1 (Settle (length (inflight s)) (Body data)) in
  let s3 := step s2 (Fire k) in
  let s4 := step s3 (Fire k) in
  timers s2 = timers s ++ [FadeOut h; ReloadPage] /\
  orderSet s2 = orderSet s /\
  (elemId o ∉ orderSet s3) /\
  orderSet s3 = idsOf (store s) (filter (fun j => j <> h) (attached s)) /\
  reloads s3 = reloads s /\
  reloads s4 = S (reloads s) /\
  orderSet s4 = orderSet s3 /\
  timers s4 = timers s /\ inflight s4 = inflight s /\
  net s4 = net s ++ [PostAccept o] /\
  toasts s4 = toasts s ++ [{| title := "Success!";
                              message := "Delivery accepted successfully";
                              kind := "success" |}] /\
  btnDisabled s4 h = true.
Proof.
  intros Hwf Hclick Hsucc k s1 s2 s3 s4.
  pose proof (clickable_Some _ _ _ Hclick) as (Hin & c & b & Hc & Ho & Hb & Hd).
  set (store1 := update_card (map_btn (disable AcceptingSpinner)) h (store s)).
  set (store2 := update_card set_fading h store1).
  assert (s1 = set_inflight (inflight s ++ [PAccept o (Some h)])
                 (set_net (net s ++ [PostAccept o]) (set_store store1 s))) as Hs1.
  { subst s1. simpl. rewrite Hclick. unfold acceptOrder.
    by rewrite (acceptBtnOf_clickable s h o). }
  assert (card_id c = elemId o) as Hid.
  { destruct Hwf as [Hcons _]. rewrite Forall_forall in Hcons.
    specialize (Hcons h Hin). unfold consistent in Hcons.
    rewrite Hc in Hcons. by rewrite Hcons, Ho. }
  assert (forall st, container st = container s -> store st = store1 ->
                     getCard st (elemId o) = Some h) as Hget.
  { intros st Hcs Hst.
    rewrite (getCard_ext (set_store store1 s) st) by done.
    unfold store1. rewrite getCard_update_card by done.
    rewrite <- Hid. by apply getCard_unique. }
  assert (s2 = set_timers (timers s ++ [FadeOut h; ReloadPage])
                 (set_store store2
                    (set_toasts
                       (toasts s ++ [{| title := "Success!";
                                        message := "Delivery accepted successfully";
                                        kind := "success" |}])
                       (set_inflight (inflight s)
                          (set_net (net s ++ [PostAccept o]) s))))) as Hs2.
  { subst s2. rewrite Hs1. simpl. rewrite lookup_last, delete_last. simpl.
    unfold acceptAnswered. rewrite Hsucc. unfold removeOrderCard.
    change (elemIdOf (Some o)) with (elemId o).
    rewrite Hget by done. simpl. by rewrite <- app_assoc. }
  assert (orderSet s2 = orderSet s) as Hset2.
  { rewrite Hs2. unfold orderSet, store2, store1. simpl.
    rewrite !idsOf_update_card; [done| |]; by intros []. }
  assert (s3 = fadeOutDone h (set_timers (timers s ++ [ReloadPage]) s2)) as Hs3.
  { subst s3. rewrite Hs2. unfold k. simpl.
    rewrite (list_lookup_middle (timers s) [ReloadPage] (FadeOut h)) by done.
    by rewrite (delete_middle (timers s) [ReloadPage] (FadeOut h)). }
  destruct (fadeOutDone_fields h (set_timers (timers s ++ [ReloadPage]) s2))
    as (Ht3 & Hn3 & Hto3 & Hi3 & Hr3 & Hst3).
  rewrite <- Hs3 in Ht3, Hn3, Hto3, Hi3, Hr3, Hst3.
  assert (s4 = set_reloads (S (reloads s3)) (set_timers (timers s) s3)) as Hs4.
  { subst s4. unfold k. simpl. rewrite Ht3. simpl.
    by rewrite lookup_last, delete_last. }
  assert (orderSet s3 = idsOf (store s) (filter (fun j => j <> h) (attached s)))
    as Hset3.
  { rewrite Hs3, orderSet_fadeOutDone, Hs2. unfold store2, store1, attached. simpl.
    rewrite !idsOf_update_card; [done| |]; by intros []. }
  split_and!.
  - by rewrite Hs2.
  - done.
  - rewrite Hs3. apply fadeOutDone_removes.
    + change (NoDup (orderSet s2)). rewrite Hset2. apply Hwf.
    + rewrite (getCard_ext
                 (set_store (update_card set_fading h (store (set_store store1 s)))
                    (set_store store1 s))) by by rewrite Hs2.
      rewrite getCard_update_card by done. by apply Hget.
  - done.
  - by rewrite Hr3, Hs2.
  - by rewrite Hs4, Hr3, Hs2.
  - by rewrite Hs4.
  - by rewrite Hs4.
  - by rewrite Hs4; simpl; rewrite Hi3, Hs2.
  - by rewrite Hs4; simpl; rewrite Hn3, Hs2.
  - by rewrite Hs4; simpl; rewrite Hto3, Hs2.
  - unfold btnDisabled. rewrite Hs4. simpl. rewrite Hst3, Hs2. simpl.
    unfold store2, store1. rewrite !lookup_update_card.
    rewrite !decide_True by done. rewrite Hc. simpl. by rewrite Hb.
Qed.

Lemma accepted_order_leaves_and_page_reloads_witness :
  let s1 := step demoFive (ClickAccept 0 true) in
  let s2 := step s1 (Settle 0 (Body (snapshot []))) in
  let s3 := step s2 (Fire 0) in
  let s4 := step s3 (Fire 0) in
  timers s2 = [FadeOut 0%nat; ReloadPage] /\
  orderSet s2 = orderSet demoFive /\
  (elemId 5 ∉ orderSet s3) /\
  reloads s4 = 1%nat /\
  net s4 = net demoFive ++ [PostAccept 5] /\
  btnDisabled s4 0 = true.
Proof.
  assert (wf demoFive) as Hwf.
  { apply (run_wf _ (domContentLoaded demoPage)), domContentLoaded_wf,
      wf_no_cards. reflexivity. }
  assert (clickable demoFive 0 = Some 5) as Hclick by (by vm_compute).
  pose proof (accepted_order_leaves_and_page_reloads demoFive 0 5 (snapshot [])
                Hwf Hclick eq_refl) as H.
  cbv zeta in H.
  destruct H as (H1 & H2 & H3 & _ & _ & H6 & _ & _ & _ & H10 & _ & H12).
  split_and!; [exact H1|exact H2|exact H3|exact H6|exact H10|exact H12].
Defined.

(** ** A page without a rider id *)

(** X3.  Without a rider id the page stays passive.  When neither the
    dashboard element nor the orders section yields a rider id, the
    DOMContentLoaded listener logs the error and returns: no socket is
    opened, no listener and no timer is registered and no request is sent;
    and no later event other than an accept click (whose handler is a
    global function) changes anything. *)
Theorem page_without_rider_id_is_passive (p : Page) (es : list Event) :
  findRiderId p = None ->
  Forall (fun e => acceptClick e = false) es ->
  let s := domContentLoaded p in
  run s es = s /\
  socket s = false /\ handlers s = false /\ intervals s = [] /\
  net s = [] /\ emitted s = [] /\ container s = p_container p /\
  console s = [(error, "Rider ID not found!")].
Proof.
  intros Hid Hes s.
  assert (s = log error "Rider ID not found!" (pageState p)) as Hs.
  { subst s. unfold domContentLoaded. by rewrite Hid. }
  split; [|by rewrite Hs].
  induction Hes as [|e es He _ IH]; [done|].
  simpl. replace (step s e) with s; [exact IH|].
  rewrite Hs. by destruct e as [ev|[|k]|k|k r| | | |].
Qed.

Lemma page_without_rider_id_is_passive_witness :
  let p := {| dashboard_rider := Some None; section_rider := Some (Some 7);
              io_loaded := true;
              p_loadingEl := Some none; p_noOrdersEl := Some none;
              p_container := Some {| c_display := none; children := [] |};
              p_template := Some demoTemplate; p_store := [];
              p_refreshBtn := Some {| disabled := false; innerHTML := RefreshLabel |};
              p_retryBtn := true |} in
  let es := [Socket Connect; Socket (NewAvailableOrder (Bare order5)); Tick 0;
             ClickRefresh; ClickRetry; Settle 0 Rejected; Fire 0] in
  let s := domContentLoaded p in
  run s es = s /\
  socket s = false /\ handlers s = false /\ intervals s = [] /\
  net s = [] /\ emitted s = [] /\ container s = p_container p /\
  console s = [(error, "Rider ID not found!")].
Proof.
  intros p es. apply (page_without_rider_id_is_passive p es).
  - reflexivity.
  - repeat constructor.
Defined.

(** ** The refresh button *)

Lemma step_ClickRefresh s b :
  handlers s = true -> refreshBtn s = Some b -> disabled b = false ->
  step s ClickRefresh =
  set_timers (timers s ++ [RestoreRefresh])
    (loadAvailableOrders (set_refreshBtn (Some (disable RefreshingSpinner b)) s)).
Proof.
  intros Hh Hb Hd. simpl. rewrite Hh, Hb, Hd. unfold refreshClicked. by rewrite Hb.
Qed.

Lemma step_ClickRefresh_disabled s b :
  refreshBtn s = Some b -> disabled b = true -> step s ClickRefresh = s.
Proof. intros Hb Hd. simpl. rewrite Hb, Hd. by destruct (handlers s). Qed.

Lemma step_Fire s k t :
  timers s !! k = Some t ->
  step s (Fire k) = runTimeout t (set_timers (delete k (timers s)) s).
Proof. intros H. simpl. by rewrite H. Qed.

(** X4.  The refresh button is restored by its one-second timer, not by the
    answer.  A click on the enabled button disables it, shows the spinner
    and sends one snapshot request; a second click is then ignored.  When
    the timer fires the button is enabled again with its label although the
    request is still pending, and a further click sends a second request
    beside it. *)
Theorem refresh_button_is_restored_by_its_timer (s : State) (b : Button) :
  handlers s = true -> refreshBtn s = Some b -> disabled b = false ->
  let s1 := step s ClickRefresh in
  let s2 := step s1 (Fire (length (timers s))) in
  refreshBtn s1 = Some {| disabled := true; innerHTML := RefreshingSpinner |} /\
  net s1 = net s ++ [GetAvailableOrders] /\
  timers s1 = timers s ++ [RestoreRefresh] /\
  step s1 ClickRefresh = s1 /\
  refreshBtn s2 = Some {| disabled := false; innerHTML := RefreshLabel |} /\
  timers s2 = timers s /\
  inflight s2 = inflight s ++ [PLoad] /\
  net (step s2 ClickRefresh) = net s ++ [GetAvailableOrders; GetAvailableOrders] /\
  inflight (step s2 ClickRefresh) = inflight s ++ [PLoad; PLoad].
Proof.
  intros Hh Hb Hd s1 s2. subst s2 s1.
  rewrite (step_ClickRefresh s b Hh Hb Hd).
  set (s1 := set_timers _ _).
  assert (timers s1 = timers s ++ [RestoreRefresh]) as Ht1 by done.
  assert (refreshBtn s1 = Some (disable RefreshingSpinner b)) as Hb1 by done.
  rewrite (step_Fire s1 (length (timers s)) RestoreRefresh)
    by (rewrite Ht1; apply lookup_last).
  rewrite Ht1, delete_last.
  set (s2 := runTimeout _ _).
  assert (handlers s2 = true) as Hh2 by exact Hh.
  assert (refreshBtn s2 = Some (enable RefreshLabel (disable RefreshingSpinner b)))
    as Hb2 by done.
  rewrite (step_ClickRefresh s2 _ Hh2 Hb2 eq_refl).
  split_and!.
  - done.
  - done.
  - done.
  - by apply (step_ClickRefresh_disabled s1 (disable RefreshingSpinner b)).
  - done.
  - done.
  - done.
  - simpl. by rewrite <- app_assoc.
  - simpl. by rewrite <- app_assoc.
Qed.

Lemma refresh_button_is_restored_by_its_timer_witness :
  let s1 := step demoFive ClickRefresh in
  let s2 := step s1 (Fire 0) in
  step s1 ClickRefresh = s1 /\
  refreshBtn s2 = Some {| disabled := false; innerHTML := RefreshLabel |} /\
  inflight s2 = [PLoad] /\
  inflight (step s2 ClickRefresh) = [PLoad; PLoad].
Proof.
  pose proof (refresh_button_is_restored_by_its_timer demoFive
                {| disabled := false; innerHTML := RefreshLabel |}
                eq_refl eq_refl eq_refl) as H.
  cbv zeta in H. destruct H as (_ & _ & _ & H4 & H5 & _ & H7 & _ & H9).
  split_and!; [exact H4|exact H5|exact H7|exact H9].
Defined.

(** ** A fading card and a new snapshot *)

Lemma filter_all {A} (P : A -> Prop) `{forall x, Decision (P x)} (l : list A) :
  Forall P l -> filter P l = l.
Proof.
  induction 1 as [|x l Hx _ IH]; [done|].
  by rewrite filter_cons_True, IH.
Qed.

Lemma fadeOutDone_detached h s :
  h ∉ attached s -> visibleSet (fadeOutDone h s) = visibleSet s.
Proof.
  intros Hh. unfold fadeOutDone, visibleSet, orderSet, attached in *.
  destruct (container s) as [[dsp ch]|] eqn:Hc; [|by rewrite Hc].
  simpl in *. rewrite filter_all.
  - destruct ch; simpl; [by destruct dsp|done].
  - apply Forall_forall. by intros k Hk ->.
Qed.

Lemma addOrderCard_ledger o s : ledger (addOrderCard o s) = ledger s.
Proof.
  unfold addOrderCard. destruct (container s), (template s); try done.
  by destruct (getCard _ _).
Qed.

Lemma fold_addOrderCard_ledger os s :
  ledger (List.fold_left (fun acc order => addOrderCard order acc) os s) = ledger s.
Proof.
  revert s. induction os as [|o os IH]; intros s; [done|].
  simpl. by rewrite IH, addOrderCard_ledger.
Qed.

Lemma ordersLoaded_ledger data s : ledger (ordersLoaded data s) = ledger s.
Proof.
  unfold ordersLoaded. destruct (success data); [|done].
  destruct (orders data) as [[|o os]|]; try done.
  by rewrite fold_addOrderCard_ledger.
Qed.

(** The cards a snapshot creates have handles beyond the cards that
    existed before. *)
Lemma fold_addOrderCard_handles os s n :
  (n <= length (store s))%nat -> Forall (fun k => (n <= k)%nat) (attached s) ->
  Forall (fun k => (n <= k)%nat)
    (attached (List.fold_left (fun acc order => addOrderCard order acc) os s)).
Proof.
  revert s. induction os as [|o os IH]; intros s Hn Hall; [done|].
  simpl. apply IH.
  - unfold addOrderCard. destruct (container s), (template s); try done.
    destruct (getCard _ _); [done|]. simpl. rewrite length_app. lia.
  - unfold addOrderCard, attached in *.
    destruct (container s) as [c|] eqn:Hc, (template s); simpl; rewrite ?Hc; try done.
    destruct (getCard _ _); simpl; rewrite ?Hc; [done|].
    by constructor.
Qed.

(** X5.  A pending fade-out does not remove a re-rendered card.  When a
    snapshot answer arrives while the card of an order is fading out, the
    snapshot rebuilds the list; the removal scheduled for the old card runs
    later on that detached card and leaves what the snapshot shows
    untouched, so an order that the snapshot still lists stays on the
    screen. *)
Theorem pending_fade_out_spares_the_new_cards
    (s : State) (i : Z) (h : nat) (data : Json) (os : list Order) :
  is_Some (template s) -> getCard s (elemId i) = Some h ->
  success data = true -> orders data = Some os ->
  let fading := removeOrderCard (Some i) s in
  let rendered := ordersLoaded data fading in
  timers rendered = timers s ++ [FadeOut h] /\
  visibleSet rendered = shownIds os /\
  visibleSet (runTimeout (FadeOut h) rendered) = shownIds os /\
  (forall o, o ∈ os -> id o = i ->
             elemId i ∈ visibleSet (runTimeout (FadeOut h) rendered)).
Proof.
  intros Ht Hget Hsucc Hos fading rendered.
  assert (fading = set_timers (timers s ++ [FadeOut h])
                     (set_store (update_card set_fading h (store s)) s)) as Hf.
  { subst fading. unfold removeOrderCard.
    change (elemIdOf (Some i)) with (elemId i). by rewrite Hget. }
  pose proof (getCard_Some _ _ _ Hget) as (Hin & c & Hc & _).
  assert (is_Some (container s)) as [cn Hcn].
  { unfold getCard in Hget. destruct (container s); [eauto|done]. }
  assert (visibleSet rendered = shownIds os) as Hvis.
  { apply visibleSet_ordersLoaded; try done; rewrite Hf; simpl; eauto. }
  assert (visibleSet (runTimeout (FadeOut h) rendered) = shownIds os) as Hlate.
  { rewrite <- Hvis. simpl. subst rendered.
    rewrite (ordersLoaded_success data os) by done.
    destruct os as [|o os'].
    - rewrite Hf. unfold fadeOutDone, visibleSet. simpl. rewrite Hcn. simpl.
      by destruct (filter _ _).
    - apply fadeOutDone_detached. intros Hh.
      assert (Forall (fun k => (length (store fading) <= k)%nat)
                (attached
                   (List.fold_left (fun acc order => addOrderCard order acc)
                      (o :: os')
                      (set_noOrdersEl (show_if_present none (noOrdersEl fading))
                         (set_container
                            ((fun _ => {| c_display := block; children := [] |})
                               <$> container fading)
                            (set_loadingEl
                               (show_if_present none (loadingEl fading))
                               fading)))))) as Hall.
      { apply fold_addOrderCard_handles; [done|]. unfold attached.
        rewrite Hf. simpl. rewrite Hcn. simpl. constructor. }
      rewrite Forall_forall in Hall. pose proof (Hall _ Hh) as Hle.
      apply lookup_lt_Some in Hc. rewrite Hf in Hle. simpl in Hle.
      unfold update_card in Hle. destruct (store s !! h); [|lia].
      rewrite length_insert in Hle. lia. }
  split_and!; [|done|done|].
  - pose proof (ordersLoaded_ledger data fading) as Hl. fold rendered in Hl.
    unfold ledger in Hl. injection Hl as _ Ht' _ _. by rewrite Ht', Hf.
  - intros o Ho <-. rewrite Hlate. apply elem_of_shownIds. eauto.
Qed.

Lemma pending_fade_out_spares_the_new_cards_witness :
  let fading := removeOrderCard (Some 2) demoLoaded in
  let rendered := ordersLoaded (snapshot [order2; order5]) fading in
  timers rendered = [FadeOut 1%nat] /\
  visibleSet (runTimeout (FadeOut 1%nat) rendered) = shownIds [order2; order5] /\
  elemId 2 ∈ visibleSet (runTimeout (FadeOut 1%nat) rendered).
Proof.
  assert (is_Some (template demoLoaded)) as Ht by (vm_compute; eauto).
  assert (getCard demoLoaded (elemId 2) = Some 1%nat) as Hget by (by vm_compute).
  pose proof (pending_fade_out_spares_the_new_cards demoLoaded 2 1
                (snapshot [order2; order5]) [order2; order5]
                Ht Hget eq_refl eq_refl) as H.
  cbv zeta in H. destruct H as (H1 & _ & H3 & H4).
  split_and!; [exact H1|exact H3|].
  apply (H4 order2); [|reflexivity]. apply list_elem_of_here.
Defined.

(** ** Reloads and accept requests *)

Lemma count_app {A} (f : A -> bool) (l l' : list A) :
  count f (l ++ l') = (count f l + count f l')%nat.
Proof. unfold count. by rewrite List.filter_app, length_app. Qed.

Lemma count_delete {A} (f : A -> bool) (l : list A) (k : nat) (x : A) :
  l !! k = Some x ->
  count f l = (count f (delete k l) + if f x then 1 else 0)%nat.
Proof.
  intros Hk. rewrite delete_take_drop.
  rewrite <- (take_drop_middle l k x Hk) at 1.
  rewrite !count_app. unfold count at 2. simpl.
  destruct (f x); simpl; fold (count f (drop (S k) l)); lia.
Qed.

(** Arithmetic over the counters. *)
Ltac counts :=
  repeat match goal with
         | H : context [@count ?A ?f ?l] |- _ =>
             let n := fresh "n" in set (n := @count A f l) in *; clearbody n
         | |- context [@count ?A ?f ?l] =>
             let n := fresh "n" in set (n := @count A f l) in *; clearbody n
         end;
  lia.

Lemma count_one {A} (f : A -> bool) (x : A) :
  count f [x] = if f x then 1%nat else 0%nat.
Proof. unfold count. simpl. by destruct (f x). Qed.

Lemma ledger_quiet s s' :
  ledger s' = ledger s ->
  reloadsDue s' = reloadsDue s /\ acceptsSent s' = acceptsSent s.
Proof.
  unfold ledger, reloadsDue, acceptsSent. by intros [= -> -> -> ->].
Qed.

Lemma removeOrderCard_quiet v s :
  reloadsDue (removeOrderCard v s) = reloadsDue s /\
  acceptsSent (removeOrderCard v s) = acceptsSent s.
Proof.
  unfold removeOrderCard. destruct (getCard _ _); [|done].
  unfold reloadsDue, acceptsSent. simpl. rewrite count_app.
  split; [|done]. rewrite ?count_one. simpl. counts.
Qed.

Lemma loadAvailableOrders_quiet s :
  reloadsDue (loadAvailableOrders s) = reloadsDue s /\
  acceptsSent (loadAvailableOrders s) = acceptsSent s.
Proof.
  unfold reloadsDue, acceptsSent. simpl. rewrite !count_app.
  rewrite ?count_one. simpl. counts.
Qed.

Lemma handleNewOrder_ledger d s : ledger (handleNewOrder d s) = ledger s.
Proof.
  unfold handleNewOrder. destruct (_ =? _); [done|].
  pose proof (addOrderCard_ledger (payloadOrder d)
                (set_noOrdersEl
                   (show_if_present none
                      (noOrdersEl
                         (set_container (set_c_display block <$> container s) s)))
                   (set_container (set_c_display block <$> container s) s)))
    as H.
  unfold ledger in *. simpl in *. exact H.
Qed.

Lemma update_btn_ledger f btn s : ledger (update_btn f btn s) = ledger s.
Proof. by destruct btn. Qed.

Lemma onSocket_quiet ev s :
  reloadsDue (onSocket ev s) = reloadsDue s /\
  acceptsSent (onSocket ev s) = acceptsSent s.
Proof.
  destruct ev as [|d|d|d|d|d| |]; simpl;
    try (by apply ledger_quiet, handleNewOrder_ledger);
    try apply removeOrderCard_quiet; try apply loadAvailableOrders_quiet;
    try done.
  unfold handleOrderAccepted. destruct (differs _ _); [|done].
  apply removeOrderCard_quiet.
Qed.

Lemma acceptOrder_accounts confirmed o s :
  reloadsDue (acceptOrder confirmed o s) =
    (reloadsDue s + if confirmed then 1 else 0)%nat /\
  acceptsSent (acceptOrder confirmed o s) =
    (acceptsSent s + if confirmed then 1 else 0)%nat.
Proof.
  destruct confirmed; simpl; [|lia].
  unfold acceptOrder. unfold reloadsDue, acceptsSent. simpl.
  destruct (ledger_quiet s (update_btn (disable AcceptingSpinner)
                              (acceptBtnOf s o) s)
              (update_btn_ledger _ _ _)) as [Hr Ha].
  unfold reloadsDue, acceptsSent in Hr, Ha. rewrite !count_app.
  rewrite ?count_one. simpl. counts.
Qed.

Lemma settle_accounts p r s :
  (reloadsDue (settle p r s) <=
     reloadsDue s + if isPendingAccept p then 1 else 0)%nat /\
  acceptsSent (settle p r s) = acceptsSent s.
Proof.
  destruct p as [|o btn], r as [data|]; simpl.
  - destruct (ledger_quiet s (ordersLoaded data s) (ordersLoaded_ledger _ _)).
    counts.
  - split; [|done]. unfold reloadsDue. simpl. counts.
  - unfold acceptAnswered. destruct (success data).
    + destruct (removeOrderCard_quiet (Some o)
                  (showToast "Success!" "Delivery accepted successfully"
                     "success" s)) as [Hr Ha].
      unfold reloadsDue, acceptsSent in *. simpl in *. rewrite count_app.
      rewrite ?count_one. simpl. counts.
    + destruct (ledger_quiet
                  (showToast "Failed" (or_else (msg data) "Could not accept delivery")
                     "danger" s)
                  _ (update_btn_ledger (enable AcceptLabel) btn _)) as [Hr Ha].
      rewrite Hr, Ha. split; [|done]. unfold reloadsDue. simpl. counts.
  - unfold acceptFailed.
    destruct (ledger_quiet
                (showToast "Error" "Failed to accept delivery" "danger"
                   (log error "Error:" s))
                _ (update_btn_ledger (enable AcceptLabel) btn _)) as [Hr Ha].
    rewrite Hr, Ha. split; [|done]. unfold reloadsDue. simpl. counts.
Qed.

(** An event schedules a reload only as far as it uses up an accept
    request, and sends an accept request only when it is an accept click. *)
Lemma step_accounts s e :
  (reloadsDue (step s e) + acceptsSent s <=
     reloadsDue s + acceptsSent (step s e))%nat /\
  (acceptsSent (step s e) <= acceptsSent s + if acceptClick e then 1 else 0)%nat.
Proof.
  destruct e as [ev|k|k|k r|h confirmed|o confirmed| |]; simpl.
  - destruct (socket s); [|lia]. destruct (onSocket_quiet ev s). counts.
  - destruct (timers s !! k) as [t|] eqn:Ht; [|lia].
    pose proof (count_delete isReload _ _ _ Ht) as Hcnt.
    destruct t as [h| |]; simpl.
    + destruct (ledger_quiet (set_timers (delete k (timers s)) s)
                  (fadeOutDone h (set_timers (delete k (timers s)) s)))
        as [Hr Ha].
      { unfold ledger.
        destruct (fadeOutDone_fields h (set_timers (delete k (timers s)) s))
          as (-> & -> & _ & -> & -> & _). done. }
      rewrite Hr, Ha. unfold reloadsDue, acceptsSent. simpl in *. counts.
    + unfold reloadsDue, acceptsSent. simpl in *. counts.
    + unfold reloadsDue, acceptsSent. simpl in *. counts.
  - destruct (intervals s !! k) as [[? []]|]; [|lia].
    destruct (loadAvailableOrders_quiet s). counts.
  - destruct (inflight s !! k) as [p|] eqn:Hp; [|lia].
    pose proof (count_delete isPendingAccept _ _ _ Hp) as Hcnt.
    destruct (settle_accounts p r (set_inflight (delete k (inflight s)) s))
      as [Hr Ha].
    rewrite Ha. unfold reloadsDue, acceptsSent in *. simpl in *. counts.
  - destruct (clickable s h) as [o|]; [|lia].
    destruct (acceptOrder_accounts confirmed o s) as [-> ->].
    destruct confirmed; counts.
  - destruct (acceptOrder_accounts confirmed o s) as [-> ->].
    destruct confirmed; counts.
  - destruct (handlers s), (refreshBtn s) as [b|]; try counts.
    destruct (disabled b); [lia|]. unfold refreshClicked.
    destruct (loadAvailableOrders_quiet
                (set_refreshBtn (disable RefreshingSpinner <$> Some b) s))
      as [Hr Ha].
    unfold reloadsDue, acceptsSent in *. simpl in *. rewrite count_app.
    rewrite ?count_one. simpl. counts.
  - destruct (handlers s && retryBtn s); [|lia].
    destruct (loadAvailableOrders_quiet s). counts.
Qed.

Lemma run_accounts es s :
  (reloadsDue (run s es) + acceptsSent s <=
     reloadsDue s + acceptsSent (run s es))%nat /\
  (acceptsSent (run s es) <= acceptsSent s + count acceptClick es)%nat.
Proof.
  revert s. induction es as [|e es IH]; intros s; [simpl; unfold count; simpl; lia|].
  simpl. destruct (IH (step s e)) as [H1 H2].
  destruct (step_accounts s e) as [H3 H4].
  change (count acceptClick (e :: es))
    with (count acceptClick ([e] ++ es)). rewrite count_app.
  rewrite ?count_one. simpl. destruct (acceptClick e); simpl in *; counts.
Qed.

(** X6.  The page reloads only after an accept.  On any page and after any
    sequence of events, the number of page reloads is at most the number of
    accept requests that were sent, and that is at most the number of accept
    clicks (on a card or in the details modal): no push event, timer,
    snapshot or refresh reloads the page or accepts an order. *)
Theorem reloads_are_bounded_by_accepts (p : Page) (es : list Event) :
  let s := run (domContentLoaded p) es in
  (reloads s <= acceptsSent s)%nat /\
  (acceptsSent s <= count acceptClick es)%nat.
Proof.
  intros s. destruct (run_accounts es (domContentLoaded p)) as [H1 H2].
  fold s in H1, H2.
  assert (reloadsDue (domContentLoaded p) = 0%nat /\
          acceptsSent (domContentLoaded p) = 0%nat) as [Hr Ha].
  { unfold domContentLoaded. destruct (findRiderId p); [|done].
    by destruct (io_loaded p). }
  rewrite Hr, Ha in *. unfold reloadsDue in H1. lia.
Qed.

(** ** The age shown on a card *)

(** X7.  [formatDate] shows the age of an order in whole minutes below one
    hour and in whole hours below one day.  For a date string that parses:
    an age below one minute (also a date in the future) gives Just now; an
    age from one minute up to one hour gives N min ago with N the whole
    minutes, from 1 to 59; from one hour up to one day it gives N hours ago
    with N the whole hours, from 1 to 23 (also for N = 1); from one day on
    the locale date and time are shown.  A missing or empty date string
    gives N/A. *)
Theorem formatDate_shows_whole_minutes_and_hours
    (parse : string -> option Z) (dateOf timeOf : option Z -> string)
    (now t : Z) (str : string) :
  str <> "" -> parse str = Some t ->
  let age := now - t in
  let shown := formatDate parse dateOf timeOf now (Some str) in
  (age < 60000 -> shown = "Just now") /\
  (60000 <= age < 3600000 ->
     shown = pretty (age / 60000) +:+ " min ago" /\ 1 <= age / 60000 <= 59) /\
  (3600000 <= age < 86400000 ->
     shown = pretty (age / 3600000) +:+ " hours ago" /\
     1 <= age / 3600000 <= 23) /\
  (86400000 <= age -> shown = dateOf (Some t) +:+ " " +:+ timeOf (Some t)) /\
  formatDate parse dateOf timeOf now None = "N/A" /\
  formatDate parse dateOf timeOf now (Some "") = "N/A".
Proof.
  intros Hstr Hparse age shown.
  assert (shown =
          if age / 60000 <? 1 then "Just now"
          else if age / 60000 <? 60 then pretty (age / 60000) +:+ " min ago"
          else if age / 60000 <? 1440
               then pretty (age / 60000 / 60) +:+ " hours ago"
               else dateOf (Some t) +:+ " " +:+ timeOf (Some t)) as ->.
  { subst shown. unfold formatDate, truthy.
    apply String.eqb_neq in Hstr. rewrite Hstr. simpl. by rewrite Hparse. }
  assert (age / 60000 / 60 = age / 3600000) as ->.
  { rewrite Z.div_div by lia. done. }
  clearbody age.
  split_and!; try done.
  - intros H. rewrite (proj2 (Z.ltb_lt (age / 60000) 1)); [done|].
    Z.to_euclidean_division_equations; lia.
  - intros H.
    assert (1 <= age / 60000 <= 59) as Hn
      by (Z.to_euclidean_division_equations; lia).
    rewrite (proj2 (Z.ltb_ge (age / 60000) 1)) by lia.
    by rewrite (proj2 (Z.ltb_lt (age / 60000) 60)) by lia.
  - intros H.
    assert (60 <= age / 60000 < 1440 /\ 1 <= age / 3600000 <= 23) as [Hn Hh]
      by (Z.to_euclidean_division_equations; lia).
    rewrite (proj2 (Z.ltb_ge (age / 60000) 1)) by lia.
    rewrite (proj2 (Z.ltb_ge (age / 60000) 60)) by lia.
    by rewrite (proj2 (Z.ltb_lt (age / 60000) 1440)) by lia.
  - intros H.
    assert (1440 <= age / 60000) as Hn
      by (Z.to_euclidean_division_equations; lia).
    rewrite (proj2 (Z.ltb_ge (age / 60000) 1)) by lia.
    rewrite (proj2 (Z.ltb_ge (age / 60000) 60)) by lia.
    by rewrite (proj2 (Z.ltb_ge (age / 60000) 1440)) by lia.
Qed.

Lemma formatDate_shows_whole_minutes_and_hours_witness :
  let parse := fun _ : string => Some 1000 in
  let dateOf := fun _ : option Z => "1/1/1970" in
  let timeOf := fun _ : option Z => "12:00:01 AM" in
  formatDate parse dateOf timeOf 500 (Some "1970-01-01T00:00:01Z") = "Just now" /\
  formatDate parse dateOf timeOf 5401000 (Some "1970-01-01T00:00:01Z")
    = "1 hours ago" /\
  formatDate parse dateOf timeOf 3600999 (Some "1970-01-01T00:00:01Z")
    = "59 min ago".
Proof.
  intros parse dateOf timeOf.
  assert ("1970-01-01T00:00:01Z" <> "") as Hne by discriminate.
  split_and!.
  - apply (formatDate_shows_whole_minutes_and_hours parse dateOf timeOf 500 1000
             "1970-01-01T00:00:01Z" Hne eq_refl). lia.
  - destruct (formatDate_shows_whole_minutes_and_hours parse dateOf timeOf
                5401000 1000 "1970-01-01T00:00:01Z" Hne eq_refl)
      as (_ & _ & H & _).
    destruct H as [H _]; [lia|]. exact H.
  - destruct (formatDate_shows_whole_minutes_and_hours parse dateOf timeOf
                3600999 1000 "1970-01-01T00:00:01Z" Hne eq_refl)
      as (_ & H & _).
    destruct H as [H _]; [lia|]. exact H.
Defined.

End AvailableOrdersProps.

(** ** The RiderWebSocket class *)

Module RiderWebSocketProps.
Import RiderWebSocket RiderWebSocketFacts.

(** X8.  One malformed order truncates the refreshed list.  When the
    answer to a refresh lists an order that [createOrderElement] cannot
    render (its items are not an array, or a price or the total is not a
    number), the old list has already been cleared and the orders before
    the malformed one have been appended; the orders after it are not
    shown.  The error is logged to the console and no toast tells the
    rider. *)
Theorem malformed_order_truncates_the_list
    (s : State) (data : Json) (good rest : list Order) (bad : Order) :
  is_Some (listEl s) ->
  orders data = Some (good ++ bad :: rest) ->
  Forall renderable good -> createOrderElement bad = None ->
  let s' := refreshSettled (Answer true data) s in
  orderList s' = List.map (fun o => "order-" +:+ pretty (id o)) good /\
  console s' = console s ++ [(error, "Error refreshing orders:")] /\
  toasts s' = toasts s /\ net s' = net s.
Proof.
  intros [l Hl] Hos Hgood Hbad s'.
  set (s0 := set_listEl (Some []) s).
  set (s1 := (appendOrders good s0).1).
  assert (s' = log error "Error refreshing orders:" s1) as ->.
  { subst s'. unfold refreshSettled. rewrite Hos. unfold updateOrdersList.
    rewrite Hl.
    assert (appendOrders (good ++ bad :: rest) s0 = (s1, Threw)) as Happ.
    { rewrite appendOrders_app by done. fold s1. simpl. by rewrite Hbad. }
    destruct (good ++ bad :: rest) as [|o os] eqn:Heq.
    - by destruct good.
    - fold s0. by rewrite Happ. }
  destruct (appendOrders_quiet good s0) as (Hc & Ht & Hn). fold s1 in Hc, Ht, Hn.
  destruct (orderList_appendOrders good s0 []) as [_ Hlist]; try done.
  fold s1 in Hlist.
  split_and!.
  - exact Hlist.
  - simpl. by rewrite Hc.
  - simpl. by rewrite Ht.
  - simpl. by rewrite Hn.
Qed.

Lemma malformed_order_truncates_the_list_witness :
  let bad := {| id := 6; items := None; total_amount := Some 300 |} in
  let data := {| success := true; msg := None; redirect := None;
                 orders := Some [order5; bad; order5] |} in
  let s' := refreshSettled (Answer true data) demo in
  orderList s' = ["order-5"] /\
  console s' = [(error, "Error refreshing orders:")] /\
  toasts s' = [] /\ net s' = [].
Proof.
  intros bad data.
  apply (malformed_order_truncates_the_list demo data [order5] [order5] bad).
  - vm_compute. eauto.
  - reflexivity.
  - repeat constructor. vm_compute. eauto.
  - reflexivity.
Defined.

(** X9.  A successful accept leaves the order in the list with its button
    disabled.  After the click and an answer with success set (whatever the
    HTTP status), a success toast is shown, the page is redirected exactly
    when the answer names a non-empty redirect,  the element stays in the
    list and its button keeps the spinner and stays disabled; no further
    request is sent. *)
Theorem riderws_accepted_order_keeps_its_spinner
    (s : State) (h : nat) (e : OrderEl) (o : Z) (ok : bool) (data : Json) :
  store s !! h = Some e -> attached s h = true ->
  disabled (el_btn e) = false -> el_order e = Some o ->
  success data = true ->
  let s1 := step s (ClickAccept h) in
  let s2 := step s1 (Settle (length (inflight s)) (Answer ok data)) in
  store s2 = <[h := set_btn {| disabled := true; innerHTML := AcceptingSpinner |} e]>
               (store s) /\
  btnDisabled s2 h = true /\
  listEl s2 = listEl s /\
  toasts s2 = toasts s ++ [{| title := "Success";
                              message := "Order accepted successfully!";
                              kind := "success" |}] /\
  redirects s2 = redirects s ++ match redirect data with
                                | Some url => if String.eqb url "" then [] else [url]
                                | None => []
                                end /\
  net s2 = net s ++ [PostAccept o] /\ inflight s2 = inflight s /\
  console s2 = console s.
Proof.
  intros He Hatt Hd Ho Hsucc s1 s2.
  assert (s1 = set_inflight (inflight s ++ [PAccept h (innerHTML (el_btn e))])
                 (set_net (net s ++ [PostAccept o])
                    (set_store
                       (<[h := set_btn (disable AcceptingSpinner (el_btn e)) e]>
                          (store s)) s))) as Hs1.
  { subst s1. simpl. rewrite He, Hatt, Hd. simpl.
    unfold acceptOrder. rewrite Ho, He. unfold update_btn. by rewrite He. }
  subst s2. rewrite Hs1. simpl. rewrite lookup_last, delete_last. simpl.
  rewrite Hsucc.
  assert (btnDisabled
            (set_store
               (<[h := set_btn (disable AcceptingSpinner (el_btn e)) e]> (store s))
               s) h = true) as Hbtn.
  { unfold btnDisabled. simpl.
    by rewrite list_lookup_insert_eq by by eapply lookup_lt_Some. }
  destruct (redirect data) as [url|]; [destruct (String.eqb url "")|];
    simpl; rewrite ?app_nil_r; split_and!; done.
Qed.

Lemma riderws_accepted_order_keeps_its_spinner_witness :
  let data := {| success := true; msg := None; redirect := Some "/rider/order/5";
                 orders := None |} in
  let s2 := run demo [ClickAccept 0; Settle 0 (Answer false data)] in
  btnDisabled s2 0 = true /\ listEl s2 = listEl demo /\
  redirects s2 = ["/rider/order/5"] /\ net s2 = [PostAccept 5].
Proof.
  intros data.
  pose proof (riderws_accepted_order_keeps_its_spinner demo 0
                {| el_id := "order-5"; el_order := Some 5;
                   el_btn := {| disabled := false;
                                innerHTML := Literal "Accept Order" |} |}
                5 false data eq_refl eq_refl eq_refl eq_refl eq_refl) as H.
  cbv zeta in H. destruct H as (_ & H2 & H3 & _ & H5 & H6 & _).
  split_and!; [exact H2|exact H3|exact H5|exact H6].
Defined.

(** X10.  A pushed delivery without a numeric total is dropped without a
    trace.  For [new_delivery_available], when the total is a number the
    rider gets one toast (and a desktop notification when permitted) and one
    snapshot request is sent; when it is not, the handler fails before it
    shows anything and the list is not refreshed: the state does not
    change. *)
Theorem new_delivery_needs_a_numeric_total (s : State) (d : NewDelivery) :
  let s' := step s (Socket (NewDeliveryAvailable d)) in
  (is_Some (n_total_amount d) ->
     net s' = net s ++ [GetAvailableOrders] /\
     inflight s' = inflight s ++ [PRefresh] /\
     toasts s' = toasts s ++ [{| title := "New Delivery Available";
                                 message := "Order #" +:+ pretty (n_id d);
                                 kind := "info" |}] /\
     notifications s' =
       notifications s ++ (if notifying s then [n_id d] else []) /\
     listEl s' = listEl s) /\
  (n_total_amount d = None -> s' = s).
Proof.
  intros s'. subst s'. simpl. unfold showNewOrderNotification.
  split.
  - intros [t ->]. destruct (notifying s); simpl; rewrite ?app_nil_r; done.
  - by intros ->.
Qed.

Lemma new_delivery_needs_a_numeric_total_witness :
  let s' := step demo (Socket (NewDeliveryAvailable
                                 {| n_id := 9; n_total_amount := Some 4500 |})) in
  net s' = [GetAvailableOrders] /\
  toasts s' = [{| title := "New Delivery Available"; message := "Order #9";
                  kind := "info" |}] /\
  step demo (Socket (NewDeliveryAvailable {| n_id := 9; n_total_amount := None |}))
    = demo.
Proof.
  pose proof (new_delivery_needs_a_numeric_total demo
                {| n_id := 9; n_total_amount := Some 4500 |}) as H.
  pose proof (new_delivery_needs_a_numeric_total demo
                {| n_id := 9; n_total_amount := None |}) as H'.
  cbv zeta in H, H'. destruct H as [H _]. destruct H' as [_ H'].
  destruct H as (H1 & _ & H3 & _); [by eexists|].
  split_and!; [exact H1|exact H3|exact (H' eq_refl)].
Defined.

(** X11.  The rider's position is always posted, and emitted only while the
    socket is connected.  When the 30 s timer fires on a browser with
    geolocation, one position request is pending; its fix is posted to the
    server, and an update_location event with the page's rider id is
    emitted exactly when the socket is connected; a failure is only logged.
    A fix that answers no pending request changes nothing. *)
Theorem position_is_posted_and_emitted_when_connected
    (s : State) (k : nat) (t : Interval) (lat lng : Z) :
  geolocation s = true -> intervals s !! k = Some t ->
  let s1 := step s (Tick k) in
  let s2 := step s1 (Position (Some (lat, lng))) in
  let s3 := step s1 (Position None) in
  locating s1 = S (locating s) /\ net s1 = net s /\
  net s2 = net s ++ [PostLocation lat lng] /\
  emitted s2 =
    emitted s ++ (if connected s then [UpdateLocation (riderId s) lat lng] else []) /\
  locating s2 = locating s /\
  net s3 = net s /\ emitted s3 = emitted s /\
  console s3 = console s ++ [(error, "Error getting location:")] /\
  (locating s = 0%nat -> step s (Position (Some (lat, lng))) = s).
Proof.
  intros Hgeo Hk s1 s2 s3.
  assert (s1 = set_locating (S (locating s)) s) as Hs1.
  { subst s1. simpl. rewrite Hk. destruct t as [p []].
    unfold updateRiderLocation. by rewrite Hgeo. }
  subst s2 s3. rewrite Hs1. simpl. unfold positionFound. simpl.
  split_and!; try done.
  - by destruct (connected s).
  - destruct (connected s); simpl; by rewrite ?app_nil_r.
  - by destruct (connected s).
  - by intros ->.
Qed.

Lemma position_is_posted_and_emitted_when_connected_witness :
  let s1 := step demo (Tick 0) in
  let s2 := step s1 (Position (Some (14599500, 120984200))) in
  net s2 = [PostLocation 14599500 120984200] /\ emitted s2 = [] /\
  emitted (step (step (step demo (Socket Connect)) (Tick 0))
             (Position (Some (14599500, 120984200))))
    = [RiderOnline 7; JoinRidersRoom; UpdateLocation 7 14599500 120984200].
Proof.
  pose proof (position_is_posted_and_emitted_when_connected demo 0
                {| period_ms := 30000; callback := UpdateRiderLocation |}
                14599500 120984200 eq_refl eq_refl) as H.
  pose proof (position_is_posted_and_emitted_when_connected
                (step demo (Socket Connect)) 0
                {| period_ms := 30000; callback := UpdateRiderLocation |}
                14599500 120984200 eq_refl eq_refl) as H'.
  cbv zeta in H, H'.
  destruct H as (_ & _ & H3 & H4 & _). destruct H' as (_ & _ & _ & H4' & _).
  split_and!; [exact H3|exact H4|exact H4'].
Defined.

(** ** order_taken *)

Lemma elem_of_orderList s eid :
  eid ∈ orderList s <->
  exists l h e, listEl s = Some l /\ OrderElem h ∈ l /\
                store s !! h = Some e /\ el_id e = eid.
Proof.
  unfold orderList. destruct (listEl s) as [l|].
  - rewrite list_elem_of_omap. split.
    + intros ([h|] & Hin & Hx); [|done].
      destruct (store s !! h) as [e|] eqn:He; [|done].
      injection Hx as <-. by exists l, h, e.
    + intros (l' & h & e & [= <-] & Hin & He & <-).
      exists (OrderElem h). by rewrite He.
  - split; [by intros ?%elem_of_nil|]. by intros (? & ? & ? & ? & _).
Qed.

(** Two children with the same element id are the same child when the ids
    of the list are distinct. *)
Lemma orderList_inj s l h k e e' :
  listEl s = Some l -> NoDup (orderList s) ->
  OrderElem h ∈ l -> OrderElem k ∈ l ->
  store s !! h = Some e -> store s !! k = Some e' -> el_id e = el_id e' ->
  h = k.
Proof.
  unfold orderList. intros -> Hnd. revert Hnd.
  induction l as [|c l IH]; intros Hnd Hh Hk He He' Hid.
  { by apply elem_of_nil in Hh. }
  assert (forall j x, OrderElem j ∈ l -> store s !! j = Some x ->
                      el_id x ∈ omap (fun c => match c with
                                               | OrderElem h => el_id <$> store s !! h
                                               | NoOrdersAlert => None
                                               end) l) as Hmem.
  { intros j x Hj Hx. apply list_elem_of_omap. exists (OrderElem j).
    by rewrite Hx. }
  cbn [omap list_omap] in Hnd.
  apply elem_of_cons in Hh as [Hh|Hh], Hk as [Hk|Hk].
  - congruence.
  - subst c. rewrite He in Hnd. simpl in Hnd. apply NoDup_cons in Hnd as [Hn _].
    exfalso. apply Hn. rewrite Hid. by eapply Hmem.
  - subst c. rewrite He' in Hnd. simpl in Hnd. apply NoDup_cons in Hnd as [Hn _].
    exfalso. apply Hn. rewrite <- Hid. by eapply Hmem.
  - apply IH; try done.
    destruct c as [j|]; [|done]. destruct (store s !! j); [|done].
    simpl in Hnd. by apply NoDup_cons in Hnd as [_ ?].
Qed.

(** X12.  [order_taken] removes the order's element and always shows the
    toast.  For a truthy order id the element with id order-N leaves the
    list (when the ids of the list are distinct) and every other element
    stays; the toast that another rider took the order is shown whether or
    not the order was in the list.  An id that is missing or 0 changes
    nothing. *)
Theorem order_taken_removes_the_element (s : State) (o : Z) :
  o <> 0 -> NoDup (orderList s) ->
  let eid := "order-" +:+ pretty o in
  let s' := step s (Socket (OrderTaken (Some o))) in
  (eid ∉ orderList s') /\
  (forall x, x <> eid -> x ∈ orderList s' <-> x ∈ orderList s) /\
  (eid ∉ orderList s -> listEl s' = listEl s) /\
  toasts s' = toasts s ++ [{| title := "Order taken";
                              message := "This order was accepted by another rider.";
                              kind := "info" |}] /\
  net s' = net s /\
  step s (Socket (OrderTaken None)) = s /\
  step s (Socket (OrderTaken (Some 0))) = s.
Proof.
  intros Ho Hnd eid s'.
  assert (s' = showToast "Order taken" "This order was accepted by another rider."
                 "info" (removeOrderFromList o s)) as Hs'.
  { subst s'. simpl. apply Z.eqb_neq in Ho. by rewrite Ho. }
  set (is_it := fun c : Child =>
                  match c with
                  | OrderElem h => match store s !! h with
                                   | Some e => String.eqb (el_id e) eid
                                   | None => false
                                   end
                  | NoOrdersAlert => false
                  end).
  assert (removeOrderFromList o s =
          match listEl s with
          | Some l => match List.find is_it l with
                      | Some c => set_listEl (Some (filter (fun c' => c' <> c) l)) s
                      | None => s
                      end
          | None => s
          end) as Hrem by done.
  assert (orderList s' = orderList (removeOrderFromList o s)) as Hl by by rewrite Hs'.
  assert (net s' = net s /\ toasts s' =
            toasts s ++ [{| title := "Order taken";
                            message := "This order was accepted by another rider.";
                            kind := "info" |}]) as [Hnet Htoast].
  { rewrite Hs', Hrem. simpl. destruct (listEl s) as [l|]; [|done].
    by destruct (List.find is_it l). }
  assert (listEl s' = listEl (removeOrderFromList o s)) as Hle by by rewrite Hs'.
  split_and!; try done.
  - rewrite Hl, Hrem. destruct (listEl s) as [l|] eqn:Hls.
    + destruct (List.find is_it l) as [c|] eqn:Hfind.
      * apply find_some in Hfind as [Hin Hit].
        destruct c as [h|]; [|done]. simpl in Hit.
        destruct (store s !! h) as [e|] eqn:He; [|done].
        apply String.eqb_eq in Hit.
        intros (l' & k & e' & Hl' & Hk & He' & Hid)%elem_of_orderList.
        simpl in Hl', He'. injection Hl' as <-.
        apply list_elem_of_filter in Hk as [Hne Hk]. apply Hne. f_equal.
        apply list_elem_of_In in Hin.
        eapply (orderList_inj s l k h); eauto. congruence.
      * intros (l' & k & e' & Hl' & Hk & He' & Hid)%elem_of_orderList.
        rewrite Hls in Hl'. injection Hl' as <-.
        apply list_elem_of_In in Hk.
        pose proof (find_none _ _ Hfind _ Hk) as Hno. simpl in Hno.
        rewrite He' in Hno. apply String.eqb_neq in Hno. done.
    + intros (l' & k & e' & Hl' & _)%elem_of_orderList. congruence.
  - intros x Hx. rewrite Hl, Hrem. destruct (listEl s) as [l|] eqn:Hls; [|done].
    destruct (List.find is_it l) as [c|] eqn:Hfind; [|done].
    apply find_some in Hfind as [Hin Hit].
    destruct c as [h|]; [|done]. simpl in Hit.
    destruct (store s !! h) as [e|] eqn:He; [|done].
    apply String.eqb_eq in Hit.
    rewrite !elem_of_orderList. simpl. rewrite Hls. split.
    + intros (l' & k & e' & [= <-] & Hk & He' & Hid).
      apply list_elem_of_filter in Hk as [_ Hk]. by exists l, k, e'.
    + intros (l' & k & e' & [= <-] & Hk & He' & Hid).
      eexists _, k, e'. split_and!; [done| |done|done].
      apply list_elem_of_filter. split; [|done].
      intros [= ->]. congruence.
  - intros Hnot. rewrite Hle, Hrem. destruct (listEl s) as [l|] eqn:Hls; [|done].
    destruct (List.find is_it l) as [c|] eqn:Hfind; [|done].
    apply find_some in Hfind as [Hin Hit].
    destruct c as [h|]; [|done]. simpl in Hit.
    destruct (store s !! h) as [e|] eqn:He; [|done].
    apply String.eqb_eq in Hit. exfalso. apply Hnot.
    apply elem_of_orderList. exists l, h, e. split_and!; try done.
    by apply list_elem_of_In.
Qed.

Lemma order_taken_removes_the_element_witness :
  let s' := step demo (Socket (OrderTaken (Some 5))) in
  ("order-5" ∉ orderList s') /\
  toasts s' = [{| title := "Order taken";
                  message := "This order was accepted by another rider.";
                  kind := "info" |}] /\
  toasts (step demo (Socket (OrderTaken (Some 6)))) = toasts s' /\
  listEl (step demo (Socket (OrderTaken (Some 6)))) = listEl demo.
Proof.
  assert (NoDup (orderList demo)) as Hnd
    by (apply (bool_decide_unpack _); by vm_compute).
  pose proof (order_taken_removes_the_element demo 5 ltac:(discriminate) Hnd) as H.
  pose proof (order_taken_removes_the_element demo 6 ltac:(discriminate) Hnd) as H'.
  cbv zeta in H, H'.
  destruct H as (H1 & _ & _ & H4 & _). destruct H' as (_ & _ & H3' & H4' & _).
  split_and!.
  - intros Hin. apply H1. vm_compute. vm_compute in Hin. exact Hin.
  - exact H4.
  - exact H4'.
  - apply H3'. apply (bool_decide_unpack _). by vm_compute.
Defined.

End RiderWebSocketProps.

(** ** The SellerWebSocket class *)

Module SellerWebSocketProps.
Import SellerWebSocket.

Lemma elem_of_pageWindow data c i :
  i ∈ pageWindow data c <->
  Z.max 1 (c - 2) <= i <= Z.min (pages data) (Z.max 1 (c - 2) + 4).
Proof. unfold pageWindow. rewrite elem_of_seqZ. lia. Qed.

(** X13.  The pagination links of the seller's order list.  When the
    response has a previous or a next page, the links are the previous
    link, at most five numbered links and the next link.  Every numbered
    link names a page from 1 to the number of pages, so a click on it loads
    that page; the current page, when it is such a page, is among them and
    is the one marked active.  The previous and the next link carry the
    neighbouring page numbers and load them exactly when they are pages from
    1 to the number of pages, whatever has_prev and has_next say: these only
    set the disabled class.  Without a previous and a next page no link is
    written. *)
Theorem pagination_links_load_existing_pages (data : PageData) (c : Z) :
  let links := updatePagination data c in
  (has_prev data = false -> has_next data = false -> links = []) /\
  (has_prev data = true \/ has_next data = true ->
     (length links <= 7)%nat /\
     (forall l, l ∈ links -> pl_kind l = Numbered ->
                1 <= pl_page l <= pages data /\
                pageClicked data l = Some (pl_page l) /\
                (pl_active l = true <-> pl_page l = c)) /\
     (1 <= c <= pages data ->
      {| pl_kind := Numbered; pl_page := c; pl_disabled := false;
         pl_active := true |} ∈ links) /\
     (forall l, l ∈ links -> pl_kind l = Previous ->
                pl_page l = c - 1 /\
                (is_Some (pageClicked data l) <-> 2 <= c <= pages data + 1)) /\
     (forall l, l ∈ links -> pl_kind l = Next ->
                pl_page l = c + 1 /\
                (is_Some (pageClicked data l) <-> 0 <= c < pages data))).
Proof.
  intros links. split.
  { intros Hp Hn. subst links. unfold updatePagination. by rewrite Hp, Hn. }
  intros Hsome.
  assert (links =
          [{| pl_kind := Previous; pl_page := c - 1;
              pl_disabled := negb (has_prev data); pl_active := false |}]
          ++ List.map (fun i => {| pl_kind := Numbered; pl_page := i;
                                   pl_disabled := false;
                                   pl_active := Z.eqb i c |})
               (pageWindow data c)
          ++ [{| pl_kind := Next; pl_page := c + 1;
                 pl_disabled := negb (has_next data); pl_active := false |}])
    as Hlinks.
  { subst links. unfold updatePagination.
    by destruct Hsome as [-> | ->]; destruct (has_prev data), (has_next data). }
  assert (forall l, l ∈ links <->
            l = {| pl_kind := Previous; pl_page := c - 1;
                   pl_disabled := negb (has_prev data); pl_active := false |} \/
            (exists i, i ∈ pageWindow data c /\
                       l = {| pl_kind := Numbered; pl_page := i;
                              pl_disabled := false; pl_active := Z.eqb i c |}) \/
            l = {| pl_kind := Next; pl_page := c + 1;
                   pl_disabled := negb (has_next data); pl_active := false |})
    as Hin.
  { intros l. rewrite Hlinks, list_elem_of_In, !in_app_iff, in_map_iff.
    simpl. split.
    - intros [[<-|[]]|[(i & <- & Hi)|[<-|[]]]]; [by left| |by right; right].
      right; left. exists i. split; [by apply list_elem_of_In|done].
    - intros [-> | [(i & Hi & ->) | -> ]]; [by left; left| |by right; right; left].
      right; left. exists i. split; [done|by apply list_elem_of_In]. }
  split_and!.
  - rewrite Hlinks, !length_app, length_map. unfold pageWindow.
    rewrite length_seqZ. simpl. lia.
  - intros l [-> | [(i & Hi & ->) | -> ]]%Hin Hk; try done.
    apply elem_of_pageWindow in Hi. simpl. unfold pageClicked. simpl.
    split; [lia|]. split.
    + rewrite (proj2 (Z.leb_le 1 i)), (proj2 (Z.leb_le i (pages data))) by lia.
      done.
    + by rewrite Z.eqb_eq.
  - intros Hc. apply Hin. right; left. exists c. split.
    + apply elem_of_pageWindow. lia.
    + by rewrite Z.eqb_refl.
  - intros l [-> | [(i & Hi & ->) | -> ]]%Hin Hk; try done.
    split; [done|]. unfold pageClicked. simpl.
    destruct (Z.leb_spec 1 (c - 1)), (Z.leb_spec (c - 1) (pages data)); simpl;
      (split; [intros Hs; first [lia|by destruct Hs as [? [=]]]
              |intros Hr; first [by eauto|lia]]).
  - intros l [-> | [(i & Hi & ->) | -> ]]%Hin Hk; try done.
    split; [done|]. unfold pageClicked. simpl.
    destruct (Z.leb_spec 1 (c + 1)), (Z.leb_spec (c + 1) (pages data)); simpl;
      (split; [intros Hs; first [lia|by destruct Hs as [? [=]]]
              |intros Hr; first [by eauto|lia]]).
Qed.

Lemma pagination_links_load_existing_pages_witness :
  let data := {| pages := 9; has_prev := true; has_next := false |} in
  List.map pl_page (updatePagination data 9) = [8; 7; 8; 9; 10] /\
  pageClicked data {| pl_kind := Next; pl_page := 10; pl_disabled := true;
                      pl_active := false |} = None /\
  {| pl_kind := Numbered; pl_page := 9; pl_disabled := false;
     pl_active := true |} ∈ updatePagination data 9.
Proof.
  intros data. split; [reflexivity|]. split; [reflexivity|].
  destruct (pagination_links_load_existing_pages data 9) as [_ H].
  destruct H as (_ & _ & H & _); [by left|].
  apply H. done.
Defined.

End SellerWebSocketProps.
